(** * HR / SOP assistant: ingestion, retrieval and answering pipeline

    Shallow embedding of [src/ingest.py], [src/agents.py] and the
    handlers of [src/api.py].  Python text is a [string] whose characters
    are the code points below 256; dictionaries are [gmap string _];
    exceptions are values of [exn]; every call to an external collaborator
    (file system, document loader, embedding model, vector index, chat
    model) is a step of a state-and-exception monad that logs the call. *)

From Stdlib Require Import ZArith Ascii String List Bool Lia DecimalString.
From stdpp Require Import base option gmap strings list fin_maps.

Local Open Scope string_scope.
Local Open Scope list_scope.

(** ** Python values and strings *)

Module Py.

(** Values stored in a metadata dictionary: text, or an integer such as
    the [chunk_id]. *)
Inductive pyval : Type :=
  | VStr (s : string)
  | VInt (z : Z).

#[global] Instance pyval_eq_dec : EqDecision pyval.
Proof. solve_decision. Defined.

#[global] Instance pyval_countable : Countable pyval.
Proof.
  refine (inj_countable'
            (fun v => match v with VStr s => inl s | VInt z => inr z end)
            (fun x => match x with inl s => VStr s | inr z => VInt z end) _).
  by intros [].
Defined.

(** Exceptions, by class, with the text [str(e)] returns. *)
Inductive exn : Type :=
  | FileNotFoundError (msg : string)
  | ValueError (msg : string)
  | RuntimeError (msg : string)
  | IndexError (msg : string)
  | OSError (msg : string)
  | UpstreamError (msg : string)
  | HTTPException (status_code : nat) (detail : string).

Definition exn_str (e : exn) : string :=
  match e with
  | FileNotFoundError m | ValueError m | RuntimeError m
  | IndexError m | OSError m | UpstreamError m => m
  | HTTPException _ d => d
  end.

Definition nl : string := String (ascii_of_nat 10) EmptyString.

Definition code (c : ascii) : nat := nat_of_ascii c.

Definition between (lo hi n : nat) : bool := (lo <=? n)%nat && (n <=? hi)%nat.

(** [str.isspace] on one character, which is also the class [\s]. *)
Definition isspace (c : ascii) : bool :=
  let n := code c in
  between 9 13 n || between 28 32 n || (n =? 133)%nat || (n =? 160)%nat.

(** [str.isalnum] on one character. *)
Definition isalnum (c : ascii) : bool :=
  let n := code c in
  between 48 57 n || between 65 90 n || between 97 122 n
  || (n =? 170)%nat || between 178 179 n || (n =? 181)%nat
  || between 185 186 n || between 188 190 n || between 192 214 n
  || between 216 246 n || between 248 255 n.

Definition isdecimal (c : ascii) : bool := between 48 57 (code c).

(** [str.lower] on one character. *)
Definition lower_char (c : ascii) : ascii :=
  let n := code c in
  if between 65 90 n || (between 192 222 n && negb (n =? 215)%nat)
  then ascii_of_nat (n + 32) else c.

Fixpoint lower (s : string) : string :=
  match s with
  | EmptyString => EmptyString
  | String c s' => String (lower_char c) (lower s')
  end.

Fixpoint lstrip (s : string) : string :=
  match s with
  | String c s' => if isspace c then lstrip s' else s
  | EmptyString => EmptyString
  end.

(** Drops trailing whitespace: a character is kept when it is not a space
    or when something is kept after it. *)
Fixpoint rstrip (s : string) : string :=
  match s with
  | EmptyString => EmptyString
  | String c s' =>
      match rstrip s' with
      | EmptyString => if isspace c then EmptyString else String c EmptyString
      | r => String c r
      end
  end.

(** [s.strip()] *)
Definition strip (s : string) : string := rstrip (lstrip s).

(** [s.startswith(p)] *)
Fixpoint startswith (s p : string) : bool :=
  match p, s with
  | EmptyString, _ => true
  | String a p', String b s' => if Ascii.eqb a b then startswith s' p' else false
  | String _ _, EmptyString => false
  end.

(** [sub in s] *)
Fixpoint str_in (sub s : string) : bool :=
  startswith s sub ||
  match s with
  | EmptyString => false
  | String _ s' => str_in sub s'
  end.

Fixpoint rev_string (s acc : string) : string :=
  match s with
  | EmptyString => acc
  | String c s' => rev_string s' (String c acc)
  end.

(** [s.endswith(p)] *)
Definition endswith (s p : string) : bool :=
  startswith (rev_string s EmptyString) (rev_string p EmptyString).

(** [s.endswith((p1, p2, ...))] *)
Definition endswith_any (s : string) (ps : list string) : bool :=
  existsb (endswith s) ps.

(** [sep.join(parts)] *)
Fixpoint join (sep : string) (parts : list string) : string :=
  match parts with
  | [] => EmptyString
  | [p] => p
  | p :: rest => p +:+ sep +:+ join sep rest
  end.

(** [d.get(key, default)] *)
Definition dict_get (d : gmap string pyval) (key : string) (default : pyval) : pyval :=
  match d !! key with
  | Some v => v
  | None => default
  end.

(** [str(v)] as used inside an f-string. *)
Definition pystr (v : pyval) : string :=
  match v with
  | VStr s => s
  | VInt z => NilZero.string_of_int (Z.to_int z)
  end.

End Py.
Import Py.

(** ** The fragment of [re] used by the metadata extractor

    Patterns are sequences of literal characters, greedy [c*] and one
    greedy capturing [(c+)].  The matcher backtracks the way [re] does:
    a star first tries to take one more character and gives it back when
    the rest of the pattern fails. *)

Module Re.

Inductive item : Type :=
  | Lit (c : ascii)
  | Star (cls : ascii -> bool)
  | GroupPlus (cls : ascii -> bool).

Fixpoint lits (s : string) : list item :=
  match s with
  | EmptyString => []
  | String c s' => Lit c :: lits s'
  end.

Definition or_else {A} (x y : option A) : option A :=
  match x with
  | Some _ => x
  | None => y
  end.

(** [match_at pat s]: the pattern matched at the start of [s]; the result
    is the text of group 1 (empty when the pattern has no group). *)
Fixpoint match_at (pat : list item) (s : string) {struct pat} : option string :=
  match pat with
  | [] => Some EmptyString
  | Lit a :: pat' =>
      match s with
      | String c s' => if Ascii.eqb a c then match_at pat' s' else None
      | EmptyString => None
      end
  | Star cls :: pat' =>
      (fix star (s : string) : option string :=
         or_else
           match s with
           | String c s' => if cls c then star s' else None
           | EmptyString => None
           end
           (match_at pat' s)) s
  | GroupPlus cls :: pat' =>
      (fix plus (taken : bool) (s : string) : option string :=
         or_else
           match s with
           | String c s' =>
               if cls c then option_map (String c) (plus true s') else None
           | EmptyString => None
           end
           (if taken
            then option_map (fun _ => EmptyString) (match_at pat' s)
            else None)) false s
  end.

(** [re.search(pat, s)]: leftmost match; [Some g] carries [group(1)]. *)
Fixpoint search (pat : list item) (s : string) : option string :=
  or_else (match_at pat s)
    match s with
    | EmptyString => None
    | String _ s' => search pat s'
    end.

Definition hyphen : ascii := ascii_of_nat 45.
Definition underscore : ascii := ascii_of_nat 95.
Definition period : ascii := ascii_of_nat 46.
Definition newline : ascii := ascii_of_nat 10.

(** [\w] and [[\w-]] *)
Definition word (c : ascii) : bool := isalnum c || Ascii.eqb c underscore.
Definition word_or_hyphen (c : ascii) : bool := word c || Ascii.eqb c hyphen.
(** [[\d.]] *)
Definition digit_or_dot (c : ascii) : bool := isdecimal c || Ascii.eqb c period.
(** [.] *)
Definition any_but_newline (c : ascii) : bool := negb (Ascii.eqb c newline).

(** [r'Document ID:\s*([\w-]+)'] *)
Definition doc_id_re : list item :=
  lits "Document ID:" ++ [Star isspace; GroupPlus word_or_hyphen].
(** [r'Title:\s*(.+)'] *)
Definition title_re : list item :=
  lits "Title:" ++ [Star isspace; GroupPlus any_but_newline].
(** [r'Version:\s*([\d.]+)'] *)
Definition version_re : list item :=
  lits "Version:" ++ [Star isspace; GroupPlus digit_or_dot].

End Re.

(** ** Computations with state and exceptions

    A Python call that raises keeps the state it had reached, so a
    computation returns an outcome together with the final state. *)

Definition M (S A : Type) : Type := S -> (exn + A) * S.

#[global] Instance M_ret {S} : MRet (M S) := fun A (a : A) s => (inr a, s).

#[global] Instance M_bind {S} : MBind (M S) :=
  fun A B (f : A -> M S B) (c : M S A) s =>
    match c s with
    | (inr a, s') => f a s'
    | (inl e, s') => (inl e, s')
    end.

Definition raise {S A} (e : exn) : M S A := fun s => (inl e, s).

(** [try: body / except Exception as e: handler(e)] *)
Definition try_except {S A} (body : M S A) (handler : exn -> M S A) : M S A :=
  fun s =>
    match body s with
    | (inr a, s') => (inr a, s')
    | (inl e, s') => handler e s'
    end.

Definition get_state {S} : M S S := fun s => (inr s, s).
Definition modify {S} (f : S -> S) : M S unit := fun s => (inr tt, f s).

(** A result computed outside the monad (an external call's answer). *)
Definition lift_result {S A} (r : exn + A) : M S A := fun s => (r, s).

(** ** Paths *)

Module Path.

Definition slash : ascii := ascii_of_nat 47.
Definition dot : ascii := ascii_of_nat 46.

(** Text after the last [/]: [Path(p).name], [os.path.basename]. *)
Fixpoint name (p : string) : string :=
  match p with
  | EmptyString => EmptyString
  | String c p' =>
      if str_in "/" p' then name p'
      else if Ascii.eqb c slash then p' else p
  end.

(** The directories above [p], outermost first: ["a/b/c"] gives
    ["a"; "a/b"]. *)
Fixpoint parents_from (seen : string) (p : string) : list string :=
  match p with
  | EmptyString => []
  | String c p' =>
      if Ascii.eqb c slash
      then (match seen with
            | EmptyString => []
            | _ => [rev_string seen EmptyString]
            end) ++ parents_from (String c seen) p'
      else parents_from (String c seen) p'
  end.

Definition parents (p : string) : list string := parents_from EmptyString p.

(** [Path(p).parent], when [p] has one. *)
Definition parent (p : string) : option string := last (parents p).

(** [os.path.join(a, b)] *)
Definition join (a b : string) : string :=
  if startswith b "/" then b
  else match a with
       | EmptyString => b
       | _ => if endswith a "/" then a +:+ b else a +:+ "/" +:+ b
       end.

(** Extension of [os.path.splitext]: from the last dot of the last
    component, unless only dots precede it there. *)
Fixpoint ext_of_name (leading : bool) (n : string) : string :=
  match n with
  | EmptyString => EmptyString
  | String c n' =>
      if Ascii.eqb c dot
      then if leading then ext_of_name true n'
           else if str_in "." n' then ext_of_name false n' else n
      else ext_of_name false n'
  end.

Definition splitext_ext (p : string) : string := ext_of_name true (name p).

End Path.

(** ** Documents, the file system and the external collaborators *)

Record Document : Type := mkDocument {
  page_content : string;
  metadata : gmap string pyval
}.

#[global] Instance Document_eq_dec : EqDecision Document.
Proof. solve_decision. Defined.

Inductive Role : Type := System | Human.

(** A call that leaves the process, as it appears in the call log. *)
Inductive Event : Type :=
  | EvMakedirs (path : string)
  | EvWriteFile (path : string)
  | EvReadFile (path : string)
  | EvRmtree (path : string)
  | EvLoadDocument (path : string)
  | EvEmbed (texts : list string)
  | EvWriteIndex (path : string)
  | EvReadIndex (path : string)
  | EvSearch (question : string) (k : nat)
  | EvChat (messages : list (Role * string)).

Section Model.

(** Embedding vectors and similarity scores are produced and consumed by
    the external libraries only. *)
Context {Vec Score : Type}.

(** A FAISS store in memory: the vectors with their documents. *)
Definition Index : Type := list (Vec * Document).

Inductive FileData : Type :=
  | Bytes (content : string)
  | FaissIndex (vectors : list Vec)
  | Pickle (docstore : list Document).

Inductive Node : Type :=
  | Dir
  | File (data : FileData).

Record World : Type := mkWorld {
  fs : gmap string Node;
  environ : gmap string string;
  trace : list Event
}.

(** ** [config.py]: [Settings] *)

Record Settings : Type := mkSettings {
  AZURE_OPENAI_ENDPOINT : string;
  AZURE_OPENAI_KEY : string;
  AZURE_OPENAI_API_VERSION : string;
  AZURE_EMBEDDING_DEPLOYMENT : string;
  AZURE_CHAT_DEPLOYMENT : string
}.

(** The class body, evaluated at import on the variables of the process:
    [os.getenv(name, fallback)]. *)
Definition Settings_load (vars : gmap string string) : Settings :=
  mkSettings
    (default EmptyString (vars !! "AZURE_OPENAI_ENDPOINT"))
    (default EmptyString (vars !! "AZURE_OPENAI_KEY"))
    (default "2024-02-01" (vars !! "AZURE_OPENAI_API_VERSION"))
    (default "text-embedding-ada-002" (vars !! "AZURE_EMBEDDING_DEPLOYMENT"))
    (default "gpt-4.1-mini" (vars !! "AZURE_CHAT_DEPLOYMENT")).

(** The collaborators outside the repository. *)
Record Env : Type := mkEnv {
  (** [PyPDFLoader(path).load()] and [Docx2txtLoader(path).load()] on the
      bytes of the file *)
  pdf_load : string -> string -> exn + list Document;
  docx_load : string -> string -> exn + list Document;
  (** [RecursiveCharacterTextSplitter(chunk_size, chunk_overlap,
      separators).split_text] *)
  split_text : nat -> nat -> list string -> string -> list string;
  (** [AzureOpenAIEmbeddings.embed_documents] *)
  embed_documents : list string -> exn + list Vec;
  (** [FAISS.similarity_search_with_score(question, k)] *)
  similarity_search_with_score :
    Index -> string -> nat -> exn + list (Document * Score);
  (** [AzureChatOpenAI.invoke(messages).content] *)
  llm_invoke : list (Role * string) -> exn + string;
  (** [Path.glob(pattern)] on a directory *)
  glob : gmap string Node -> string -> string -> list string;
  (** an input/output call that fails in the operating system *)
  io_fault : Event -> option exn;
  (** [AzureChatOpenAI(...)] and [AzureOpenAIEmbeddings(...)] on the
      settings: building a client can fail, for instance without a key *)
  AzureChatOpenAI_new : Settings -> option exn;
  AzureOpenAIEmbeddings_new : Settings -> option exn;
  (** [shutil.rmtree] removes the entries of a tree one by one and can
      stop with an error when some of them are gone: the error, and the
      entries removed before it *)
  rmtree_stops : gmap string Node -> string -> option (exn * (string -> bool))
}.

Variable env : Env.

Definition log (ev : Event) : M World unit :=
  modify (fun w => mkWorld (fs w) (environ w) (trace w ++ [ev])).

(** An external call: logged, then failed when the system says so. *)
Definition io (ev : Event) : M World unit :=
  log ev;;
  match io_fault env ev with
  | Some e => raise e
  | None => mret tt
  end.

(** Building a client from the settings of the process. *)
Definition new_client (fault : Settings -> option exn) : M World unit :=
  w ← get_state;
  match fault (Settings_load (environ w)) with
  | Some e => raise e
  | None => mret tt
  end.

Definition set_fs (f : gmap string Node -> gmap string Node) : M World unit :=
  modify (fun w => mkWorld (f (fs w)) (environ w) (trace w)).

(** *** File-system calls *)

(** [Path(p).exists()], [os.path.exists(p)] *)
Definition path_exists (p : string) : M World bool :=
  w ← get_state; mret (bool_decide (is_Some (fs w !! p))).

Definition mkdir_one (p : string) : M World unit :=
  w ← get_state;
  match fs w !! p with
  | Some Dir => mret tt
  | Some (File _) => raise (OSError ("File exists: " +:+ p))
  | None => set_fs (insert p Dir)
  end.

(** [os.makedirs(p, exist_ok=True)], [Path(p).mkdir(parents=True,
    exist_ok=True)] *)
Definition makedirs (p : string) : M World unit :=
  io (EvMakedirs p);;
  foldr (fun q rest => mkdir_one q;; rest) (mret tt) (Path.parents p ++ [p]).

(** [open(p, 'wb')] followed by the write. *)
Definition write_file (ev : Event) (p : string) (data : FileData) : M World unit :=
  io ev;;
  w ← get_state;
  match Path.parent p with
  | Some d =>
      match fs w !! d with
      | Some Dir => mret tt
      | _ => raise (FileNotFoundError ("No such file or directory: " +:+ p))
      end
  | None => mret tt
  end;;
  match fs w !! p with
  | Some Dir => raise (OSError ("Is a directory: " +:+ p))
  | _ => set_fs (insert p (File data))
  end.

(** [open(p, 'r').read()] *)
Definition read_file (ev : Event) (p : string) : M World FileData :=
  io ev;;
  w ← get_state;
  match fs w !! p with
  | Some (File d) => mret d
  | Some Dir => raise (OSError ("Is a directory: " +:+ p))
  | None => raise (FileNotFoundError ("No such file or directory: " +:+ p))
  end.

Definition inside (d : string) (p : string) : bool :=
  String.eqb p d || startswith p (d +:+ "/").

(** [shutil.rmtree(p)]: the entries below [p] go first and [p] itself
    last, so that an error part of the way leaves [p] and the entries not
    yet reached. *)
Definition rmtree (p : string) : M World unit :=
  io (EvRmtree p);;
  w ← get_state;
  match fs w !! p with
  | Some Dir =>
      match rmtree_stops env (fs w) p with
      | Some (e, gone) =>
          set_fs (filter (fun kv => (inside p kv.1 && gone kv.1
                                     && negb (String.eqb kv.1 p)) = false));;
          raise e
      | None => set_fs (filter (fun kv => inside p kv.1 = false))
      end
  | Some (File _) => raise (OSError ("Not a directory: " +:+ p))
  | None => raise (FileNotFoundError ("No such file or directory: " +:+ p))
  end.

(** *** [FAISS] persistence (langchain): [save_local] creates the folder
    and overwrites [index.faiss] and [index.pkl] in it; [load_local] reads
    [index.faiss] first, through [faiss.read_index], whose failure is a
    [RuntimeError], then unpickles [index.pkl]. *)

Definition FAISS_save_local (index : Index) (folder : string) : M World unit :=
  makedirs folder;;
  write_file (EvWriteIndex (Path.join folder "index.faiss"))
    (Path.join folder "index.faiss") (FaissIndex (map fst index));;
  write_file (EvWriteFile (Path.join folder "index.pkl"))
    (Path.join folder "index.pkl") (Pickle (map snd index)).

Definition FAISS_load_local (folder : string) : M World Index :=
  io (EvReadIndex (Path.join folder "index.faiss"));;
  w ← get_state;
  vectors ← match fs w !! Path.join folder "index.faiss" with
            | Some (File (FaissIndex vs)) => mret vs
            | Some _ =>
                raise (RuntimeError ("read_index: not an index file: " +:+ folder))
            | None =>
                raise (RuntimeError
                         ("could not open " +:+ Path.join folder "index.faiss"
                          +:+ " for reading: No such file or directory"))
            end;
  data ← read_file (EvReadFile (Path.join folder "index.pkl"))
           (Path.join folder "index.pkl");
  match data with
  | Pickle docs => mret (zip vectors docs)
  | _ => raise (UpstreamError "could not unpickle the docstore")
  end.

(** [FAISS.from_documents(chunks, embeddings)]: one embedding call for all
    chunk texts; the index dimension is read from the first vector. *)
Definition FAISS_from_documents (chunks : list Document) : M World Index :=
  log (EvEmbed (map page_content chunks));;
  vectors ← lift_result (embed_documents env (map page_content chunks));
  match vectors with
  | [] => raise (IndexError "list index out of range")
  | _ => mret (zip vectors chunks)
  end.

(** ** [config.py] *)

Definition SOP_DOCUMENTS_PATH : string := "Data/Documents".
Definition SOP_VECTORSTORE_PATH : string := "data/vectorstore/sop_faiss_index".
Definition SOP_CHUNK_SIZE : nat := 800.
Definition SOP_CHUNK_OVERLAP : nat := 120.
Definition SOP_TOP_K : nat := 4.
Definition HC_DOCUMENTS_PATH : string := "data/HR_Doc".
Definition HC_VECTORSTORE_PATH : string := "data/vectorstore/hc_faiss_index".
Definition HC_UPLOAD_DIR : string := "uploads/hc".
Definition HC_CHUNK_SIZE : nat := 800.
Definition HC_CHUNK_OVERLAP : nat := 120.
Definition HC_TOP_K : nat := 4.

(** ** [ingest.py]: [DocumentIngestor] *)

Record DocumentIngestor : Type := mkIngestor {
  ing_agent_type : string;
  ing_documents_path : string;
  ing_vectorstore_path : string;
  ing_chunk_size : nat;
  ing_chunk_overlap : nat;
  ing_separators : list string;
  ing_vectorstore : option Index
}.

Definition set_vectorstore (self : DocumentIngestor) (v : Index) : DocumentIngestor :=
  mkIngestor (ing_agent_type self) (ing_documents_path self)
    (ing_vectorstore_path self) (ing_chunk_size self) (ing_chunk_overlap self)
    (ing_separators self) (Some v).

Definition section_rule : string :=
  nl +:+ "================================================================================" +:+ nl.

Definition sop_separators : list string :=
  [section_rule; nl +:+ "## "; nl +:+ "### "; nl +:+ nl; nl; " "; EmptyString].

Definition hc_separators : list string :=
  [nl +:+ nl; nl; ". "; " "; EmptyString].

(** [DocumentIngestor.__init__]: the attributes it assigns. *)
Definition DocumentIngestor_init (agent_type : string) : DocumentIngestor :=
  if String.eqb agent_type "SOP"
  then mkIngestor agent_type SOP_DOCUMENTS_PATH SOP_VECTORSTORE_PATH
         SOP_CHUNK_SIZE SOP_CHUNK_OVERLAP sop_separators None
  else mkIngestor agent_type HC_DOCUMENTS_PATH HC_VECTORSTORE_PATH
         HC_CHUNK_SIZE HC_CHUNK_OVERLAP hc_separators None.

(** [DocumentIngestor(agent_type)]: [__init__] also builds the embeddings
    client; when that raises there is no object. *)
Definition DocumentIngestor_new (agent_type : string) : M World DocumentIngestor :=
  new_client (AzureOpenAIEmbeddings_new env);;
  mret (DocumentIngestor_init agent_type).

(** [DocumentIngestor._extract_metadata] *)
Definition _extract_metadata (content : string) (file_path : string)
  : gmap string pyval :=
  let metadata : gmap string pyval :=
    <["filename" := VStr (Path.name file_path)]>
      (<["source" := VStr file_path]> ∅) in
  let metadata :=
    match Re.search Re.doc_id_re content with
    | Some g => <["document_id" := VStr g]> metadata
    | None => metadata
    end in
  let metadata :=
    match Re.search Re.title_re content with
    | Some g => <["title" := VStr (strip g)]> metadata
    | None => metadata
    end in
  let metadata :=
    match Re.search Re.version_re content with
    | Some g => <["version" := VStr g]> metadata
    | None => metadata
    end in
  let doc_id := pystr (dict_get metadata "document_id" (VStr EmptyString)) in
  if str_in "SOP" doc_id
  then <["doc_type" := VStr "Standard Operating Procedure"]> metadata
  else if str_in "WI" doc_id
  then <["doc_type" := VStr "Work Instruction"]> metadata
  else if str_in "QA" doc_id
  then <["doc_type" := VStr "Quality Assurance Document"]> metadata
  else <["doc_type" := VStr "Document"]> metadata.

Definition file_bytes (path : string) (d : FileData) : M World string :=
  match d with
  | Bytes b => mret b
  | _ => raise (UpstreamError ("cannot read as a document: " +:+ path))
  end.

(** [DocumentIngestor.load_document] *)
Definition load_document (self : DocumentIngestor) (file_path : string)
  : M World (list Document) :=
  let file_extension := lower (Path.splitext_ext file_path) in
  if String.eqb file_extension ".pdf" then
    b ← read_file (EvLoadDocument file_path) file_path ≫= file_bytes file_path;
    lift_result (pdf_load env file_path b)
  else if String.eqb file_extension ".docx" || String.eqb file_extension ".doc" then
    b ← read_file (EvLoadDocument file_path) file_path ≫= file_bytes file_path;
    lift_result (docx_load env file_path b)
  else if String.eqb file_extension ".md" then
    content ← read_file (EvReadFile file_path) file_path ≫= file_bytes file_path;
    mret [mkDocument content (_extract_metadata content file_path)]
  else raise (ValueError ("Unsupported file type: " +:+ file_extension)).

(** Appends to [documents] what [body] loads; a failure is printed and
    the file skipped ([try ... except Exception as e: print(...)]). *)
Definition load_or_skip (body : M World (list Document)) (documents : list Document)
  : M World (list Document) :=
  try_except (docs ← body; mret (documents ++ docs)) (fun _ => mret documents).

Fixpoint load_each (load : string -> M World (list Document)) (files : list string)
    (documents : list Document) : M World (list Document) :=
  match files with
  | [] => mret documents
  | f :: rest => load_or_skip (load f) documents ≫= load_each load rest
  end.

(** [DocumentIngestor.load_documents_from_folder] *)
Definition load_documents_from_folder (self : DocumentIngestor)
  : M World (list Document) :=
  w ← get_state;
  if String.eqb (ing_agent_type self) "SOP" then
    let md_files := glob env (fs w) (ing_documents_path self) "*.md" in
    load_each
      (fun md_file =>
         content ← read_file (EvReadFile md_file) md_file ≫= file_bytes md_file;
         mret [mkDocument content (_extract_metadata content md_file)])
      md_files []
  else
    let files :=
      flat_map (glob env (fs w) (ing_documents_path self)) ["*.pdf"; "*.docx"; "*.doc"] in
    load_each (load_document self) files [].

(** [TextSplitter.split_documents]: every chunk of a document carries a
    copy of that document's metadata. *)
Definition split_documents (self : DocumentIngestor) (documents : list Document)
  : list Document :=
  flat_map
    (fun d =>
       map (fun c => mkDocument c (metadata d))
         (split_text env (ing_chunk_size self) (ing_chunk_overlap self)
            (ing_separators self) (page_content d)))
    documents.

(** [DocumentIngestor.chunk_documents] *)
Definition chunk_documents (self : DocumentIngestor) (documents : list Document)
  : list Document :=
  let chunks := split_documents self documents in
  imap (fun i chunk =>
          mkDocument (page_content chunk)
            (<["chunk_id" := VInt (Z.of_nat i)]> (metadata chunk)))
       chunks.

(** [DocumentIngestor.create_vectorstore] *)
Definition create_vectorstore (self : DocumentIngestor) (chunks : list Document)
  : M World DocumentIngestor :=
  v ← FAISS_from_documents chunks;
  mret (set_vectorstore self v).

(** [DocumentIngestor.save_vectorstore] *)
Definition save_vectorstore (self : DocumentIngestor) (save_path : option string)
  : M World unit :=
  let save_path := default (ing_vectorstore_path self) save_path in
  match ing_vectorstore self with
  | Some v =>
      match Path.parent save_path with
      | Some d => makedirs d
      | None => mret tt
      end;;
      FAISS_save_local v save_path
  | None => mret tt
  end.

(** [DocumentIngestor.load_vectorstore] *)
Definition load_vectorstore (self : DocumentIngestor) (load_path : option string)
  : M World DocumentIngestor :=
  let load_path := default (ing_vectorstore_path self) load_path in
  v ← FAISS_load_local load_path;
  mret (set_vectorstore self v).

(** [DocumentIngestor.process_document]: load, chunk, embed and save. *)
Definition process_document (self : DocumentIngestor) (file_path : string)
    (save_path : option string) : M World nat :=
  documents ← load_document self file_path;
  let chunks := chunk_documents self documents in
  self ← create_vectorstore self chunks;
  let save_path := default (ing_vectorstore_path self) save_path in
  save_vectorstore self (Some save_path);;
  mret (length chunks).

(** [DocumentIngestor.process_folder] *)
Definition process_folder (self : DocumentIngestor) : M World unit :=
  documents ← load_documents_from_folder self;
  match documents with
  | [] => mret tt
  | _ =>
      let chunks := chunk_documents self documents in
      found ← path_exists (ing_vectorstore_path self);
      (if found : bool then rmtree (ing_vectorstore_path self) else mret tt);;
      self ← create_vectorstore self chunks;
      save_vectorstore self None
  end.

(** ** [prompts.py]

    [SOP_SYSTEM_PROMPT] is passed on to the chat model as it is; its text
    plays no part below.  [str.format] on the response templates puts the
    two arguments in their places. *)

Variable SOP_SYSTEM_PROMPT : string.

Definition SOP_RESPONSE_TEMPLATE_format (context query : string) : string :=
  "Answer strictly following SOP-style rules." +:+ nl +:+ nl
  +:+ "Context:" +:+ nl +:+ context +:+ nl +:+ nl
  +:+ "Question:" +:+ nl +:+ query +:+ nl +:+ nl
  +:+ "Answer:" +:+ nl.

Definition HC_RESPONSE_TEMPLATE_format (context question : string) : string :=
  "Answer based on PT Bio Farma's HR policies and Employee Manual." +:+ nl +:+ nl
  +:+ "Context from Employee Manual:" +:+ nl +:+ context +:+ nl +:+ nl
  +:+ "Employee Question: " +:+ question +:+ nl +:+ nl
  +:+ "Answer:" +:+ nl.

(** ** [agents.py] *)

(** The dictionary [query] returns. *)
Record QueryResult : Type := mkQueryResult {
  answer : string;
  sources : list (gmap string pyval);
  chunks : nat
}.

(** One block of [BaseAgent._format_context], for the [i]-th document. *)
Definition context_part (i : nat) (doc : Document) : string :=
  let doc_id := dict_get (metadata doc) "document_id" (VStr "Unknown") in
  let title := dict_get (metadata doc) "title" (VStr "Unknown") in
  nl +:+ "[Source " +:+ pystr (VInt (Z.of_nat i)) +:+ ": " +:+ pystr doc_id +:+ "]" +:+ nl
  +:+ pystr title +:+ nl +:+ nl
  +:+ page_content doc +:+ nl +:+ nl
  +:+ "---".

(** [BaseAgent._format_context] *)
Definition _format_context (docs : list Document) : string :=
  Py.join nl (imap (fun i doc => context_part (S i) doc) docs).

(** The dictionary appended by [BaseAgent._extract_sources]. *)
Definition source_entry (doc : Document) : gmap string pyval :=
  <["document_id" := dict_get (metadata doc) "document_id" (VStr "Unknown")]>
  (<["title" := dict_get (metadata doc) "title" (VStr "Unknown")]>
  (<["doc_type" := dict_get (metadata doc) "doc_type" (VStr "Document")]>
  (<["filename" := dict_get (metadata doc) "filename" (VStr "Unknown")]> ∅))).

(** One turn of the loop of [_extract_sources] on [(sources, seen)]. *)
Definition extract_step (acc : list (gmap string pyval) * gset pyval) (doc : Document)
  : list (gmap string pyval) * gset pyval :=
  let doc_id := dict_get (metadata doc) "document_id" (VStr "Unknown") in
  if decide (doc_id ∈ acc.2) then acc
  else (acc.1 ++ [source_entry doc], {[doc_id]} ∪ acc.2).

(** [BaseAgent._extract_sources] *)
Definition _extract_sources (docs : list Document) : list (gmap string pyval) :=
  (foldl extract_step ([], ∅) docs).1.

(** [BaseAgent.__init__]: the chat client, then the embeddings client. *)
Definition BaseAgent_init : M World unit :=
  new_client (AzureChatOpenAI_new env);;
  new_client (AzureOpenAIEmbeddings_new env).

(** *** [SOPAgent] *)

Record SOPAgent : Type := mkSOPAgent {
  sop_vectorstore : Index
}.

(** [SOPAgent._load_vectorstore] *)
Definition SOP_load_vectorstore : M World Index :=
  let vectorstore_path := SOP_VECTORSTORE_PATH in
  found ← path_exists vectorstore_path;
  if found : bool then FAISS_load_local vectorstore_path
  else raise (FileNotFoundError
                ("SOP vector store not found at " +:+ vectorstore_path +:+ nl
                 +:+ "Please run: python ingest_sop.py")).

(** [SOPAgent.__init__]: [BaseAgent.__init__], then the index. *)
Definition SOPAgent_init : M World SOPAgent :=
  BaseAgent_init;;
  v ← SOP_load_vectorstore; mret (mkSOPAgent v).

(** [SOPAgent._generate_answer] *)
Definition SOP_generate_answer (question context : string) : M World string :=
  let prompt := SOP_RESPONSE_TEMPLATE_format context question in
  let messages := [(System, SOP_SYSTEM_PROMPT); (Human, prompt)] in
  log (EvChat messages);;
  lift_result (llm_invoke env messages).

(** [SOPAgent.query] *)
Definition SOP_query (self : SOPAgent) (question : string) : M World QueryResult :=
  log (EvSearch question SOP_TOP_K);;
  docs_with_scores ←
    lift_result (similarity_search_with_score env (sop_vectorstore self) question SOP_TOP_K);
  match docs_with_scores with
  | [] =>
      mret (mkQueryResult ("No relevant SOP information found for: " +:+ question) [] 0)
  | _ =>
      let docs := map fst docs_with_scores in
      let context := _format_context docs in
      answer ← SOP_generate_answer question context;
      let sources := _extract_sources docs in
      mret (mkQueryResult answer sources (length docs))
  end.

(** *** [HCAgent] *)

(** The [RetrievalQA] chain of [create_qa_chain]: a retriever (a store and
    its [k]) in front of the chat model. *)
Record QAChain : Type := mkQAChain {
  chain_store : Index;
  chain_k : nat
}.

Record HCAgent : Type := mkHCAgent {
  hc_vectorstore_path : string;
  hc_vectorstore : option Index;
  hc_retriever : option (Index * nat);
  hc_qa_chain : option QAChain
}.

(** [HCAgent.__init__]: the attributes it assigns once
    [super().__init__("HC")] has returned; an empty path counts as none
    ([vectorstore_path or settings.HC_VECTORSTORE_PATH]). *)
Definition HCAgent_init (vectorstore_path : option string) : HCAgent :=
  mkHCAgent match vectorstore_path with
            | Some (String c p) => String c p
            | Some EmptyString | None => HC_VECTORSTORE_PATH
            end
    None None None.

(** [HCAgent(vectorstore_path)]: [BaseAgent.__init__] builds the two
    clients first; when that raises there is no object. *)
Definition HCAgent_new (vectorstore_path : option string) : M World HCAgent :=
  BaseAgent_init;;
  mret (HCAgent_init vectorstore_path).

(** Methods that assign to attributes of [self] run on the pair of the
    world and the object. *)
Definition on_world {O A} (c : M World A) : M (World * O) A :=
  fun s => let '(r, w) := c s.1 in (r, (w, s.2)).

Definition get_self {O} : M (World * O) O := fun s => (inr s.2, s).
Definition set_self {O} (o : O) : M (World * O) unit := fun s => (inr tt, (s.1, o)).

(** [HCAgent.load_vectorstore] *)
Definition HC_load_vectorstore : M (World * HCAgent) unit :=
  self ← get_self;
  let vectorstore_path := hc_vectorstore_path self in
  found ← on_world (path_exists vectorstore_path);
  if found : bool then
    v ← on_world (FAISS_load_local vectorstore_path);
    set_self (mkHCAgent (hc_vectorstore_path self) (Some v) (Some (v, HC_TOP_K))
                (hc_qa_chain self))
  else raise (FileNotFoundError
                ("HC vector store not found at " +:+ vectorstore_path +:+ nl
                 +:+ "Please upload and process HR documents first")).

(** [HCAgent.create_qa_chain] *)
Definition HC_create_qa_chain : M (World * HCAgent) unit :=
  self ← get_self;
  match hc_retriever self with
  | Some (v, k) =>
      set_self (mkHCAgent (hc_vectorstore_path self) (hc_vectorstore self)
                  (hc_retriever self) (Some (mkQAChain v k)))
  | None => raise (RuntimeError "'HCAgent' object has no attribute 'retriever'")
  end.

(** [HCAgent.initialize] *)
Definition HC_initialize : M (World * HCAgent) unit :=
  HC_load_vectorstore;; HC_create_qa_chain.

(** [RetrievalQA.invoke] with [chain_type="stuff"] (langchain): the
    retrieved texts are joined by blank lines into the prompt, the chat
    model is called once, and the retrieved documents are returned with
    its answer. *)
Definition RetrievalQA_invoke (chain : QAChain) (query : string)
  : M World (string * list Document) :=
  log (EvSearch query (chain_k chain));;
  found ← lift_result
            (similarity_search_with_score env (chain_store chain) query (chain_k chain));
  let docs := map fst found in
  let context := Py.join (nl +:+ nl) (map page_content docs) in
  let messages := [(Human, HC_RESPONSE_TEMPLATE_format context query)] in
  log (EvChat messages);;
  result ← lift_result (llm_invoke env messages);
  mret (result, docs).

(** The dictionary [HCAgent.query] builds for a source document. *)
Definition hc_source_entry (doc : Document) : gmap string pyval :=
  <["content" := VStr (page_content doc)]> (source_entry doc).

(** [HCAgent.query] *)
Definition HC_query (self : HCAgent) (question : string) : M World QueryResult :=
  match hc_qa_chain self with
  | None => raise (ValueError "HC Agent not initialized. Call initialize() first.")
  | Some qa_chain =>
      result ← RetrievalQA_invoke qa_chain question;
      let sources := map hc_source_entry result.2 in
      mret (mkQueryResult result.1 sources (length sources))
  end.

(** ** [api.py] *)

(** The process: the world and the two module-level agent variables. *)
Record App : Type := mkApp {
  world : World;
  sop_agent : option SOPAgent;
  hc_agent : option HCAgent
}.

Record UploadFile : Type := mkUploadFile {
  filename : string;
  file : string
}.

Record AnswerResponse : Type := mkAnswerResponse {
  resp_answer : string;
  resp_sources : list (gmap string pyval);
  resp_chunks : nat;
  resp_agent : string
}.

Record StatusResponse : Type := mkStatusResponse {
  status : string;
  message : string;
  chunks_created : nat
}.

(** A computation on the world, run inside the process. *)
Definition in_app {A} (c : M World A) : M App A :=
  fun app => let '(r, w) := c (world app) in (r, mkApp w (sop_agent app) (hc_agent app)).

Definition set_sop_agent (a : SOPAgent) : M App unit :=
  modify (fun app => mkApp (world app) (Some a) (hc_agent app)).

Definition set_hc_agent (a : HCAgent) : M App unit :=
  modify (fun app => mkApp (world app) (sop_agent app) (Some a)).

(** A method call [hc_agent.m()] on the object the global names. *)
Definition on_hc_agent {A} (m : M (World * HCAgent) A) : M App A :=
  fun app =>
    match hc_agent app with
    | Some self =>
        let '(r, s) := m (world app, self) in
        (r, mkApp s.1 (sop_agent app) (Some s.2))
    | None => (inl (RuntimeError "'NoneType' object has no attribute"), app)
    end.

(** [bool(os.getenv(name))] *)
Definition getenv_set (name : string) : M App bool :=
  app ← get_state;
  mret match environ (world app) !! name with
       | Some EmptyString | None => false
       | Some _ => true
       end.

(** The two [try] blocks of [startup_event] that build the agents. *)
Definition startup_event : M App unit :=
  try_except
    (found ← in_app (path_exists SOP_VECTORSTORE_PATH);
     if found : bool then a ← in_app SOPAgent_init; set_sop_agent a
     else mret tt)
    (fun _ => mret tt);;
  try_except
    (found ← in_app (path_exists HC_VECTORSTORE_PATH);
     if found : bool then
       a ← in_app (HCAgent_new None);
       set_hc_agent a;;
       on_hc_agent HC_initialize
     else mret tt)
    (fun _ => mret tt).

(** [POST /sop/ask] *)
Definition ask_sop_question (question : string) : M App AnswerResponse :=
  app ← get_state;
  match sop_agent app with
  | None =>
      raise (HTTPException 400
               "SOP Agent not initialized. Please run: python ingest_unified.py sop")
  | Some agent =>
      try_except
        (result ← in_app (SOP_query agent question);
         mret (mkAnswerResponse (answer result) (sources result) (chunks result)
                 "SOP Assistant"))
        (fun e => raise (HTTPException 500 (exn_str e)))
  end.

(** [POST /hc/upload] *)
Definition upload_hc_document (f : UploadFile) : M App StatusResponse :=
  if negb (endswith_any (filename f) [".pdf"; ".docx"; ".doc"]) then
    raise (HTTPException 400 "Only PDF and DOCX files are supported")
  else
    have_endpoint ← getenv_set "AZURE_OPENAI_ENDPOINT";
    if negb have_endpoint then
      raise (HTTPException 400 "Azure credentials not found. Please create a .env file.")
    else
      try_except
        (let upload_dir := HC_UPLOAD_DIR in
         in_app (makedirs upload_dir);;
         let file_path := Path.join upload_dir (filename f) in
         in_app (write_file (EvWriteFile file_path) file_path (Bytes (file f)));;
         ingestor ← in_app (DocumentIngestor_new "HC");
         chunks_created ←
           in_app (process_document ingestor file_path (Some HC_VECTORSTORE_PATH));
         a ← in_app (HCAgent_new None);
         set_hc_agent a;;
         on_hc_agent HC_initialize;;
         mret (mkStatusResponse "success"
                 ("Document processed successfully. Created "
                  +:+ pystr (VInt (Z.of_nat chunks_created)) +:+ " chunks.")
                 chunks_created))
        (fun e => raise (HTTPException 500 (exn_str e))).

(** [POST /hc/ask] *)
Definition ask_hc_question (question : string) : M App AnswerResponse :=
  app ← get_state;
  match hc_agent app with
  | None =>
      raise (HTTPException 400
               "HC Agent not initialized. Please upload a document first.")
  | Some agent =>
      try_except
        (result ← in_app (HC_query agent question);
         mret (mkAnswerResponse (answer result) (sources result) (chunks result)
                 "Human Capital Assistant"))
        (fun e => raise (HTTPException 500 (exn_str e)))
  end.

Record SystemStatus : Type := mkSystemStatus {
  sop_agent_ready : bool;
  hc_agent_ready : bool;
  sop_index_exists : bool;
  hc_index_exists : bool;
  env_loaded : bool;
  azure_endpoint : string;
  embedding_model : string;
  chat_model : string
}.

(** [os.getenv(name, fallback)] *)
Definition getenv_or (name fallback : string) : M App string :=
  app ← get_state; mret (default fallback (environ (world app) !! name)).

(** [GET /status] *)
Definition get_status : M App SystemStatus :=
  env_loaded ← getenv_set "AZURE_OPENAI_ENDPOINT";
  app ← get_state;
  sop_index ← in_app (path_exists SOP_VECTORSTORE_PATH);
  hc_index ← in_app (path_exists HC_VECTORSTORE_PATH);
  endpoint ← getenv_or "AZURE_OPENAI_ENDPOINT" "Not set";
  embedding ← getenv_or "AZURE_EMBEDDING_DEPLOYMENT" "Not set";
  chat ← getenv_or "AZURE_CHAT_DEPLOYMENT" "Not set";
  mret (mkSystemStatus
          (match sop_agent app with Some _ => true | None => false end)
          (match hc_agent app with Some _ => true | None => false end)
          sop_index hc_index env_loaded endpoint embedding chat).


(** ** [config.py]: validation and the working directories *)

(** [Settings.validate] *)
Definition validate (cls : Settings) : exn + unit :=
  if String.eqb (AZURE_OPENAI_ENDPOINT cls) EmptyString then
    inl (ValueError "AZURE_OPENAI_ENDPOINT not set in .env file")
  else if String.eqb (AZURE_OPENAI_KEY cls) EmptyString then
    inl (ValueError "AZURE_OPENAI_KEY not set in .env file")
  else if String.eqb (AZURE_EMBEDDING_DEPLOYMENT cls) EmptyString then
    inl (ValueError "AZURE_EMBEDDING_DEPLOYMENT not set in .env file")
  else if String.eqb (AZURE_CHAT_DEPLOYMENT cls) EmptyString then
    inl (ValueError "AZURE_CHAT_DEPLOYMENT not set in .env file")
  else inr tt.

(** [Path(p).parent.mkdir(parents=True, exist_ok=True)] *)
Definition make_parent (p : string) : M World unit :=
  match Path.parent p with
  | Some d => makedirs d
  | None => mret tt
  end.

(** [Settings.create_directories] *)
Definition create_directories : M World unit :=
  makedirs SOP_DOCUMENTS_PATH;;
  makedirs HC_DOCUMENTS_PATH;;
  make_parent SOP_VECTORSTORE_PATH;;
  make_parent HC_VECTORSTORE_PATH;;
  makedirs HC_UPLOAD_DIR.

End Model.

Arguments Env : clear implicits.
Arguments World : clear implicits.
Arguments App : clear implicits.

(** * Vocabulary of the properties *)

(** The two labelled lines of the metadata example. *)
Definition sample_head : string :=
  "Document ID: SOP-042" +:+ nl +:+ "Title: Vial Capping" +:+ nl.

(** The identifier a chunk is cited under. *)
Definition doc_id_of (doc : Document) : pyval :=
  dict_get (metadata doc) "document_id" (VStr "Unknown").

(** The identifier a citation carries. *)
Definition source_id (source : gmap string pyval) : option pyval :=
  source !! "document_id".

(** De-duplication by identifier in words: a chunk is kept, and the later
    chunks with its identifier are dropped. *)
Fixpoint first_by_id (docs : list Document) : list Document :=
  match docs with
  | [] => []
  | d :: rest => d :: filter (fun x => doc_id_of x ≠ doc_id_of d) (first_by_id rest)
  end.


(** Sample chunks: two of document A, one of document B, and two from
    files that state no identifier. *)
Definition chunk_of (text : string) (fields : list (string * string)) : Document :=
  mkDocument text (list_to_map (map (fun kv => (kv.1, VStr kv.2)) fields)).

Definition chunk_A1 : Document :=
  chunk_of "Cap the vial." [("document_id", "SOP-A"); ("title", "Capping"); ("filename", "a.md")].
Definition chunk_B : Document :=
  chunk_of "Label the vial." [("document_id", "SOP-B"); ("title", "Labelling"); ("filename", "b.md")].
Definition chunk_A2 : Document :=
  chunk_of "Torque is 5 Nm." [("document_id", "SOP-A"); ("title", "Capping"); ("filename", "a.md")].
Definition chunk_leave : Document :=
  chunk_of "Annual leave is twelve days." [("title", "Leave"); ("filename", "leave.pdf")].
Definition chunk_travel : Document :=
  chunk_of "Travel is reimbursed." [("title", "Travel"); ("filename", "travel.pdf")].


(** The world after further calls were logged. *)
Definition logged {Vec : Type} (w : World Vec) (events : list Event) : World Vec :=
  mkWorld (fs w) (environ w) (trace w ++ events).

(** The messages the two agents send to the chat model. *)
Definition sop_messages (system_prompt question : string) (docs : list Document)
  : list (Role * string) :=
  [(System, system_prompt);
   (Human, SOP_RESPONSE_TEMPLATE_format (_format_context docs) question)].

Definition hc_messages (question : string) (docs : list Document) : list (Role * string) :=
  [(Human, HC_RESPONSE_TEMPLATE_format
             (Py.join (nl +:+ nl) (map page_content docs)) question)].

(** The suffix a pattern such as [*.md] asks for. *)
Definition lstrip_star (pattern : string) : string :=
  match pattern with
  | String c rest => if Ascii.eqb c (ascii_of_nat 42) then rest else pattern
  | EmptyString => EmptyString
  end.

(** A test double for the collaborators: loaders that return the file as
    one page, a splitter that returns the text as one chunk, unit vectors
    and scores, a retrieval that returns what [retrieve] picks among the
    stored chunks, a chat model with a fixed reply, and a directory
    listing by suffix.  [fault] makes chosen calls fail. *)
Definition env_double (retrieve : nat -> list Document -> list Document)
    (reply : string) (fault : Event -> option exn) : Env unit unit :=
  {| pdf_load := fun path b => inr [mkDocument b {["source" := VStr path]}];
     docx_load := fun path b => inr [mkDocument b {["source" := VStr path]}];
     split_text := fun _ _ _ text => [text];
     embed_documents :=
       fun texts =>
         match fault (EvEmbed texts) with
         | Some e => inl e
         | None => inr (map (fun _ => tt) texts)
         end;
     similarity_search_with_score :=
       fun index question k =>
         match fault (EvSearch question k) with
         | Some e => inl e
         | None => inr (map (fun d => (d, tt)) (retrieve k (map snd index)))
         end;
     llm_invoke :=
       fun messages =>
         match fault (EvChat messages) with
         | Some e => inl e
         | None => inr reply
         end;
     glob :=
       fun files dir pattern =>
         filter (fun path => Path.parent path = Some dir
                             ∧ endswith path (lstrip_star pattern) = true)
                (map fst (map_to_list files));
     io_fault := fault;
     AzureChatOpenAI_new := fun _ => None;
     AzureOpenAIEmbeddings_new := fun _ => None;
     rmtree_stops := fun _ _ => None |}.

(** Retrieval of the nearest [k] chunks, and a retrieval that finds
    nothing. *)
Definition nearest (k : nat) (docs : list Document) : list Document := take k docs.
Definition nothing (k : nat) (docs : list Document) : list Document := [].

Definition no_fault : Event -> option exn := fun _ => None.

Definition empty_world : World unit := mkWorld ∅ ∅ [].

(** An HC agent whose chain is built, over the given store. *)
Definition hc_ready (store : list (unit * Document)) : HCAgent :=
  mkHCAgent HC_VECTORSTORE_PATH (Some store) (Some (store, HC_TOP_K))
    (Some (mkQAChain store HC_TOP_K)).


Definition store_ABA : list (unit * Document) :=
  [(tt, chunk_A1); (tt, chunk_B); (tt, chunk_A2)].


(** The steps of [upload_hc_document] before the new agent is assigned:
    the upload is saved, the ingestor built, the file loaded, chunked,
    embedded, the index persisted, and the new agent object built. *)
Definition hc_upload_ingest {Vec Score : Type} (env : Env Vec Score) (f : UploadFile)
  : M (App Vec) (nat * HCAgent) :=
  in_app (makedirs env HC_UPLOAD_DIR);;
  in_app (write_file env (EvWriteFile (Path.join HC_UPLOAD_DIR (filename f)))
            (Path.join HC_UPLOAD_DIR (filename f)) (Bytes (file f)));;
  ingestor ← in_app (DocumentIngestor_new env "HC");
  chunks_created ←
    in_app (process_document env ingestor
              (Path.join HC_UPLOAD_DIR (filename f)) (Some HC_VECTORSTORE_PATH));
  a ← in_app (HCAgent_new env None);
  mret (chunks_created, a).

(** A process with credentials and no agent, on an empty disk. *)
Definition configured : gmap string string :=
  {["AZURE_OPENAI_ENDPOINT" := "https://example.openai.azure.com"]}.

Definition app_fresh : App unit := mkApp (mkWorld ∅ configured []) None None.

(** A process whose HC index was built from the leave policy (the index
    folder also holds a file of an earlier index) and whose HC agent is
    ready on it. *)
Definition disk_indexed : gmap string (@Node unit) :=
  list_to_map
    [("data", Dir); ("data/vectorstore", Dir);
     ("data/vectorstore/hc_faiss_index", Dir);
     ("data/vectorstore/hc_faiss_index/index.faiss", File (FaissIndex [tt]));
     ("data/vectorstore/hc_faiss_index/index.pkl", File (Pickle [chunk_leave]));
     ("data/vectorstore/hc_faiss_index/archive.faiss", File (FaissIndex [tt; tt]));
     ("data/HR_Doc", Dir);
     ("data/HR_Doc/travel.pdf", File (Bytes "Travel is reimbursed."))].

Definition app_ready : App unit :=
  mkApp (mkWorld disk_indexed configured []) None (Some (hc_ready [(tt, chunk_leave)])).

Definition travel_upload : UploadFile := mkUploadFile "travel.pdf" "Travel is reimbursed.".

(** A failure of the embedding service, and a failure of the disk when the
    index file is read back. *)
Definition embedding_fails : Event -> option exn :=
  fun ev => match ev with
            | EvEmbed _ => Some (UpstreamError "embedding request failed")
            | _ => None
            end.

Definition index_read_fails : Event -> option exn :=
  fun ev => match ev with
            | EvReadIndex _ => Some (OSError "Input/output error")
            | _ => None
            end.


(** A computation that never calls [shutil.rmtree] and never takes a path
    off the disk; [wof] reads the world out of the state. *)
Definition keeps_disk {Vec S A : Type} (wof : S -> World Vec) (c : M S A) : Prop :=
  forall s r s',
    c s = (r, s') ->
    (exists events,
        trace (wof s') = trace (wof s) ++ events ∧ forall p, EvRmtree p ∉ events)
    ∧ (forall p, is_Some (fs (wof s) !! p) -> is_Some (fs (wof s') !! p)).


(** The category [_extract_metadata] derives from an identifier. *)
Definition category_of (doc_id : string) : string :=
  if str_in "SOP" doc_id then "Standard Operating Procedure"
  else if str_in "WI" doc_id then "Work Instruction"
  else if str_in "QA" doc_id then "Quality Assurance Document"
  else "Document".

(** Every character of [s] is in the class [cls]. *)
Fixpoint all_chars (cls : ascii -> bool) (s : string) : bool :=
  match s with
  | EmptyString => true
  | String c s' => cls c && all_chars cls s'
  end.


(** The loop of a capturing [(c+)], as it is inside [Re.match_at]. *)
Section PlusLoop.

Variable cls : ascii -> bool.
Variable rest : string -> option string.

Fixpoint plus_loop (taken : bool) (s : string) {struct s} : option string :=
  Re.or_else
    match s with
    | String c s' =>
        if cls c then option_map (String c) (plus_loop true s') else None
    | EmptyString => None
    end
    (if taken
     then option_map (fun _ => EmptyString) (rest s)
     else None).

End PlusLoop.


(** The calls a query may make: the search and the chat model. *)
Definition query_event (ev : Event) : Prop :=
  match ev with
  | EvSearch _ _ | EvChat _ => True
  | _ => False
  end.

(** A step that leaves the disk, the environment and the agents as they
    are and logs query calls only. *)
Definition only_queries {Vec : Type} (w w' : World Vec) : Prop :=
  fs w' = fs w
  ∧ environ w' = environ w
  ∧ exists events, trace w' = trace w ++ events ∧ Forall query_event events.


(** The [try] block of [upload_hc_document]. *)
Definition hc_upload_body {Vec Score : Type} (env : Env Vec Score) (f : UploadFile)
  : M (App Vec) StatusResponse :=
  let upload_dir := HC_UPLOAD_DIR in
  in_app (makedirs env upload_dir);;
  let file_path := Path.join upload_dir (filename f) in
  in_app (write_file env (EvWriteFile file_path) file_path (Bytes (file f)));;
  ingestor ← in_app (DocumentIngestor_new env "HC");
  chunks_created ←
    in_app (process_document env ingestor file_path (Some HC_VECTORSTORE_PATH));
  a ← in_app (HCAgent_new env None);
  set_hc_agent a;;
  on_hc_agent (HC_initialize env);;
  mret (mkStatusResponse "success"
          ("Document processed successfully. Created "
           +:+ pystr (VInt (Z.of_nat chunks_created)) +:+ " chunks.")
          chunks_created).

(** An HC agent that is ready on a store. *)
Definition hc_ready_on {Vec : Type} (path : string) (store : list (Vec * Document))
  : HCAgent :=
  mkHCAgent path (Some store) (Some (store, HC_TOP_K)) (Some (mkQAChain store HC_TOP_K)).


(** The two [try] blocks of [startup_event]. *)
Definition startup_sop {Vec Score : Type} (env : Env Vec Score) : M (App Vec) unit :=
  try_except
    (found ← in_app (path_exists SOP_VECTORSTORE_PATH);
     if found : bool then a ← in_app (SOPAgent_init env); set_sop_agent a
     else mret tt)
    (fun _ => mret tt).

Definition startup_hc {Vec Score : Type} (env : Env Vec Score) : M (App Vec) unit :=
  try_except
    (found ← in_app (path_exists HC_VECTORSTORE_PATH);
     if found : bool then
       a ← in_app (HCAgent_new env None);
       set_hc_agent a;;
       on_hc_agent (HC_initialize env)
     else mret tt)
    (fun _ => mret tt).

(** A step that reads the disk and the environment but changes neither. *)
Definition reads_only {Vec : Type} (w w' : World Vec) : Prop :=
  fs w' = fs w ∧ environ w' = environ w.


(** The first two steps of the [try] block of [upload_hc_document]: the
    upload directory is made and the upload written into it. *)
Definition hc_upload_save {Vec Score : Type} (env : Env Vec Score) (f : UploadFile)
  : M (App Vec) unit :=
  in_app (makedirs env HC_UPLOAD_DIR);;
  in_app (write_file env (EvWriteFile (Path.join HC_UPLOAD_DIR (filename f)))
            (Path.join HC_UPLOAD_DIR (filename f)) (Bytes (file f))).

(** The extension [load_document] dispatches on. *)
Definition loader_extension (file_path : string) : string :=
  lower (Path.splitext_ext file_path).

(** The source each document of a list names. *)
Definition sources_of (docs : list Document) : list (option pyval) :=
  map (fun d => metadata d !! "source") docs.


(** The clients of [BaseAgent.__init__] can be built. *)
Definition clients_ok {Vec Score} (env : Env Vec Score) (w : World Vec) : Prop :=
  AzureChatOpenAI_new env (Settings_load (environ w)) = None
  ∧ AzureOpenAIEmbeddings_new env (Settings_load (environ w)) = None.

(** A chunk whose metadata states the identifier "Unknown" itself. *)
Definition chunk_unknown : Document :=
  chunk_of "Draft, not yet numbered."
    [("document_id", "Unknown"); ("title", "Draft"); ("filename", "draft.pdf")].

(** * Properties *)

(** ** Metadata extraction *)

Lemma str_app_cons (c : ascii) (a b : string) : String c a +:+ b = String c (a +:+ b).
Proof. reflexivity. Qed.

Lemma str_app_assoc (a b c : string) : (a +:+ b) +:+ c = a +:+ (b +:+ c).
Proof.
  induction a as [|x a IH]; [reflexivity|]. by rewrite !str_app_cons, IH.
Qed.

Lemma str_app_nil_r (s : string) : s +:+ EmptyString = s.
Proof. induction s as [|c s IH]; [reflexivity|]. by rewrite str_app_cons, IH. Qed.

Lemma str_length_app (a b : string) :
  String.length (a +:+ b) = String.length a + String.length b.
Proof. induction a as [|c a IH]; [done|]. rewrite str_app_cons. simpl. by rewrite IH. Qed.












Lemma doc_type_insert (m : gmap string pyval) (doc_id : string) :
  let metadata :=
    if str_in "SOP" doc_id
    then <["doc_type" := VStr "Standard Operating Procedure"]> m
    else if str_in "WI" doc_id
    then <["doc_type" := VStr "Work Instruction"]> m
    else if str_in "QA" doc_id
    then <["doc_type" := VStr "Quality Assurance Document"]> m
    else <["doc_type" := VStr "Document"]> m in
  metadata !! "doc_type" = Some (VStr (category_of doc_id))
  ∧ forall key, key ≠ "doc_type" -> metadata !! key = m !! key.
Proof.
  unfold category_of.
  destruct (str_in "SOP" doc_id); [|destruct (str_in "WI" doc_id);
    [|destruct (str_in "QA" doc_id)]];
    (split; [apply lookup_insert_eq|by intros key Hkey; apply lookup_insert_ne]).
Qed.

Lemma extract_metadata_lookups (content file_path : string) :
  let metadata := _extract_metadata content file_path in
  metadata !! "source" = Some (VStr file_path)
  ∧ metadata !! "filename" = Some (VStr (Path.name file_path))
  ∧ metadata !! "doc_type"
    = Some (VStr (category_of
                    match metadata !! "document_id" with
                    | Some v => pystr v
                    | None => EmptyString
                    end))
  ∧ metadata !! "document_id" = VStr <$> Re.search Re.doc_id_re content
  ∧ metadata !! "title" = (fun g => VStr (strip g)) <$> Re.search Re.title_re content
  ∧ metadata !! "version" = VStr <$> Re.search Re.version_re content.
Proof.
  unfold _extract_metadata, dict_get.
  destruct (Re.search Re.doc_id_re content) as [id|];
    destruct (Re.search Re.title_re content) as [title|];
    destruct (Re.search Re.version_re content) as [version|];
    simplify_map_eq; cbn [pystr];
    try (match goal with
         | |- context [if str_in "SOP" ?i then <[_:=_]> ?m else _] =>
             destruct (doc_type_insert m i) as [Hdt Hother]
         end;
         rewrite Hdt, !Hother by done; by simplify_map_eq);
    repeat split; reflexivity.
Qed.




(** ** Source citations *)

Lemma source_entry_id (doc : Document) : source_id (source_entry doc) = Some (doc_id_of doc).
Proof. unfold source_id, source_entry. by rewrite lookup_insert_eq. Qed.

Lemma hc_source_entry_id (doc : Document) :
  source_id (hc_source_entry doc) = Some (doc_id_of doc).
Proof.
  unfold source_id, hc_source_entry, source_entry.
  rewrite lookup_insert_ne by done. by rewrite lookup_insert_eq.
Qed.

Lemma extract_step_sources (docs : list Document) :
  forall sources seen,
    (foldl extract_step (sources, seen) docs).1
    = sources ++ (foldl extract_step ([], seen) docs).1.
Proof.
  induction docs as [|d docs IH]; intros sources seen; simpl.
  - by rewrite app_nil_r.
  - unfold extract_step at 2 4; simpl. fold (doc_id_of d).
    destruct (decide (doc_id_of d ∈ seen)); [apply IH|].
    rewrite (IH (sources ++ _)), (IH [source_entry d]). by rewrite <- app_assoc.
Qed.

(** The loop with a [seen] set keeps what [first_by_id] keeps, among the
    chunks whose identifier was not seen before the loop. *)
Lemma extract_loop_first_by_id (docs : list Document) :
  forall seen : gset pyval,
    (foldl extract_step ([], seen) docs).1
    = map source_entry (filter (fun x => doc_id_of x ∉ seen) (first_by_id docs)).
Proof.
  induction docs as [|d docs IH]; intros seen; [reflexivity|].
  cbn [foldl first_by_id]. unfold extract_step at 2; simpl. fold (doc_id_of d).
  rewrite filter_cons. destruct (decide (doc_id_of d ∈ seen)) as [Hin|Hout].
  - rewrite decide_False by (intros H; by apply H).
    rewrite IH. f_equal. rewrite list_filter_filter.
    apply list_filter_iff. intros x; split; [|tauto].
    intros Hx; split; [done|]. intros Heq. apply Hx. by rewrite Heq.
  - rewrite decide_True by done.
    rewrite extract_step_sources, IH. simpl. f_equal. f_equal.
    rewrite list_filter_filter. apply list_filter_iff. intros x.
    rewrite elem_of_union, elem_of_singleton. tauto.
Qed.

Lemma filter_all {A} (P : A -> Prop) `{!forall x, Decision (P x)} (l : list A) :
  (forall x, P x) -> filter P l = l.
Proof.
  intros HP. induction l as [|x l IH]; [done|].
  by rewrite filter_cons_True, IH.
Qed.

Lemma filter_none {A} (P : A -> Prop) `{!forall x, Decision (P x)} (l : list A) :
  (forall x, ¬ P x) -> filter P l = [].
Proof.
  intros HP. induction l as [|x l IH]; [done|].
  by rewrite filter_cons_False.
Qed.

Lemma extract_sources_first_by_id (docs : list Document) :
  _extract_sources docs = map source_entry (first_by_id docs).
Proof.
  unfold _extract_sources. rewrite extract_loop_first_by_id. f_equal.
  apply filter_all. set_solver.
Qed.

Lemma first_by_id_sublist (docs : list Document) : sublist (first_by_id docs) docs.
Proof.
  induction docs as [|d docs IH]; simpl; [constructor|].
  apply sublist_skip. etrans; [apply sublist_filter|done].
Qed.

Lemma first_by_id_NoDup (docs : list Document) : NoDup (map doc_id_of (first_by_id docs)).
Proof.
  induction docs as [|d docs IH]; simpl; [constructor|].
  apply NoDup_cons; split.
  - rewrite list_elem_of_fmap. intros (x & Hx & Hin).
    apply list_elem_of_filter in Hin as [Hne _]. by apply Hne.
  - eapply sublist_NoDup; [exact IH|]. apply fmap_sublist, sublist_filter.
Qed.

(** Among the kept chunks, an identifier belongs to the first chunk that
    carries it. *)
Lemma first_by_id_first (l1 l2 : list Document) (d : Document) :
  (forall x, x ∈ l1 -> doc_id_of x ≠ doc_id_of d) ->
  filter (fun x => doc_id_of x = doc_id_of d) (first_by_id (l1 ++ d :: l2)) = [d].
Proof.
  induction l1 as [|y l1 IH]; intros Hl1; simpl.
  - rewrite filter_cons_True by done. f_equal.
    rewrite list_filter_filter. apply filter_none. by intros x [H1 H2].
  - rewrite filter_cons_False by (apply Hl1; left).
    rewrite list_filter_filter_l; [apply IH; intros x Hx; apply Hl1; by right|].
    intros x Hx. rewrite Hx. intros Heq. by apply (Hl1 y); [left|].
Qed.

Lemma filter_fmap {A B} (f : A -> B) (P : B -> Prop) `{!forall y, Decision (P y)}
    (l : list A) :
  filter P (map f l) = map f (filter (fun x => P (f x)) l).
Proof.
  induction l as [|x l IH]; [done|]. simpl.
  rewrite !filter_cons, IH. by destruct (decide (P (f x))).
Qed.

Lemma doc_id_of_default (doc : Document) :
  metadata doc !! "document_id" = None -> doc_id_of doc = VStr "Unknown".
Proof. unfold doc_id_of, dict_get. by intros ->. Qed.

(** C10. Chunks whose metadata has no [document_id] all get the identifier
    "Unknown".  In the extracted sources the chunks cited under "Unknown",
    those without identifier and those whose identifier is literally
    "Unknown", are one entry: the one of the first such chunk, with that
    chunk's title, type and filename. *)
Theorem unidentified_chunks_share_one_citation
    (l1 l2 : list Document) (d : Document) :
  doc_id_of d = VStr "Unknown" ->
  (forall x, x ∈ l1 -> doc_id_of x ≠ VStr "Unknown") ->
  (forall d', metadata d' !! "document_id" = None -> doc_id_of d' = VStr "Unknown")
  ∧ filter (fun s => source_id s = Some (VStr "Unknown")) (_extract_sources (l1 ++ d :: l2))
    = [source_entry d]
  ∧ source_entry d !! "document_id" = Some (VStr "Unknown")
  ∧ source_entry d !! "title" = Some (dict_get (metadata d) "title" (VStr "Unknown"))
  ∧ source_entry d !! "doc_type" = Some (dict_get (metadata d) "doc_type" (VStr "Document"))
  ∧ source_entry d !! "filename" = Some (dict_get (metadata d) "filename" (VStr "Unknown")).
Proof.
  intros Hid Hl1.
  split; [exact doc_id_of_default|]. split.
  - rewrite extract_sources_first_by_id, filter_fmap.
    rewrite (list_filter_iff _ (fun x => doc_id_of x = doc_id_of d)).
    + rewrite first_by_id_first; [done|]. intros x Hx. rewrite Hid. by apply Hl1.
    + intros x. rewrite source_entry_id, Hid. split; [by intros [= ->]|by intros ->].
  - fold (source_id (source_entry d)). rewrite source_entry_id, Hid.
    unfold source_entry. by simplify_map_eq.
Qed.

Lemma unidentified_chunks_share_one_citation_witness :
  filter (fun s => source_id s = Some (VStr "Unknown"))
    (_extract_sources ([chunk_A1] ++ chunk_leave :: [chunk_B; chunk_travel]))
  = [source_entry chunk_leave]
  ∧ source_entry chunk_leave !! "title" = Some (VStr "Leave")
  ∧ source_entry chunk_leave !! "filename" = Some (VStr "leave.pdf").
Proof.
  destruct (unidentified_chunks_share_one_citation
              [chunk_A1] [chunk_B; chunk_travel] chunk_leave)
    as (_ & Hone & _ & Htitle & _ & Hfile).
  - reflexivity.
  - intros x Hx. apply list_elem_of_singleton in Hx as ->. vm_compute. discriminate.
  - split; [exact Hone|]. split; [exact Htitle|exact Hfile].
Defined.

(** The one entry under "Unknown" need not come from a chunk without
    identifier: here the two chunks without [document_id] are cited under
    the title and the file of an earlier chunk that states the identifier
    "Unknown". *)
Lemma explicit_unknown_takes_the_citation :
  metadata chunk_unknown !! "document_id" = Some (VStr "Unknown")
  ∧ metadata chunk_leave !! "document_id" = None
  ∧ metadata chunk_travel !! "document_id" = None
  ∧ filter (fun s => source_id s = Some (VStr "Unknown"))
      (_extract_sources [chunk_unknown; chunk_leave; chunk_travel])
    = [source_entry chunk_unknown]
  ∧ source_entry chunk_unknown !! "title" = Some (VStr "Draft")
  ∧ source_entry chunk_unknown !! "filename" = Some (VStr "draft.pdf")
  ∧ source_entry chunk_leave !! "title" = Some (VStr "Leave").
Proof. vm_compute. repeat split; reflexivity. Qed.

(** ** Answering a question *)

Section Query.

Context {Vec Score : Type} (env : Env Vec Score) (SOP_SYSTEM_PROMPT : string).

Lemma SOP_query_nothing_found (self : SOPAgent) (question : string) (w : World Vec) :
  similarity_search_with_score env (sop_vectorstore self) question SOP_TOP_K = inr [] ->
  SOP_query env SOP_SYSTEM_PROMPT self question w
  = (inr (mkQueryResult ("No relevant SOP information found for: " +:+ question) [] 0),
     logged w [EvSearch question SOP_TOP_K]).
Proof.
  intros Hsearch. unfold SOP_query, mbind, M_bind, log, modify, lift_result.
  simpl. by rewrite Hsearch.
Qed.

Lemma SOP_query_found (self : SOPAgent) (question : string) (w : World Vec)
    (found : list (Document * Score)) (reply : string) :
  found ≠ [] ->
  similarity_search_with_score env (sop_vectorstore self) question SOP_TOP_K = inr found ->
  llm_invoke env (sop_messages SOP_SYSTEM_PROMPT question (map fst found)) = inr reply ->
  SOP_query env SOP_SYSTEM_PROMPT self question w
  = (inr (mkQueryResult reply (_extract_sources (map fst found)) (length found)),
     logged w [EvSearch question SOP_TOP_K;
               EvChat (sop_messages SOP_SYSTEM_PROMPT question (map fst found))]).
Proof.
  intros Hne Hsearch Hreply.
  unfold SOP_query, SOP_generate_answer, mbind, M_bind, log, modify, lift_result.
  simpl. rewrite Hsearch. destruct found as [|dws found]; [done|].
  fold (sop_messages SOP_SYSTEM_PROMPT question (map fst (dws :: found))).
  rewrite Hreply. unfold logged, mret, M_ret. simpl.
  by rewrite length_map, <- app_assoc.
Qed.

Lemma HC_query_ready (self : HCAgent) (chain : QAChain) (question : string)
    (w : World Vec) (found : list (Document * Score)) (reply : string) :
  hc_qa_chain self = Some chain ->
  similarity_search_with_score env (chain_store chain) question (chain_k chain) = inr found ->
  llm_invoke env (hc_messages question (map fst found)) = inr reply ->
  HC_query env self question w
  = (inr (mkQueryResult reply (map hc_source_entry (map fst found)) (length found)),
     logged w [EvSearch question (chain_k chain);
               EvChat (hc_messages question (map fst found))]).
Proof.
  intros Hchain Hsearch Hreply.
  unfold HC_query, RetrievalQA_invoke, mbind, M_bind, log, modify, lift_result.
  rewrite Hchain. simpl. rewrite Hsearch.
  fold (hc_messages question (map fst found)). rewrite Hreply.
  unfold logged, mret, M_ret. simpl.
  by rewrite !length_map, <- app_assoc.
Qed.

End Query.

(** C1 (amended). The SOP agent answers a question for which retrieval
    finds no chunk with the fixed "No relevant SOP information found"
    result, no sources and a chunk count of 0, and the only call it makes
    is the search; when chunks are found it returns the chat model's
    answer, the extracted sources and the number of retrieved chunks.  The
    HC agent, once its chain is built, always runs the chain: the chat
    model is called once whatever retrieval finds, and the result carries
    its answer, one source per retrieved chunk and their number. *)
Theorem query_result_by_agent {Vec Score : Type} (env : Env Vec Score)
    (SOP_SYSTEM_PROMPT question : string) (w : World Vec)
    (found : list (Document * Score)) (reply : string) :
  (forall self : SOPAgent,
     similarity_search_with_score env (sop_vectorstore self) question SOP_TOP_K = inr [] ->
     SOP_query env SOP_SYSTEM_PROMPT self question w
     = (inr (mkQueryResult ("No relevant SOP information found for: " +:+ question) [] 0),
        logged w [EvSearch question SOP_TOP_K]))
  ∧ (forall self : SOPAgent,
       found ≠ [] ->
       similarity_search_with_score env (sop_vectorstore self) question SOP_TOP_K
       = inr found ->
       llm_invoke env (sop_messages SOP_SYSTEM_PROMPT question (map fst found))
       = inr reply ->
       SOP_query env SOP_SYSTEM_PROMPT self question w
       = (inr (mkQueryResult reply (_extract_sources (map fst found)) (length found)),
          logged w [EvSearch question SOP_TOP_K;
                    EvChat (sop_messages SOP_SYSTEM_PROMPT question (map fst found))]))
  ∧ (forall (self : HCAgent) (chain : QAChain),
       hc_qa_chain self = Some chain ->
       similarity_search_with_score env (chain_store chain) question (chain_k chain)
       = inr found ->
       llm_invoke env (hc_messages question (map fst found)) = inr reply ->
       HC_query env self question w
       = (inr (mkQueryResult reply (map hc_source_entry (map fst found)) (length found)),
          logged w [EvSearch question (chain_k chain);
                    EvChat (hc_messages question (map fst found))])).
Proof.
  split; [|split].
  - intros self. apply SOP_query_nothing_found.
  - intros self. apply SOP_query_found.
  - intros self chain. apply HC_query_ready.
Qed.

Lemma query_result_by_agent_witness :
  SOP_query (env_double nothing "unused" no_fault) "system" (mkSOPAgent store_ABA)
    "What is the capping torque?" empty_world
  = (inr (mkQueryResult
            "No relevant SOP information found for: What is the capping torque?" [] 0),
     logged empty_world [EvSearch "What is the capping torque?" SOP_TOP_K])
  ∧ (SOP_query (env_double nearest "5 Nm" no_fault) "system" (mkSOPAgent store_ABA)
       "What is the capping torque?" empty_world).1
    = inr (mkQueryResult "5 Nm" (_extract_sources [chunk_A1; chunk_B; chunk_A2]) 3)
  ∧ (HC_query (env_double nearest "Twelve days." no_fault) (hc_ready store_ABA)
       "How long is annual leave?" empty_world).1
    = inr (mkQueryResult "Twelve days."
             (map hc_source_entry [chunk_A1; chunk_B; chunk_A2]) 3).
Proof.
  split; [|split].
  - apply (query_result_by_agent (env_double nothing "unused" no_fault) "system"
             "What is the capping torque?" empty_world [] "unused").
    reflexivity.
  - erewrite (proj1 (proj2 (query_result_by_agent (env_double nearest "5 Nm" no_fault)
                "system" "What is the capping torque?" empty_world
                [(chunk_A1, tt); (chunk_B, tt); (chunk_A2, tt)] "5 Nm")));
      [reflexivity|discriminate|reflexivity|reflexivity].
  - erewrite (proj2 (proj2 (query_result_by_agent
                (env_double nearest "Twelve days." no_fault)
                "system" "How long is annual leave?" empty_world
                [(chunk_A1, tt); (chunk_B, tt); (chunk_A2, tt)] "Twelve days."))
                (hc_ready store_ABA) (mkQAChain store_ABA HC_TOP_K));
      reflexivity.
Defined.

(** Against C1 as stated: retrieval finds nothing, and the HC agent still
    calls the chat model and returns its text. *)
Lemma hc_query_calls_chat_when_nothing_found :
  similarity_search_with_score (env_double nothing "Not available." no_fault)
    store_ABA "What is the notice period?" HC_TOP_K = inr []
  ∧ HC_query (env_double nothing "Not available." no_fault) (hc_ready store_ABA)
      "What is the notice period?" empty_world
    = (inr (mkQueryResult "Not available." [] 0),
       logged empty_world
         [EvSearch "What is the notice period?" HC_TOP_K;
          EvChat (hc_messages "What is the notice period?" [])])
  ∧ ¬ (forall messages,
         EvChat messages
         ∉ trace (HC_query (env_double nothing "Not available." no_fault)
                    (hc_ready store_ABA) "What is the notice period?" empty_world).2).
Proof.
  split; [reflexivity|]. split; [reflexivity|].
  intros H. apply (H (hc_messages "What is the notice period?" [])).
  apply list_elem_of_here || (right; left).
Qed.

Lemma first_by_id_covers (docs : list Document) (d : Document) :
  d ∈ docs -> exists d0, d0 ∈ first_by_id docs ∧ doc_id_of d0 = doc_id_of d.
Proof.
  induction docs as [|x docs IH]; intros Hd; [by apply elem_of_nil in Hd|].
  apply elem_of_cons in Hd as [->|Hd]; simpl.
  - exists x. split; [left|done].
  - destruct (IH Hd) as (d0 & Hin & Hid).
    destruct (decide (doc_id_of d0 = doc_id_of x)) as [Heq|Hne].
    + exists x. split; [left|congruence].
    + exists d0. split; [right; by apply list_elem_of_filter|done].
Qed.

(** C2 (amended). The list [_extract_sources] returns, which is the list
    the SOP agent returns with its answer, is the projection of a
    sub-sequence of the chunks in their order, holds no identifier twice,
    and cites each identifier by the first chunk that carries it: chunks
    of documents A, B, A give the citations of A and B.  It depends on the
    chunk sequence only.  The HC agent does not de-duplicate: it returns
    one entry, with the chunk's text, per retrieved chunk. *)
Theorem sources_deduplicated_first_seen {Vec Score : Type} (env : Env Vec Score)
    (SOP_SYSTEM_PROMPT : string) (docs : list Document) :
  (exists kept, sublist kept docs ∧ _extract_sources docs = map source_entry kept)
  ∧ NoDup (map source_id (_extract_sources docs))
  ∧ (forall l1 d l2,
       docs = l1 ++ d :: l2 ->
       (forall x, x ∈ l1 -> doc_id_of x ≠ doc_id_of d) ->
       filter (fun s => source_id s = Some (doc_id_of d)) (_extract_sources docs)
       = [source_entry d])
  ∧ (forall d, d ∈ docs -> Some (doc_id_of d) ∈ map source_id (_extract_sources docs))
  ∧ (forall a b a',
       doc_id_of a' = doc_id_of a -> doc_id_of b ≠ doc_id_of a ->
       _extract_sources [a; b; a'] = [source_entry a; source_entry b])
  ∧ (forall self question w result w',
       SOP_query env SOP_SYSTEM_PROMPT self question w = (inr result, w') ->
       exists found,
         similarity_search_with_score env (sop_vectorstore self) question SOP_TOP_K
         = inr found
         ∧ sources result = _extract_sources (map fst found))
  ∧ (forall self question w result w',
       HC_query env self question w = (inr result, w') ->
       exists chain found,
         hc_qa_chain self = Some chain
         ∧ similarity_search_with_score env (chain_store chain) question (chain_k chain)
           = inr found
         ∧ sources result = map hc_source_entry (map fst found)).
Proof.
  repeat split.
  - exists (first_by_id docs). split;
      [apply first_by_id_sublist|apply extract_sources_first_by_id].
  - rewrite extract_sources_first_by_id, map_map.
    rewrite (map_ext _ (fun d => Some (doc_id_of d))) by apply source_entry_id.
    rewrite <- (map_map doc_id_of Some).
    apply (NoDup_fmap_2 Some), first_by_id_NoDup.
  - intros l1 d l2 -> Hl1.
    rewrite extract_sources_first_by_id, filter_fmap.
    rewrite (list_filter_iff _ (fun x => doc_id_of x = doc_id_of d)).
    + by rewrite first_by_id_first.
    + intros x. rewrite source_entry_id. split; [by intros [= ->]|by intros ->].
  - intros d Hd. destruct (first_by_id_covers docs d Hd) as (d0 & Hin & Hid).
    rewrite extract_sources_first_by_id, <- Hid, <- source_entry_id.
    apply list_elem_of_fmap. exists (source_entry d0). split; [done|].
    apply list_elem_of_fmap. by exists d0.
  - intros a b a' Ha' Hb. rewrite extract_sources_first_by_id. simpl.
    rewrite filter_nil, (filter_cons_True _ a') by congruence.
    rewrite filter_nil, (filter_cons_True _ b) by done.
    by rewrite (filter_cons_False _ a') by (intros H; by apply H).
  - intros self question w result w'.
    unfold SOP_query, SOP_generate_answer, mbind, M_bind, log, modify, lift_result.
    simpl. destruct (similarity_search_with_score env _ _ _) as [e|found]; [done|].
    intros H. exists found. split; [done|].
    destruct found as [|dws found]; [by injection H as <- _|].
    destruct (llm_invoke env _); [done|]. by injection H as <- _.
  - intros self question w result w'.
    unfold HC_query, RetrievalQA_invoke, mbind, M_bind, log, modify, lift_result.
    destruct (hc_qa_chain self) as [chain|]; [|done]. simpl.
    destruct (similarity_search_with_score env _ _ _) as [e|found] eqn:Hfound; [done|].
    destruct (llm_invoke env _); [done|]. intros H. injection H as <- _.
    by exists chain, found.
Qed.

Lemma sources_deduplicated_first_seen_witness :
  _extract_sources [chunk_A1; chunk_B; chunk_A2]
  = [source_entry chunk_A1; source_entry chunk_B]
  ∧ filter (fun s => source_id s = Some (doc_id_of chunk_B))
      (_extract_sources [chunk_A1; chunk_B; chunk_A2])
    = [source_entry chunk_B].
Proof.
  destruct (sources_deduplicated_first_seen (env_double nearest "5 Nm" no_fault)
              "system" [chunk_A1; chunk_B; chunk_A2])
    as (_ & _ & Hfirst & _ & Haba & _).
  split.
  - apply Haba; vm_compute; [reflexivity|discriminate].
  - apply (Hfirst [chunk_A1] chunk_B [chunk_A2]); [reflexivity|].
    intros x Hx. apply list_elem_of_singleton in Hx as ->. vm_compute. discriminate.
Defined.

(** Against C2 as stated: for retrieved chunks of documents A, B, A the HC
    agent returns three citations, document A twice. *)
Lemma hc_query_sources_repeat_documents :
  map source_id
    (match (HC_query (env_double nearest "Cap, then label." no_fault)
              (hc_ready store_ABA) "How are vials capped?" empty_world).1 with
     | inr result => sources result
     | inl _ => []
     end)
  = [Some (VStr "SOP-A"); Some (VStr "SOP-B"); Some (VStr "SOP-A")]
  ∧ ¬ NoDup
        (map source_id
           (match (HC_query (env_double nearest "Cap, then label." no_fault)
                     (hc_ready store_ABA) "How are vials capped?" empty_world).1 with
            | inr result => sources result
            | inl _ => []
            end)).
Proof.
  assert (Hids :
    map source_id
      (match (HC_query (env_double nearest "Cap, then label." no_fault)
                (hc_ready store_ABA) "How are vials capped?" empty_world).1 with
       | inr result => sources result
       | inl _ => []
       end)
    = [Some (VStr "SOP-A"); Some (VStr "SOP-B"); Some (VStr "SOP-A")])
    by (vm_compute; reflexivity).
  split; [exact Hids|]. rewrite Hids. intros Hnodup.
  apply NoDup_cons in Hnodup as [Hnotin _]. apply Hnotin. right; left.
Qed.

(** ** Agents that are not ready *)

(** C7. A question put to an agent that is not ready is an error, for
    every question: [HCAgent.query] without a chain raises [ValueError]
    "HC Agent not initialized", and the two ask endpoints answer with an
    HTTP error that says "not initialized" (400 when the agent variable is
    unset, 500 when the HC agent object exists without its chain); the
    process is left as it was. *)
Theorem query_when_not_ready_is_an_error {Vec Score : Type} (env : Env Vec Score)
    (SOP_SYSTEM_PROMPT question : string) :
  (forall (self : HCAgent) (w : World Vec),
     hc_qa_chain self = None ->
     HC_query env self question w
     = (inl (ValueError "HC Agent not initialized. Call initialize() first."), w))
  ∧ (forall app : App Vec,
       sop_agent app = None ->
       ask_sop_question env SOP_SYSTEM_PROMPT question app
       = (inl (HTTPException 400
                 "SOP Agent not initialized. Please run: python ingest_unified.py sop"),
          app))
  ∧ (forall app : App Vec,
       hc_agent app = None ->
       ask_hc_question env question app
       = (inl (HTTPException 400
                 "HC Agent not initialized. Please upload a document first."),
          app))
  ∧ (forall (app : App Vec) (self : HCAgent),
       hc_agent app = Some self ->
       hc_qa_chain self = None ->
       ask_hc_question env question app
       = (inl (HTTPException 500 "HC Agent not initialized. Call initialize() first."),
          app)).
Proof.
  repeat split.
  - intros self w Hchain. unfold HC_query. by rewrite Hchain.
  - intros app Hnone. unfold ask_sop_question, mbind, M_bind, get_state.
    by rewrite Hnone.
  - intros app Hnone. unfold ask_hc_question, mbind, M_bind, get_state.
    by rewrite Hnone.
  - intros [w sop hc] self Hsome Hchain. simpl in Hsome. subst hc.
    unfold ask_hc_question, mbind, M_bind, get_state, try_except, in_app, HC_query.
    simpl. by rewrite Hchain.
Qed.

Lemma query_when_not_ready_is_an_error_witness :
  HC_query (env_double nearest "unused" no_fault) (HCAgent_init None)
    "How long is annual leave?" empty_world
  = (inl (ValueError "HC Agent not initialized. Call initialize() first."), empty_world)
  ∧ ask_sop_question (env_double nearest "unused" no_fault) "system"
      "How long is annual leave?" app_fresh
    = (inl (HTTPException 400
              "SOP Agent not initialized. Please run: python ingest_unified.py sop"),
       app_fresh)
  ∧ ask_hc_question (env_double nearest "unused" no_fault)
      "How long is annual leave?" app_fresh
    = (inl (HTTPException 400
              "HC Agent not initialized. Please upload a document first."),
       app_fresh)
  ∧ ask_hc_question (env_double nearest "unused" no_fault) "How long is annual leave?"
      (mkApp empty_world None (Some (HCAgent_init None)))
    = (inl (HTTPException 500 "HC Agent not initialized. Call initialize() first."),
       mkApp empty_world None (Some (HCAgent_init None))).
Proof.
  destruct (query_when_not_ready_is_an_error (env_double nearest "unused" no_fault)
              "system" "How long is annual leave?") as (H1 & H2 & H3 & H4).
  split; [by apply H1|]. split; [by apply H2|]. split; [by apply H3|].
  by apply (H4 _ (HCAgent_init None)).
Defined.

(** ** The upload endpoint *)

(** C9. An upload whose file name does not end in [.pdf], [.docx] or
    [.doc] is answered with HTTP 400 and nothing else happens: no call is
    logged, the disk, the index and the agents are as before. *)
Theorem upload_rejects_other_extensions {Vec Score : Type} (env : Env Vec Score)
    (f : UploadFile) (app : App Vec) :
  endswith_any (filename f) [".pdf"; ".docx"; ".doc"] = false ->
  upload_hc_document env f app
  = (inl (HTTPException 400 "Only PDF and DOCX files are supported"), app).
Proof. intros Hext. unfold upload_hc_document. by rewrite Hext. Qed.

Lemma upload_rejects_other_extensions_witness :
  upload_hc_document (env_double nearest "unused" no_fault)
    (mkUploadFile "notes.txt" "Travel is reimbursed.") app_ready
  = (inl (HTTPException 400 "Only PDF and DOCX files are supported"), app_ready).
Proof.
  apply (upload_rejects_other_extensions (env_double nearest "unused" no_fault)
           (mkUploadFile "notes.txt" "Travel is reimbursed.") app_ready).
  reflexivity.
Defined.

Lemma in_app_agents {Vec A} (c : M (World Vec) A) (app : App Vec) r app' :
  in_app c app = (r, app') ->
  hc_agent app' = hc_agent app ∧ sop_agent app' = sop_agent app.
Proof.
  unfold in_app. destruct (c (world app)) as [r0 w]. by intros [= <- <-].
Qed.

Lemma bind_cases {S A B} (c : M S A) (k : A -> M S B) (s s' : S) (r : exn + B) :
  (c ≫= k) s = (r, s') ->
  (exists e, c s = (inl e, s') ∧ r = inl e)
  ∨ (exists a s1, c s = (inr a, s1) ∧ k a s1 = (r, s')).
Proof.
  unfold mbind, M_bind. destruct (c s) as [[e|a] s1].
  - intros [= <- <-]. left. by exists e.
  - intros Hk. right. by exists a, s1.
Qed.

Lemma hc_upload_ingest_agents {Vec Score} (env : Env Vec Score) (f : UploadFile)
    (app : App Vec) r app' :
  hc_upload_ingest env f app = (r, app') ->
  hc_agent app' = hc_agent app ∧ sop_agent app' = sop_agent app.
Proof.
  unfold hc_upload_ingest. intros Hrun.
  apply bind_cases in Hrun as [(e & H1 & _)|([] & a1 & H1 & Hrun)];
    apply in_app_agents in H1 as [H1h H1s]; [done|].
  apply bind_cases in Hrun as [(e & H2 & _)|([] & a2 & H2 & Hrun)];
    apply in_app_agents in H2 as [H2h H2s]; [split; congruence|].
  apply bind_cases in Hrun as [(e & H3 & _)|(ingestor & a3 & H3 & Hrun)];
    apply in_app_agents in H3 as [H3h H3s]; [split; congruence|].
  apply bind_cases in Hrun as [(e & H4 & _)|(n & a4 & H4 & Hrun)];
    apply in_app_agents in H4 as [H4h H4s]; [split; congruence|].
  apply bind_cases in Hrun as [(e & H5 & _)|(a & a5 & H5 & Hrun)];
    apply in_app_agents in H5 as [H5h H5s]; [split; congruence|].
  injection Hrun as _ <-. split; congruence.
Qed.

(** C5 (amended). When the upload is refused (file type, credentials) or
    fails while the file is saved, loaded, chunked, embedded or the index
    persisted, the endpoint answers with an HTTP error and the two agent
    variables hold what they held: the HC agent, its loaded index and its
    ready or not-ready state are unchanged. *)
Theorem upload_failure_before_swap_keeps_agent {Vec Score : Type} (env : Env Vec Score)
    (f : UploadFile) (app : App Vec) :
  (endswith_any (filename f) [".pdf"; ".docx"; ".doc"] = false ->
   upload_hc_document env f app
   = (inl (HTTPException 400 "Only PDF and DOCX files are supported"), app))
  ∧ (endswith_any (filename f) [".pdf"; ".docx"; ".doc"] = true ->
     (getenv_set "AZURE_OPENAI_ENDPOINT" app).1 = inr false ->
     upload_hc_document env f app
     = (inl (HTTPException 400 "Azure credentials not found. Please create a .env file."),
        app))
  ∧ (endswith_any (filename f) [".pdf"; ".docx"; ".doc"] = true ->
     (getenv_set "AZURE_OPENAI_ENDPOINT" app).1 = inr true ->
     forall e app',
       hc_upload_ingest env f app = (inl e, app') ->
       upload_hc_document env f app = (inl (HTTPException 500 (exn_str e)), app')
       ∧ hc_agent app' = hc_agent app
       ∧ sop_agent app' = sop_agent app).
Proof.
  split; [intros Hext; unfold upload_hc_document; by rewrite Hext|]. split.
  - intros Hext Henv. unfold upload_hc_document. rewrite Hext. simpl.
    unfold mbind, M_bind. unfold getenv_set, mbind, M_bind, get_state, mret, M_ret in *.
    simpl in *. by injection Henv as ->.
  - intros Hext Henv e app' Hingest.
    split; [|by apply (hc_upload_ingest_agents env f app (inl e))].
    unfold upload_hc_document. rewrite Hext. simpl.
    unfold mbind at 1, M_bind at 1.
    unfold getenv_set, mbind, M_bind, get_state, mret, M_ret in Henv |- *.
    simpl in Henv |- *. injection Henv as ->. simpl.
    unfold hc_upload_ingest, mbind, M_bind in Hingest. unfold try_except.
    destruct (in_app (makedirs env HC_UPLOAD_DIR) app) as [[e1|[]] a1].
    { by injection Hingest as <- <-. }
    destruct (in_app (write_file env _ _ _) a1) as [[e2|[]] a2].
    { by injection Hingest as <- <-. }
    destruct (in_app (DocumentIngestor_new env "HC") a2) as [[e3|ingestor] a3].
    { by injection Hingest as <- <-. }
    destruct (in_app (process_document env ingestor _ _) a3) as [[e4|n] a4].
    { by injection Hingest as <- <-. }
    destruct (in_app (HCAgent_new env None) a4) as [[e5|a] a5].
    { by injection Hingest as <- <-. }
    done.
Qed.

Lemma upload_failure_before_swap_keeps_agent_witness :
  (upload_hc_document (env_double nearest "unused" embedding_fails)
     travel_upload app_ready).1
  = inl (HTTPException 500 "embedding request failed")
  ∧ hc_agent (upload_hc_document (env_double nearest "unused" embedding_fails)
                travel_upload app_ready).2
    = Some (hc_ready [(tt, chunk_leave)]).
Proof.
  assert (Hingest :
    hc_upload_ingest (env_double nearest "unused" embedding_fails) travel_upload app_ready
    = (inl (UpstreamError "embedding request failed"),
       (hc_upload_ingest (env_double nearest "unused" embedding_fails)
          travel_upload app_ready).2))
    by (vm_compute; reflexivity).
  destruct (upload_failure_before_swap_keeps_agent
              (env_double nearest "unused" embedding_fails) travel_upload app_ready)
    as (_ & _ & Hkeep).
  destruct (Hkeep eq_refl eq_refl _ _ Hingest) as (Hupload & Hhc & _).
  rewrite Hupload. split; [reflexivity|exact Hhc].
Defined.

(** Against C5 as stated: the new index is persisted, then reading it back
    fails; the endpoint answers 500, yet the agent variable already holds
    the new, un-initialised agent, and the question the old agent answered
    is now refused. *)
Lemma upload_failure_at_swap_replaces_agent :
  (upload_hc_document (env_double nearest "Twelve days." index_read_fails)
     travel_upload app_ready).1
  = inl (HTTPException 500 "Input/output error")
  ∧ hc_agent app_ready = Some (hc_ready [(tt, chunk_leave)])
  ∧ hc_agent (upload_hc_document (env_double nearest "Twelve days." index_read_fails)
                travel_upload app_ready).2
    = Some (HCAgent_init None)
  ∧ hc_agent (upload_hc_document (env_double nearest "Twelve days." index_read_fails)
                travel_upload app_ready).2
    ≠ hc_agent app_ready
  ∧ (ask_hc_question (env_double nearest "Twelve days." index_read_fails)
       "How long is annual leave?" app_ready).1
    = inr (mkAnswerResponse "Twelve days." [hc_source_entry chunk_leave] 1
             "Human Capital Assistant")
  ∧ (ask_hc_question (env_double nearest "Twelve days." index_read_fails)
       "How long is annual leave?"
       (upload_hc_document (env_double nearest "Twelve days." index_read_fails)
          travel_upload app_ready).2).1
    = inl (HTTPException 500 "HC Agent not initialized. Call initialize() first.").
Proof.
  assert (Hafter :
    hc_agent (upload_hc_document (env_double nearest "Twelve days." index_read_fails)
                travel_upload app_ready).2
    = Some (HCAgent_init None)) by (vm_compute; reflexivity).
  repeat split; try (vm_compute; reflexivity).
  rewrite Hafter. discriminate.
Qed.

(** ** Loading a persisted index *)

Lemma SOP_load_vectorstore_missing {Vec Score} (env : Env Vec Score) (w : World Vec) :
  fs w !! SOP_VECTORSTORE_PATH = None ->
  SOP_load_vectorstore env w
  = (inl (FileNotFoundError
            ("SOP vector store not found at " +:+ SOP_VECTORSTORE_PATH +:+ nl
             +:+ "Please run: python ingest_sop.py")), w).
Proof.
  intros Hmissing.
  unfold SOP_load_vectorstore, path_exists, mbind, M_bind, get_state, mret, M_ret.
  rewrite Hmissing. by rewrite bool_decide_eq_false_2 by (by intros [? ?]).
Qed.

Lemma HC_load_vectorstore_missing {Vec Score} (env : Env Vec Score) (w : World Vec)
    (self : HCAgent) :
  fs w !! hc_vectorstore_path self = None ->
  HC_load_vectorstore env (w, self)
  = (inl (FileNotFoundError
            ("HC vector store not found at " +:+ hc_vectorstore_path self +:+ nl
             +:+ "Please upload and process HR documents first")), (w, self)).
Proof.
  intros Hmissing.
  unfold HC_load_vectorstore, on_world, path_exists, get_self,
    mbind, M_bind, get_state, mret, M_ret.
  simpl. rewrite Hmissing. by rewrite bool_decide_eq_false_2 by (by intros [? ?]).
Qed.

(** The ingestor hands the path to [FAISS.load_local] unchecked: what the
    caller gets for a missing index file is the library's [RuntimeError]. *)
Lemma ingestor_load_vectorstore_missing {Vec Score} (env : Env Vec Score)
    (self : DocumentIngestor) (load_path : string) (w : World Vec) :
  fs w !! Path.join load_path "index.faiss" = None ->
  io_fault env (EvReadIndex (Path.join load_path "index.faiss")) = None ->
  load_vectorstore env self (Some load_path) w
  = (inl (RuntimeError
            ("could not open " +:+ Path.join load_path "index.faiss"
             +:+ " for reading: No such file or directory")),
     logged w [EvReadIndex (Path.join load_path "index.faiss")]).
Proof.
  intros Hmissing Hfault.
  unfold load_vectorstore, FAISS_load_local, io, log, modify,
    mbind, M_bind, get_state, mret, M_ret.
  simpl. rewrite Hfault. simpl. by rewrite Hmissing.
Qed.

(** C6 (the code at the failing input). With no index on disk the two
    agents fail with [FileNotFoundError]; [DocumentIngestor.load_vectorstore]
    fails with the [RuntimeError] of [faiss.read_index]. *)
Theorem load_missing_index_error_classes :
  fs empty_world !! HC_VECTORSTORE_PATH = None
  ∧ (SOP_load_vectorstore (env_double nearest "unused" no_fault) empty_world).1
    = inl (FileNotFoundError
             ("SOP vector store not found at data/vectorstore/sop_faiss_index" +:+ nl
              +:+ "Please run: python ingest_sop.py"))
  ∧ (HC_load_vectorstore (env_double nearest "unused" no_fault)
       (empty_world, HCAgent_init None)).1
    = inl (FileNotFoundError
             ("HC vector store not found at data/vectorstore/hc_faiss_index" +:+ nl
              +:+ "Please upload and process HR documents first"))
  ∧ (load_vectorstore (env_double nearest "unused" no_fault)
       (DocumentIngestor_init "HC") None empty_world).1
    = inl (RuntimeError
             "could not open data/vectorstore/hc_faiss_index/index.faiss for reading: No such file or directory").
Proof. repeat split; vm_compute; reflexivity. Qed.

(** ** Rebuilding the HC index *)

Section KeepsDisk.

Context {Vec Score : Type} (env : Env Vec Score).
Context {S : Type} (wof : S -> World Vec).

Lemma keeps_same {A} (c : M S A) :
  (forall s r s', c s = (r, s') -> wof s' = wof s) -> keeps_disk wof c.
Proof.
  intros Hsame s r s' Hrun. rewrite (Hsame _ _ _ Hrun). split; [|done].
  exists []. split; [by rewrite app_nil_r|]. intros p. apply not_elem_of_nil.
Qed.

Lemma keeps_ret {A} (a : A) : keeps_disk wof (mret a : M S A).
Proof. apply keeps_same. by intros s r s' [= _ <-]. Qed.

Lemma keeps_raise {A} (e : exn) : keeps_disk wof (raise e : M S A).
Proof. apply keeps_same. by intros s r s' [= _ <-]. Qed.

Lemma keeps_get_state : keeps_disk wof (get_state : M S S).
Proof. apply keeps_same. by intros s r s' [= _ <-]. Qed.

Lemma keeps_lift_result {A} (r : exn + A) : keeps_disk wof (lift_result r : M S A).
Proof. apply keeps_same. by intros s r' s' [= _ <-]. Qed.

Lemma keeps_then {A} (c : M S A) s1 r s2 s3 :
  keeps_disk wof c -> c s2 = (r, s3) ->
  ((exists events,
       trace (wof s2) = trace (wof s1) ++ events ∧ forall p, EvRmtree p ∉ events)
   ∧ (forall p, is_Some (fs (wof s1) !! p) -> is_Some (fs (wof s2) !! p))) ->
  (exists events,
      trace (wof s3) = trace (wof s1) ++ events ∧ forall p, EvRmtree p ∉ events)
  ∧ (forall p, is_Some (fs (wof s1) !! p) -> is_Some (fs (wof s3) !! p)).
Proof.
  intros Hc Hrun [(ev1 & Ht1 & Hn1) Hf1].
  destruct (Hc _ _ _ Hrun) as [(ev2 & Ht2 & Hn2) Hf2]. split.
  - exists (ev1 ++ ev2). split; [by rewrite Ht2, Ht1, app_assoc|].
    intros p Hin. apply elem_of_app in Hin as [Hin|Hin]; [by apply (Hn1 p)|by apply (Hn2 p)].
  - intros p Hp. by apply Hf2, Hf1.
Qed.

Lemma keeps_bind {A B} (c : M S A) (f : A -> M S B) :
  keeps_disk wof c -> (forall a, keeps_disk wof (f a)) -> keeps_disk wof (c ≫= f).
Proof.
  intros Hc Hf s r s'. unfold mbind, M_bind.
  destruct (c s) as [[e|a] s1] eqn:Hrun.
  - intros [= <- <-]. by apply (Hc _ _ _ Hrun).
  - intros Hrun2. apply (keeps_then (f a) s r s1 s'); [apply Hf|done|].
    by apply (Hc _ _ _ Hrun).
Qed.

Lemma keeps_try_except {A} (body : M S A) (handler : exn -> M S A) :
  keeps_disk wof body -> (forall e, keeps_disk wof (handler e)) ->
  keeps_disk wof (try_except body handler).
Proof.
  intros Hb Hh s r s'. unfold try_except.
  destruct (body s) as [[e|a] s1] eqn:Hrun.
  - intros Hrun2. apply (keeps_then (handler e) s r s1 s'); [apply Hh|done|].
    by apply (Hb _ _ _ Hrun).
  - intros [= <- <-]. by apply (Hb _ _ _ Hrun).
Qed.

End KeepsDisk.

Ltac keeps_step :=
  first
    [ apply keeps_bind; [|intros ?]
    | apply keeps_try_except; [|intros ?]
    | apply keeps_ret
    | apply keeps_raise
    | apply keeps_get_state
    | apply keeps_lift_result
    | match goal with
      | |- keeps_disk _ (match ?x with _ => _ end) => destruct x
      | |- keeps_disk _ (if ?x then _ else _) => destruct x
      end ].

Section KeepsDiskWorld.

Context {Vec Score : Type} (env : Env Vec Score).

Local Abbreviation keeps c := (keeps_disk (fun w : World Vec => w) c).

Lemma keeps_log (ev : Event) : (forall p, ev ≠ EvRmtree p) -> keeps (log ev).
Proof.
  intros Hev s r s' [= _ <-]. split; [|done].
  exists [ev]. split; [done|]. intros p Hin.
  apply list_elem_of_singleton in Hin. by apply (Hev p).
Qed.

Lemma keeps_io (ev : Event) : (forall p, ev ≠ EvRmtree p) -> keeps (io env ev).
Proof. intros Hev. unfold io. repeat keeps_step. by apply keeps_log. Qed.

Lemma keeps_new_client (fault : Settings -> option exn) : keeps (new_client fault).
Proof.
  apply keeps_same. intros s r s'. unfold new_client, mbind, M_bind, get_state.
  destruct (fault _); by intros [= _ <-].
Qed.

Lemma keeps_BaseAgent_init : keeps (BaseAgent_init env).
Proof. unfold BaseAgent_init. apply keeps_bind; intros; apply keeps_new_client. Qed.

Lemma keeps_DocumentIngestor_new (agent_type : string) :
  keeps (DocumentIngestor_new env agent_type).
Proof.
  unfold DocumentIngestor_new. apply keeps_bind; [apply keeps_new_client|].
  intros _. apply keeps_ret.
Qed.

Lemma keeps_HCAgent_new (vectorstore_path : option string) :
  keeps (HCAgent_new env vectorstore_path).
Proof.
  unfold HCAgent_new. apply keeps_bind; [apply keeps_BaseAgent_init|].
  intros _. apply keeps_ret.
Qed.

Lemma keeps_insert (p : string) (node : Node) : keeps (set_fs (insert p node)).
Proof.
  intros s r s' [= _ <-]. split.
  - exists []. split; [by rewrite app_nil_r|]. intros q. apply not_elem_of_nil.
  - intros q Hq. simpl. destruct (decide (p = q)) as [->|Hne].
    + rewrite lookup_insert_eq. by eexists.
    + by rewrite lookup_insert_ne.
Qed.

Lemma keeps_mkdir_one (p : string) : keeps (mkdir_one p).
Proof. unfold mkdir_one. repeat keeps_step. apply keeps_insert. Qed.

Lemma keeps_makedirs (p : string) : keeps (makedirs env p).
Proof.
  unfold makedirs. keeps_step; [by apply keeps_io|].
  induction (Path.parents p ++ [p]) as [|q l IH]; simpl; [apply keeps_ret|].
  keeps_step; [apply keeps_mkdir_one|done].
Qed.

Lemma keeps_write_file (ev : Event) (p : string) (data : FileData) :
  (forall q, ev ≠ EvRmtree q) -> keeps (write_file env ev p data).
Proof.
  intros Hev. unfold write_file.
  keeps_step; [by apply keeps_io|]. repeat keeps_step; apply keeps_insert.
Qed.

Lemma keeps_read_file (ev : Event) (p : string) :
  (forall q, ev ≠ EvRmtree q) -> keeps (read_file env ev p).
Proof. intros Hev. unfold read_file. keeps_step; [by apply keeps_io|]. repeat keeps_step. Qed.

Lemma keeps_FAISS_save_local (index : Index) (folder : string) :
  keeps (FAISS_save_local env index folder).
Proof.
  unfold FAISS_save_local.
  keeps_step; [apply keeps_makedirs|]. keeps_step; by apply keeps_write_file.
Qed.

Lemma keeps_FAISS_load_local (folder : string) : keeps (FAISS_load_local env folder).
Proof.
  unfold FAISS_load_local. keeps_step; [by apply keeps_io|].
  keeps_step; [apply keeps_get_state|]. keeps_step; [repeat keeps_step|].
  keeps_step; [by apply keeps_read_file|]. repeat keeps_step.
Qed.

Lemma keeps_file_bytes (path : string) (d : FileData) : keeps (file_bytes path d).
Proof. unfold file_bytes. repeat keeps_step. Qed.

Lemma keeps_load_document (self : DocumentIngestor) (file_path : string) :
  keeps (load_document env self file_path).
Proof.
  unfold load_document.
  repeat first [ by apply keeps_read_file | apply keeps_file_bytes | keeps_step ].
Qed.

Lemma keeps_process_document (self : DocumentIngestor) (file_path : string)
    (save_path : option string) :
  keeps (process_document env self file_path save_path).
Proof.
  unfold process_document, create_vectorstore, FAISS_from_documents, save_vectorstore.
  repeat first
    [ apply keeps_load_document | by apply keeps_log | apply keeps_makedirs
    | apply keeps_FAISS_save_local | keeps_step ].
Qed.

End KeepsDiskWorld.

Section KeepsDiskApp.

Context {Vec Score : Type} (env : Env Vec Score).

Lemma keeps_in_app {A} (c : M (World Vec) A) :
  keeps_disk (fun w : World Vec => w) c -> keeps_disk world (in_app c).
Proof.
  intros Hc app r app'. unfold in_app.
  destruct (c (world app)) as [r0 w] eqn:Hrun. intros [= <- <-].
  exact (Hc _ _ _ Hrun).
Qed.

Lemma keeps_on_world {O A} (c : M (World Vec) A) :
  keeps_disk (fun w : World Vec => w) c ->
  keeps_disk (fst : World Vec * O -> World Vec) (on_world c).
Proof.
  intros Hc s r s'. unfold on_world.
  destruct (c s.1) as [r0 w] eqn:Hrun. intros [= <- <-].
  exact (Hc _ _ _ Hrun).
Qed.

Lemma keeps_get_self {O} : keeps_disk (fst : World Vec * O -> World Vec) get_self.
Proof. apply keeps_same. by intros s r s' [= _ <-]. Qed.

Lemma keeps_set_self {O} (o : O) :
  keeps_disk (fst : World Vec * O -> World Vec) (set_self o).
Proof. apply keeps_same. by intros s r s' [= _ <-]. Qed.

Lemma keeps_HC_initialize :
  keeps_disk (fst : World Vec * HCAgent -> World Vec) (HC_initialize env).
Proof.
  unfold HC_initialize, HC_load_vectorstore, HC_create_qa_chain, path_exists.
  repeat first
    [ apply keeps_get_self | apply keeps_set_self
    | apply keeps_on_world; first [apply keeps_FAISS_load_local | repeat keeps_step]
    | keeps_step ].
Qed.

Lemma keeps_on_hc_agent {A} (m : M (World Vec * HCAgent) A) :
  keeps_disk fst m -> keeps_disk world (on_hc_agent m).
Proof.
  intros Hm app r app'. unfold on_hc_agent.
  destruct (hc_agent app) as [self|].
  - destruct (m (world app, self)) as [r0 s] eqn:Hrun. intros [= <- <-].
    exact (Hm _ _ _ Hrun).
  - intros [= <- <-]. split; [|done].
    exists []. split; [by rewrite app_nil_r|]. intros p. apply not_elem_of_nil.
Qed.

Lemma keeps_set_hc_agent (a : HCAgent) : keeps_disk world (set_hc_agent (Vec := Vec) a).
Proof. apply keeps_same. by intros s r s' [= _ <-]. Qed.

(** Whatever the collaborators do and whatever is uploaded, the upload
    handler never calls [shutil.rmtree], and every path that was on disk
    before the request, the index folder included, is on disk after it. *)
Lemma upload_never_removes_a_path (f : UploadFile) :
  keeps_disk world (upload_hc_document env f).
Proof.
  unfold upload_hc_document, getenv_set.
  repeat first
    [ apply keeps_set_hc_agent
    | apply keeps_on_hc_agent, keeps_HC_initialize
    | apply keeps_in_app;
      first [ apply keeps_makedirs | by apply keeps_write_file
            | apply keeps_process_document | apply keeps_DocumentIngestor_new
            | apply keeps_HCAgent_new ]
    | keeps_step ].
Qed.

End KeepsDiskApp.

(** C4 (the code at the failing input). No upload ever calls
    [shutil.rmtree] or takes a path off the disk.  An upload into a process
    whose index folder exists succeeds and overwrites [index.faiss] and
    [index.pkl] in place, and a file of an earlier index that lay in the
    folder is still there.  On the same disk [process_folder] removes the
    folder, with that file, before it embeds. *)
Theorem upload_overwrites_index_in_place :
  (forall (Vec Score : Type) (env : Env Vec Score) (f : UploadFile),
     keeps_disk world (upload_hc_document env f))
  ∧ (upload_hc_document (env_double nearest "unused" no_fault) travel_upload app_ready).1
  = inr (mkStatusResponse "success"
           "Document processed successfully. Created 1 chunks." 1)
  ∧ trace (world (upload_hc_document (env_double nearest "unused" no_fault)
                    travel_upload app_ready).2)
    = [EvMakedirs "uploads/hc"; EvWriteFile "uploads/hc/travel.pdf";
       EvLoadDocument "uploads/hc/travel.pdf";
       EvEmbed ["Travel is reimbursed."]; EvMakedirs "data/vectorstore";
       EvMakedirs "data/vectorstore/hc_faiss_index";
       EvWriteIndex "data/vectorstore/hc_faiss_index/index.faiss";
       EvWriteFile "data/vectorstore/hc_faiss_index/index.pkl";
       EvReadIndex "data/vectorstore/hc_faiss_index/index.faiss";
       EvReadFile "data/vectorstore/hc_faiss_index/index.pkl"]
  ∧ (forall p,
       EvRmtree p
       ∉ trace (world (upload_hc_document (env_double nearest "unused" no_fault)
                         travel_upload app_ready).2))
  ∧ fs (world (upload_hc_document (env_double nearest "unused" no_fault)
                 travel_upload app_ready).2)
    !! "data/vectorstore/hc_faiss_index/archive.faiss"
    = Some (File (FaissIndex [tt; tt]))
  ∧ trace (process_folder (env_double nearest "unused" no_fault)
             (DocumentIngestor_init "HC") (world app_ready)).2
    = [EvLoadDocument "data/HR_Doc/travel.pdf";
       EvRmtree "data/vectorstore/hc_faiss_index";
       EvEmbed ["Travel is reimbursed."]; EvMakedirs "data/vectorstore";
       EvMakedirs "data/vectorstore/hc_faiss_index";
       EvWriteIndex "data/vectorstore/hc_faiss_index/index.faiss";
       EvWriteFile "data/vectorstore/hc_faiss_index/index.pkl"]
  ∧ fs (process_folder (env_double nearest "unused" no_fault)
          (DocumentIngestor_init "HC") (world app_ready)).2
    !! "data/vectorstore/hc_faiss_index/archive.faiss"
    = None.
Proof.
  assert (Htrace :
    trace (world (upload_hc_document (env_double nearest "unused" no_fault)
                    travel_upload app_ready).2)
    = [EvMakedirs "uploads/hc"; EvWriteFile "uploads/hc/travel.pdf";
       EvLoadDocument "uploads/hc/travel.pdf";
       EvEmbed ["Travel is reimbursed."]; EvMakedirs "data/vectorstore";
       EvMakedirs "data/vectorstore/hc_faiss_index";
       EvWriteIndex "data/vectorstore/hc_faiss_index/index.faiss";
       EvWriteFile "data/vectorstore/hc_faiss_index/index.pkl";
       EvReadIndex "data/vectorstore/hc_faiss_index/index.faiss";
       EvReadFile "data/vectorstore/hc_faiss_index/index.pkl"])
    by (vm_compute; reflexivity).
  split; [intros Vec Score env f; apply upload_never_removes_a_path|].
  split; [vm_compute; reflexivity|]. split; [exact Htrace|]. split.
  - intros p. rewrite Htrace. intros Hin.
    repeat (apply elem_of_cons in Hin as [Hin|Hin]; [discriminate|]).
    by apply elem_of_nil in Hin.
  - repeat split; vm_compute; reflexivity.
Qed.

(** * Further properties of the code *)

(** ** [DocumentIngestor._extract_metadata] *)

(** X1. Whatever the text, the mapping has [source], [filename] and
    [doc_type]; the category is the one of the stored identifier, "SOP"
    before "WI" before "QA", and it is "Document" when the mapping has no
    identifier. *)
Theorem extract_metadata_always_has_source_and_category (content file_path : string) :
  let metadata := _extract_metadata content file_path in
  metadata !! "source" = Some (VStr file_path)
  ∧ metadata !! "filename" = Some (VStr (Path.name file_path))
  ∧ (forall doc_id,
       metadata !! "document_id" = Some (VStr doc_id) ->
       metadata !! "doc_type" = Some (VStr (category_of doc_id)))
  ∧ (metadata !! "document_id" = None ->
     metadata !! "doc_type" = Some (VStr "Document")).
Proof.
  destruct (extract_metadata_lookups content file_path)
    as (Hsource & Hfile & Htype & _).
  split; [done|]. split; [done|]. split.
  - intros doc_id Hid. simpl in Htype. rewrite Hid in Htype. exact Htype.
  - intros Hid. simpl in Htype. rewrite Hid in Htype. exact Htype.
Qed.

Lemma extract_metadata_always_has_source_and_category_witness :
  let metadata :=
    _extract_metadata ("Document ID: QA-WI-SOP-7" +:+ nl +:+ "Body") "Data/Documents/a.md" in
  metadata !! "doc_type" = Some (VStr "Standard Operating Procedure")
  ∧ _extract_metadata "No labels here." "Data/Documents/b.md" !! "doc_type"
    = Some (VStr "Document").
Proof.
  split.
  - destruct (extract_metadata_always_has_source_and_category
                ("Document ID: QA-WI-SOP-7" +:+ nl +:+ "Body") "Data/Documents/a.md")
      as (_ & _ & Hid & _).
    apply (Hid "QA-WI-SOP-7"). vm_compute. reflexivity.
  - destruct (extract_metadata_always_has_source_and_category
                "No labels here." "Data/Documents/b.md") as (_ & _ & _ & Hnone).
    apply Hnone. vm_compute. reflexivity.
Defined.

(** *** What the three patterns capture *)

Lemma match_at_group_plus (cls : ascii -> bool) (pat : list Re.item) (s : string) :
  Re.match_at (Re.GroupPlus cls :: pat) s = plus_loop cls (Re.match_at pat) false s.
Proof. reflexivity. Qed.

Lemma plus_loop_captures (cls : ascii -> bool) (rest : string -> option string) (s : string) :
  forall taken g,
    plus_loop cls rest taken s = Some g ->
    all_chars cls g = true ∧ (taken = false -> g ≠ EmptyString).
Proof.
  induction s as [|c s IH]; intros taken g; simpl.
  - destruct taken; [|done]. destruct (rest EmptyString); [|done].
    simpl. by intros [= <-].
  - destruct (cls c) eqn:Hc.
    + destruct (plus_loop cls rest true s) as [g'|] eqn:Hloop; simpl.
      * intros [= <-]. destruct (IH _ _ Hloop) as [Hall _]. simpl.
        rewrite Hc, Hall. done.
      * destruct taken; [|done]. destruct (rest (String c s)); [|done].
        simpl. by intros [= <-].
    + simpl. destruct taken; [|done]. destruct (rest (String c s)); [|done].
      simpl. by intros [= <-].
Qed.

Lemma match_at_star_tail (cls : ascii -> bool) (pat : list Re.item) (s : string) :
  forall g, Re.match_at (Re.Star cls :: pat) s = Some g ->
            exists s', Re.match_at pat s' = Some g.
Proof.
  induction s as [|c s IH]; intros g.
  - change (Re.match_at (Re.Star cls :: pat) EmptyString)
      with (Re.or_else None (Re.match_at pat EmptyString)).
    simpl. intros H. by exists EmptyString.
  - change (Re.match_at (Re.Star cls :: pat) (String c s))
      with (Re.or_else (if cls c then Re.match_at (Re.Star cls :: pat) s else None)
              (Re.match_at pat (String c s))).
    destruct (cls c).
    + destruct (Re.match_at (Re.Star cls :: pat) s) as [g'|] eqn:Hstar; simpl.
      * intros [= <-]. by apply IH.
      * intros H. by exists (String c s).
    + simpl. intros H. by exists (String c s).
Qed.

Lemma match_at_lits_tail (lit : string) (pat : list Re.item) :
  forall s g, Re.match_at (Re.lits lit ++ pat) s = Some g ->
              exists s', Re.match_at pat s' = Some g.
Proof.
  induction lit as [|a lit IH]; intros s g; simpl.
  - intros H. by exists s.
  - destruct s as [|c s]; [done|]. destruct (Ascii.eqb a c); [apply IH|done].
Qed.

Lemma search_matches_somewhere (pat : list Re.item) (s : string) :
  forall g, Re.search pat s = Some g -> exists s', Re.match_at pat s' = Some g.
Proof.
  induction s as [|c s IH]; intros g; simpl.
  - destruct (Re.match_at pat EmptyString) eqn:Hm; simpl; [|done].
    intros [= <-]. by exists EmptyString.
  - destruct (Re.match_at pat (String c s)) eqn:Hm; simpl.
    + intros [= <-]. by exists (String c s).
    + apply IH.
Qed.

(** The group of a pattern [label \s* (c+)] is never empty and holds
    characters of the class only. *)
Lemma search_label_group (label : string) (cls : ascii -> bool) (s g : string) :
  Re.search (Re.lits label ++ [Re.Star isspace; Re.GroupPlus cls]) s = Some g ->
  g ≠ EmptyString ∧ all_chars cls g = true.
Proof.
  intros Hsearch.
  apply search_matches_somewhere in Hsearch as (s1 & Hmatch).
  apply match_at_lits_tail in Hmatch as (s2 & Hmatch).
  apply match_at_star_tail in Hmatch as (s3 & Hmatch).
  rewrite match_at_group_plus in Hmatch.
  apply plus_loop_captures in Hmatch as [Hall Hne]. split; [by apply Hne|done].
Qed.

Lemma all_chars_lstrip (cls : ascii -> bool) (s : string) :
  all_chars cls s = true -> all_chars cls (lstrip s) = true.
Proof.
  induction s as [|c s IH]; [done|]. simpl. intros H.
  apply andb_true_iff in H as [Hc Hs].
  destruct (isspace c); [by apply IH|]. simpl. by rewrite Hc, Hs.
Qed.

Lemma all_chars_rstrip (cls : ascii -> bool) (s : string) :
  all_chars cls s = true -> all_chars cls (rstrip s) = true.
Proof.
  induction s as [|c s IH]; [done|]. simpl. intros H.
  apply andb_true_iff in H as [Hc Hs]. specialize (IH Hs).
  destruct (rstrip s) as [|d r].
  - destruct (isspace c); [done|]. simpl. by rewrite Hc.
  - simpl in *. by rewrite Hc, IH.
Qed.

Lemma rstrip_rstrip (s : string) : rstrip (rstrip s) = rstrip s.
Proof.
  induction s as [|c s IH]; [done|]. simpl.
  destruct (rstrip s) as [|d r] eqn:Hr.
  - destruct (isspace c) eqn:Hc; [done|]. simpl. by rewrite Hc.
  - simpl. simpl in IH. by rewrite IH.
Qed.

Lemma lstrip_head (s : string) :
  lstrip s = EmptyString ∨ exists c r, lstrip s = String c r ∧ isspace c = false.
Proof.
  induction s as [|c s IH]; [by left|]. simpl.
  destruct (isspace c) eqn:Hc; [done|]. right. by exists c, s.
Qed.

Lemma rstrip_keeps_head (c : ascii) (s : string) :
  isspace c = false -> exists r, rstrip (String c s) = String c r.
Proof.
  intros Hc. simpl. destruct (rstrip s) as [|d r].
  - rewrite Hc. by eexists.
  - by eexists.
Qed.

Lemma strip_strip (s : string) : strip (strip s) = strip s.
Proof.
  unfold strip. destruct (lstrip_head s) as [->|(c & r & -> & Hc)]; [done|].
  destruct (rstrip_keeps_head c r Hc) as [r' Hr]. rewrite Hr.
  simpl lstrip. rewrite Hc. rewrite <- Hr. apply rstrip_rstrip.
Qed.

(** X2. What the mapping holds under [document_id], [version] and [title]
    is well formed: an identifier is not empty and made of word characters
    and hyphens, a version is not empty and made of digits and dots, and a
    title holds no line break and no white space at either end (it can be
    empty). *)
Theorem extract_metadata_values_well_formed (content file_path : string) :
  let metadata := _extract_metadata content file_path in
  (forall v, metadata !! "document_id" = Some v ->
     exists id, v = VStr id ∧ id ≠ EmptyString ∧ all_chars Re.word_or_hyphen id = true)
  ∧ (forall v, metadata !! "version" = Some v ->
       exists n, v = VStr n ∧ n ≠ EmptyString ∧ all_chars Re.digit_or_dot n = true)
  ∧ (forall v, metadata !! "title" = Some v ->
       exists t, v = VStr t ∧ all_chars Re.any_but_newline t = true ∧ strip t = t).
Proof.
  destruct (extract_metadata_lookups content file_path)
    as (_ & _ & _ & Hid & Htitle & Hversion).
  simpl in *. split; [|split].
  - intros v Hv. rewrite Hid in Hv.
    destruct (Re.search Re.doc_id_re content) as [g|] eqn:Hg; [|done].
    injection Hv as <-. exists g. split; [done|].
    exact (search_label_group "Document ID:" _ content g Hg).
  - intros v Hv. rewrite Hversion in Hv.
    destruct (Re.search Re.version_re content) as [g|] eqn:Hg; [|done].
    injection Hv as <-. exists g. split; [done|].
    exact (search_label_group "Version:" _ content g Hg).
  - intros v Hv. rewrite Htitle in Hv.
    destruct (Re.search Re.title_re content) as [g|] eqn:Hg; [|done].
    injection Hv as <-. exists (strip g). split; [done|].
    apply (search_label_group "Title:") in Hg as [_ Hall]. split.
    + by apply all_chars_rstrip, all_chars_lstrip.
    + apply strip_strip.
Qed.

Lemma extract_metadata_values_well_formed_witness :
  exists id,
    VStr "SOP-042" = VStr id ∧ id ≠ EmptyString
    ∧ all_chars Re.word_or_hyphen id = true.
Proof.
  destruct (extract_metadata_values_well_formed (sample_head +:+ "Version: 1.2")
              "Data/Documents/a.md") as (Hid & _ & _).
  apply Hid. vm_compute. reflexivity.
Defined.

(** ** [DocumentIngestor.chunk_documents] *)

Lemma split_documents_app {Vec Score} (env : Env Vec Score) (self : DocumentIngestor)
    (docs1 docs2 : list Document) :
  split_documents env self (docs1 ++ docs2)
  = split_documents env self docs1 ++ split_documents env self docs2.
Proof. unfold split_documents. apply flat_map_app. Qed.

Lemma split_documents_parent {Vec Score} (env : Env Vec Score) (self : DocumentIngestor)
    (docs : list Document) (c : Document) :
  c ∈ split_documents env self docs ->
  exists d, d ∈ docs
            ∧ metadata c = metadata d
            ∧ page_content c
              ∈ split_text env (ing_chunk_size self) (ing_chunk_overlap self)
                  (ing_separators self) (page_content d).
Proof.
  unfold split_documents. rewrite list_elem_of_In, in_flat_map.
  intros (d & Hd & Hc). apply list_elem_of_In in Hd.
  apply in_map_iff in Hc as (text & <- & Htext). apply list_elem_of_In in Htext.
  by exists d.
Qed.

Lemma chunk_documents_texts {Vec Score} (env : Env Vec Score) (self : DocumentIngestor)
    (docs : list Document) :
  map page_content (chunk_documents env self docs)
  = flat_map (fun d => split_text env (ing_chunk_size self) (ing_chunk_overlap self)
                         (ing_separators self) (page_content d)) docs.
Proof.
  unfold chunk_documents. cbv zeta.
  transitivity (map page_content (split_documents env self docs)).
  - apply list_eq. intros i. rewrite !list_lookup_fmap, list_lookup_imap.
    by destruct (split_documents env self docs !! i).
  - unfold split_documents. induction docs as [|d docs IH]; [done|]. simpl.
    rewrite map_app, IH, map_map. simpl. by rewrite map_id.
Qed.

(** X3. The chunks are those of the splitter, in its order, one for each
    text the splitter makes of each document: the [j]-th text of a
    document comes [j] places after the chunks of the documents before it,
    with the metadata of its document and [chunk_id] set to its position
    in the whole batch (numbering runs on across documents, it does not
    restart). *)
Theorem chunk_ids_number_the_batch {Vec Score : Type} (env : Env Vec Score)
    (self : DocumentIngestor) (docs1 docs2 : list Document) :
  length (chunk_documents env self docs2) = length (split_documents env self docs2)
  ∧ (forall i c,
       chunk_documents env self docs2 !! i = Some c ->
       metadata c !! "chunk_id" = Some (VInt (Z.of_nat i))
       ∧ exists d,
           d ∈ docs2
           ∧ page_content c
             ∈ split_text env (ing_chunk_size self) (ing_chunk_overlap self)
                 (ing_separators self) (page_content d)
           ∧ forall key, key ≠ "chunk_id" -> metadata c !! key = metadata d !! key)
  ∧ (forall i c,
       chunk_documents env self docs2 !! i = Some c ->
       exists c',
         chunk_documents env self (docs1 ++ docs2)
           !! (length (chunk_documents env self docs1) + i) = Some c'
         ∧ page_content c' = page_content c
         ∧ metadata c' !! "chunk_id"
           = Some (VInt (Z.of_nat (length (chunk_documents env self docs1) + i))))
  ∧ map page_content (chunk_documents env self docs2)
    = flat_map (fun d => split_text env (ing_chunk_size self) (ing_chunk_overlap self)
                           (ing_separators self) (page_content d)) docs2
  ∧ (forall d j text,
       split_text env (ing_chunk_size self) (ing_chunk_overlap self)
         (ing_separators self) (page_content d) !! j = Some text ->
       chunk_documents env self (docs1 ++ d :: docs2)
         !! (length (chunk_documents env self docs1) + j)
       = Some (mkDocument text
                 (<["chunk_id" := VInt (Z.of_nat (length (chunk_documents env self docs1)
                                                  + j))]>
                    (metadata d)))).
Proof.
  split; [apply length_imap|]. split; [|split; [|split; [apply chunk_documents_texts|]]].
  - unfold chunk_documents. intros i c. rewrite list_lookup_imap.
    destruct (split_documents env self docs2 !! i) as [c0|] eqn:Hc0; [|done].
    simpl. intros [= <-]. simpl. split; [apply lookup_insert_eq|].
    assert (Hin : c0 ∈ split_documents env self docs2)
      by (apply list_elem_of_lookup; by exists i).
    apply split_documents_parent in Hin as (d & Hd & Hmeta & Htext).
    exists d. split; [done|]. split; [done|].
    intros key Hkey. rewrite lookup_insert_ne by done. by rewrite Hmeta.
  - unfold chunk_documents. intros i c.
    rewrite !list_lookup_imap, length_imap, split_documents_app.
    rewrite lookup_app_r by lia.
    replace (length (split_documents env self docs1) + i
             - length (split_documents env self docs1)) with i by lia.
    destruct (split_documents env self docs2 !! i) as [c0|]; [|done].
    simpl. intros [= <-]. eexists. split; [reflexivity|]. simpl.
    split; [done|apply lookup_insert_eq].
  - unfold chunk_documents. intros d j text Htext.
    rewrite list_lookup_imap, length_imap, split_documents_app.
    rewrite lookup_app_r by lia.
    replace (length (split_documents env self docs1) + j
             - length (split_documents env self docs1)) with j by lia.
    unfold split_documents at 2. simpl. rewrite lookup_app_l.
    + by rewrite list_lookup_fmap, Htext.
    + rewrite length_map. by apply lookup_lt_Some in Htext.
Qed.

Lemma chunk_ids_number_the_batch_witness :
  exists c',
    chunk_documents (env_double nearest "unused" no_fault) (DocumentIngestor_init "HC")
      ([chunk_A1; chunk_B] ++ [chunk_leave]) !! (2 + 0) = Some c'
    ∧ page_content c' = "Annual leave is twelve days."
    ∧ metadata c' !! "chunk_id" = Some (VInt 2).
Proof.
  destruct (chunk_ids_number_the_batch (env_double nearest "unused" no_fault)
              (DocumentIngestor_init "HC") [chunk_A1; chunk_B] [chunk_leave])
    as (_ & _ & Hbatch & _).
  destruct (Hbatch 0
              (mkDocument "Annual leave is twelve days."
                 (<["chunk_id" := VInt 0]> (metadata chunk_leave))) eq_refl)
    as (c' & Hlookup & Htext & Hid).
  exists c'. split; [exact Hlookup|]. split; [exact Htext|exact Hid].
Defined.

(** ** [BaseAgent._format_context] *)

Lemma startswith_app (p rest : string) : startswith (p +:+ rest) p = true.
Proof.
  induction p as [|c p IH]; [by destruct rest|].
  rewrite str_app_cons. simpl. by rewrite Ascii.eqb_refl.
Qed.

Lemma str_in_here (sub rest : string) : str_in sub (sub +:+ rest) = true.
Proof.
  destruct (sub +:+ rest) eqn:Happ; cbn [str_in]; rewrite <- Happ, startswith_app; done.
Qed.

Lemma str_in_after (sub before rest : string) :
  str_in sub rest = true -> str_in sub (before +:+ rest) = true.
Proof.
  intros Hin. induction before as [|c before IH]; [done|].
  rewrite str_app_cons. cbn [str_in]. rewrite IH. apply orb_true_r.
Qed.

Lemma str_in_refl (s : string) : str_in s s = true.
Proof. rewrite <- (str_app_nil_r s) at 2. apply str_in_here. Qed.

Lemma startswith_app_l (a b p : string) :
  startswith a p = true -> startswith (a +:+ b) p = true.
Proof.
  revert p. induction a as [|c a IH]; intros [|x p]; try done.
  - intros _. by destruct b.
  - rewrite str_app_cons. simpl. destruct (Ascii.eqb x c); [apply IH|done].
Qed.

Lemma str_in_before (sub a b : string) :
  str_in sub a = true -> str_in sub (a +:+ b) = true.
Proof.
  induction a as [|c a IH]; cbn [str_in]; intros Hin.
  - apply orb_true_iff in Hin as [Hin|Hin]; [|done].
    destruct sub; [|done]. destruct b; reflexivity.
  - rewrite str_app_cons. cbn [str_in].
    apply orb_true_iff in Hin as [Hin|Hin].
    + rewrite <- str_app_cons, (startswith_app_l _ _ _ Hin). done.
    + rewrite (IH Hin). apply orb_true_r.
Qed.

Lemma join_snoc (sep : string) (parts : list string) (x : string) :
  Py.join sep (parts ++ [x])
  = match parts with
    | [] => x
    | _ => Py.join sep parts +:+ sep +:+ x
    end.
Proof.
  induction parts as [|p parts IH]; [reflexivity|].
  destruct parts as [|q parts]; [reflexivity|].
  change (Py.join sep ((p :: q :: parts) ++ [x]))
    with (p +:+ sep +:+ Py.join sep ((q :: parts) ++ [x])).
  rewrite IH.
  change (Py.join sep (p :: q :: parts)) with (p +:+ sep +:+ Py.join sep (q :: parts)).
  by rewrite !str_app_assoc.
Qed.

(** X4. The context is built chunk by chunk in retrieval order: no chunk
    gives the empty text, and one more chunk adds, after a line break, its
    block, numbered one above the number of chunks before it; so the block
    of every chunk, with its identifier, title and text, is in the
    context. *)
Theorem format_context_appends_numbered_blocks (docs : list Document) (d : Document) :
  _format_context [] = EmptyString
  ∧ _format_context (docs ++ [d])
    = match docs with
      | [] => context_part 1 d
      | _ => _format_context docs +:+ nl +:+ context_part (S (length docs)) d
      end
  ∧ (forall i doc,
       docs !! i = Some doc ->
       str_in (context_part (S i) doc) (_format_context docs) = true).
Proof.
  split; [reflexivity|].
  assert (Hsnoc : forall l x,
    _format_context (l ++ [x])
    = match l with
      | [] => context_part 1 x
      | _ => _format_context l +:+ nl +:+ context_part (S (length l)) x
      end).
  { intros l x. unfold _format_context. rewrite imap_app. simpl.
    rewrite join_snoc, Nat.add_0_r. by destruct l. }
  split; [apply Hsnoc|].
  induction docs as [|x docs IH] using rev_ind; intros i doc Hi; [done|].
  rewrite Hsnoc. destruct (decide (i < length docs)) as [Hlt|Hge].
  - rewrite lookup_app_l in Hi by done. specialize (IH i doc Hi).
    destruct docs as [|y docs]; [simpl in Hlt; lia|].
    by apply str_in_before.
  - assert (i = length docs) as ->.
    { apply lookup_lt_Some in Hi. rewrite length_app in Hi. simpl in Hi. lia. }
    rewrite list_lookup_middle in Hi by done. injection Hi as ->.
    destruct docs as [|y docs]; [apply str_in_refl|].
    apply str_in_after, str_in_after, str_in_refl.
Qed.

Lemma format_context_appends_numbered_blocks_witness :
  str_in (context_part 2 chunk_B) (_format_context [chunk_A1; chunk_B; chunk_A2]) = true.
Proof.
  destruct (format_context_appends_numbered_blocks [chunk_A1; chunk_B; chunk_A2] chunk_A1)
    as (_ & _ & Hblock).
  apply (Hblock 1 chunk_B). reflexivity.
Defined.

(** ** [BaseAgent._extract_sources], continued *)

Lemma extract_loop_seen (docs : list Document) :
  forall (acc : list (gmap string pyval) * gset pyval) (x : pyval),
    x ∈ (foldl extract_step acc docs).2 <-> x ∈ acc.2 ∨ x ∈ map doc_id_of docs.
Proof.
  induction docs as [|d docs IH]; intros acc x; simpl.
  - rewrite elem_of_nil. tauto.
  - rewrite IH. unfold extract_step. fold (doc_id_of d).
    destruct (decide (doc_id_of d ∈ acc.2)) as [Hin|Hout]; simpl.
    + rewrite elem_of_cons. split; [tauto|]. intros [?|[->|?]]; tauto.
    + rewrite elem_of_union, elem_of_singleton, elem_of_cons. tauto.
Qed.

(** X5. More chunks never change the citations found so far: the sources
    of a longer chunk sequence are those of its first part followed by the
    first-seen citations of the rest whose identifier the first part did
    not have; there are never more citations than chunks, and there is one
    as soon as there is a chunk. *)
Theorem extract_sources_extends (docs1 docs2 : list Document) :
  _extract_sources (docs1 ++ docs2)
  = _extract_sources docs1
    ++ map source_entry
         (filter (fun d => doc_id_of d ∉ map doc_id_of docs1) (first_by_id docs2))
  ∧ length (_extract_sources docs1) <= length docs1
  ∧ (docs1 ≠ [] -> _extract_sources docs1 ≠ []).
Proof.
  split; [|split].
  - unfold _extract_sources. rewrite foldl_app.
    destruct (foldl extract_step ([], ∅) docs1) as [sources seen] eqn:Hfold.
    rewrite extract_step_sources, extract_loop_first_by_id. simpl. f_equal. f_equal.
    apply list_filter_iff. intros d.
    pose proof (extract_loop_seen docs1 ([], ∅) (doc_id_of d)) as Hseen.
    rewrite Hfold in Hseen. simpl in Hseen. rewrite Hseen.
    split; intros Hnot Hin; apply Hnot; [by right|].
    destruct Hin as [Hin|Hin]; [by apply elem_of_empty in Hin|done].
  - rewrite extract_sources_first_by_id, length_map.
    apply sublist_length, first_by_id_sublist.
  - rewrite extract_sources_first_by_id. by destruct docs1.
Qed.

Lemma extract_sources_extends_witness :
  _extract_sources [chunk_A1; chunk_B] ≠ [].
Proof.
  destruct (extract_sources_extends [chunk_A1; chunk_B] [chunk_A2]) as (_ & _ & Hnonempty).
  apply Hnonempty. discriminate.
Defined.

(** ** What a successful query returns *)

Lemma SOP_query_success {Vec Score} (env : Env Vec Score) (SOP_SYSTEM_PROMPT : string)
    (self : SOPAgent) (question : string) (w w' : World Vec) (result : QueryResult) :
  SOP_query env SOP_SYSTEM_PROMPT self question w = (inr result, w') ->
  exists found,
    similarity_search_with_score env (sop_vectorstore self) question SOP_TOP_K = inr found
    ∧ sources result = _extract_sources (map fst found)
    ∧ chunks result = length found.
Proof.
  unfold SOP_query, SOP_generate_answer, mbind, M_bind, log, modify, lift_result.
  simpl. destruct (similarity_search_with_score env _ _ _) as [e|found]; [done|].
  intros H. exists found. split; [done|].
  destruct found as [|dws found]; [by injection H as <- _|].
  destruct (llm_invoke env _); [done|]. injection H as <- _. simpl.
  by rewrite length_map.
Qed.

Lemma HC_query_success {Vec Score} (env : Env Vec Score)
    (self : HCAgent) (question : string) (w w' : World Vec) (result : QueryResult) :
  HC_query env self question w = (inr result, w') ->
  exists chain found,
    hc_qa_chain self = Some chain
    ∧ similarity_search_with_score env (chain_store chain) question (chain_k chain)
      = inr found
    ∧ sources result = map hc_source_entry (map fst found)
    ∧ chunks result = length found.
Proof.
  unfold HC_query, RetrievalQA_invoke, mbind, M_bind, log, modify, lift_result.
  destruct (hc_qa_chain self) as [chain|]; [|done]. simpl.
  destruct (similarity_search_with_score env _ _ _) as [e|found] eqn:Hfound; [done|].
  destruct (llm_invoke env _); [done|]. intros H. injection H as <- _.
  exists chain, found. simpl. by rewrite !length_map.
Qed.

(** X6. In the result of a successful query the chunk count is the number
    of chunks retrieval returned.  The SOP agent never lists more sources
    than chunks, and lists none exactly when no chunk was retrieved; the
    HC agent lists exactly as many sources as chunks. *)
Theorem query_sources_and_chunk_count {Vec Score : Type} (env : Env Vec Score)
    (SOP_SYSTEM_PROMPT question : string) (w w' : World Vec) (result : QueryResult) :
  (forall self : SOPAgent,
     SOP_query env SOP_SYSTEM_PROMPT self question w = (inr result, w') ->
     length (sources result) <= chunks result
     ∧ (sources result = [] <-> chunks result = 0)
     ∧ exists found,
         similarity_search_with_score env (sop_vectorstore self) question SOP_TOP_K
         = inr found
         ∧ chunks result = length found)
  ∧ (forall self : HCAgent,
       HC_query env self question w = (inr result, w') ->
       length (sources result) = chunks result
       ∧ exists chain found,
           hc_qa_chain self = Some chain
           ∧ similarity_search_with_score env (chain_store chain) question (chain_k chain)
             = inr found
           ∧ chunks result = length found).
Proof.
  split.
  - intros self Hrun.
    apply SOP_query_success in Hrun as (found & Hfound & Hsources & Hchunks).
    rewrite Hsources, Hchunks, extract_sources_first_by_id, length_map.
    split; [|split; [|by exists found]].
    + rewrite <- (length_map fst found). apply sublist_length, first_by_id_sublist.
    + by destruct found.
  - intros self Hrun.
    apply HC_query_success in Hrun as (chain & found & Hchain & Hfound & Hsources & Hchunks).
    rewrite Hsources, Hchunks, !length_map. split; [done|]. by exists chain, found.
Qed.

Lemma query_sources_and_chunk_count_witness :
  length [source_entry chunk_A1; source_entry chunk_B] <= 3.
Proof.
  destruct (query_sources_and_chunk_count (env_double nearest "5 Nm" no_fault) "system"
              "What is the capping torque?" empty_world
              (SOP_query (env_double nearest "5 Nm" no_fault) "system"
                 (mkSOPAgent store_ABA) "What is the capping torque?" empty_world).2
              (mkQueryResult "5 Nm" [source_entry chunk_A1; source_entry chunk_B] 3))
    as [Hsop _].
  destruct (Hsop (mkSOPAgent store_ABA)) as [Hle _]; [|exact Hle].
  vm_compute. reflexivity.
Defined.

(** ** The ask endpoints *)

Lemma SOP_query_only_queries {Vec Score} (env : Env Vec Score) (SOP_SYSTEM_PROMPT : string)
    (self : SOPAgent) (question : string) (w w' : World Vec) r :
  SOP_query env SOP_SYSTEM_PROMPT self question w = (r, w') -> only_queries w w'.
Proof.
  unfold SOP_query, SOP_generate_answer, mbind, M_bind, log, modify, lift_result,
    only_queries.
  simpl. destruct (similarity_search_with_score env _ _ _) as [e|[|dws found]].
  - intros [= _ <-]. simpl. repeat split. eexists. split; [done|]. by repeat constructor.
  - intros [= _ <-]. simpl. repeat split. eexists. split; [done|]. by repeat constructor.
  - destruct (llm_invoke env _); intros [= _ <-]; simpl; repeat split;
      exists [EvSearch question SOP_TOP_K;
              EvChat [(System, SOP_SYSTEM_PROMPT);
                      (Human, SOP_RESPONSE_TEMPLATE_format
                                (_format_context (map fst (dws :: found))) question)]];
      (split; [by rewrite <- app_assoc|by repeat constructor]).
Qed.

Lemma HC_query_only_queries {Vec Score} (env : Env Vec Score)
    (self : HCAgent) (question : string) (w w' : World Vec) r :
  HC_query env self question w = (r, w') -> only_queries w w'.
Proof.
  unfold HC_query, RetrievalQA_invoke, mbind, M_bind, log, modify, lift_result,
    only_queries.
  destruct (hc_qa_chain self) as [chain|].
  - simpl. destruct (similarity_search_with_score env _ _ _) as [e|found].
    + intros [= _ <-]. simpl. repeat split. eexists. split; [done|].
      by repeat constructor.
    + destruct (llm_invoke env _); intros [= _ <-]; simpl; repeat split;
        exists [EvSearch question (chain_k chain);
                EvChat [(Human, HC_RESPONSE_TEMPLATE_format
                                  (Py.join (nl +:+ nl) (map page_content (map fst found)))
                                  question)]];
        (split; [by rewrite <- app_assoc|by repeat constructor]).
  - intros [= _ <-]. repeat split. exists []. split; [by rewrite app_nil_r|constructor].
Qed.

(** X7. Asking never changes the process: whatever the outcome, the two
    agent variables, the disk and the environment are as before, and the
    only calls made are the search and the chat model.  With the agent
    variable unset the answer is HTTP 400 with the fixed message of the
    endpoint, and nothing at all happened.  With the agent variable set
    the answer is what the agent's [query] gives: its result, labelled
    with the agent's name, or, when [query] raises, HTTP 500 whose detail
    is the text of that exception. *)
Theorem ask_endpoints_are_read_only {Vec Score : Type} (env : Env Vec Score)
    (SOP_SYSTEM_PROMPT question : string) (app app' : App Vec)
    (r : exn + AnswerResponse) :
  ask_sop_question env SOP_SYSTEM_PROMPT question app = (r, app')
  ∨ ask_hc_question env question app = (r, app') ->
  sop_agent app' = sop_agent app
  ∧ hc_agent app' = hc_agent app
  ∧ only_queries (world app) (world app')
  ∧ (forall e, r = inl e ->
       exists detail,
         (e = HTTPException 400 detail ∧ app' = app) ∨ e = HTTPException 500 detail)
  ∧ (ask_sop_question env SOP_SYSTEM_PROMPT question app = (r, app') ->
     match sop_agent app with
     | None =>
         r = inl (HTTPException 400
                    "SOP Agent not initialized. Please run: python ingest_unified.py sop")
         ∧ app' = app
     | Some agent =>
         match (SOP_query env SOP_SYSTEM_PROMPT agent question (world app)).1 with
         | inl e => r = inl (HTTPException 500 (exn_str e))
         | inr result =>
             r = inr (mkAnswerResponse (answer result) (sources result) (chunks result)
                        "SOP Assistant")
         end
     end)
  ∧ (ask_hc_question env question app = (r, app') ->
     match hc_agent app with
     | None =>
         r = inl (HTTPException 400
                    "HC Agent not initialized. Please upload a document first.")
         ∧ app' = app
     | Some agent =>
         match (HC_query env agent question (world app)).1 with
         | inl e => r = inl (HTTPException 500 (exn_str e))
         | inr result =>
             r = inr (mkAnswerResponse (answer result) (sources result) (chunks result)
                        "Human Capital Assistant")
         end
     end).
Proof.
  intros Hrun.
  assert (Hsop : ask_sop_question env SOP_SYSTEM_PROMPT question app = (r, app') ->
                 match sop_agent app with
                 | None =>
                     r = inl (HTTPException 400
                                "SOP Agent not initialized. Please run: python ingest_unified.py sop")
                     ∧ app' = app
                 | Some agent =>
                     match (SOP_query env SOP_SYSTEM_PROMPT agent question (world app)).1
                     with
                     | inl e => r = inl (HTTPException 500 (exn_str e))
                     | inr result =>
                         r = inr (mkAnswerResponse (answer result) (sources result)
                                    (chunks result) "SOP Assistant")
                     end
                 end).
  { unfold ask_sop_question, mbind, M_bind, get_state, try_except, in_app, raise.
    destruct (sop_agent app) as [agent|]; [|by intros [= <- <-]].
    by destruct (SOP_query env SOP_SYSTEM_PROMPT agent question (world app))
      as [[e0|result] w']; simpl; intros [= <- <-]. }
  assert (Hhc : ask_hc_question env question app = (r, app') ->
                match hc_agent app with
                | None =>
                    r = inl (HTTPException 400
                               "HC Agent not initialized. Please upload a document first.")
                    ∧ app' = app
                | Some agent =>
                    match (HC_query env agent question (world app)).1 with
                    | inl e => r = inl (HTTPException 500 (exn_str e))
                    | inr result =>
                        r = inr (mkAnswerResponse (answer result) (sources result)
                                   (chunks result) "Human Capital Assistant")
                    end
                end).
  { unfold ask_hc_question, mbind, M_bind, get_state, try_except, in_app, raise.
    destruct (hc_agent app) as [agent|]; [|by intros [= <- <-]].
    by destruct (HC_query env agent question (world app))
      as [[e0|result] w']; simpl; intros [= <- <-]. }
  split; [|split; [|split; [|split; [|by split]]]]; clear Hsop Hhc;
    destruct Hrun as [Hrun|Hrun]; revert Hrun.
  all: try (unfold ask_sop_question, mbind, M_bind, get_state, try_except, in_app, raise;
            destruct (sop_agent app) as [agent|] eqn:Hagent;
            [destruct (SOP_query env SOP_SYSTEM_PROMPT agent question (world app))
               as [[e0|result] w'] eqn:Hquery;
             apply SOP_query_only_queries in Hquery; simpl; intros [= <- <-]; simpl;
             try done; try apply Hquery;
             try (intros e [= <-]; eexists; by right)
            |intros [= <- <-]; try done;
             try (repeat split; exists []; split; [by rewrite app_nil_r|constructor]);
             try (intros e [= <-]; eexists; by left)]).
  all: unfold ask_hc_question, mbind, M_bind, get_state, try_except, in_app, raise;
    destruct (hc_agent app) as [agent|] eqn:Hagent;
    [destruct (HC_query env agent question (world app))
       as [[e0|result] w'] eqn:Hquery;
     apply HC_query_only_queries in Hquery; simpl; intros [= <- <-]; simpl;
     try done; try apply Hquery;
     try (intros e [= <-]; eexists; by right)
    |intros [= <- <-]; try done;
     try (repeat split; exists []; split; [by rewrite app_nil_r|constructor]);
     try (intros e [= <-]; eexists; by left)].
Qed.

Lemma ask_endpoints_are_read_only_witness :
  hc_agent (ask_hc_question (env_double nearest "Twelve days." no_fault)
              "How long is annual leave?" app_ready).2
  = hc_agent app_ready
  ∧ fs (world (ask_hc_question (env_double nearest "Twelve days." no_fault)
                 "How long is annual leave?" app_ready).2)
    = fs (world app_ready).
Proof.
  destruct (ask_endpoints_are_read_only (env_double nearest "Twelve days." no_fault)
              "system" "How long is annual leave?" app_ready
              (ask_hc_question (env_double nearest "Twelve days." no_fault)
                 "How long is annual leave?" app_ready).2
              (ask_hc_question (env_double nearest "Twelve days." no_fault)
                 "How long is annual leave?" app_ready).1)
    as (_ & Hhc & (Hfs & _) & _).
  - right. by destruct (ask_hc_question _ _ app_ready).
  - split; [exact Hhc|exact Hfs].
Defined.

(** ** Persisting and loading an index *)

Lemma io_result {Vec Score} (env : Env Vec Score) (ev : Event) (w w' : World Vec) r :
  io env ev w = (r, w') ->
  w' = logged w [ev]
  ∧ (r = inr tt ∧ io_fault env ev = None ∨ exists e, r = inl e ∧ io_fault env ev = Some e).
Proof.
  unfold io, log, modify, mbind, M_bind, raise, mret, M_ret. simpl.
  destruct (io_fault env ev) as [e|]; intros [= <- <-]; (split; [done|]);
    [right; by exists e|by left].
Qed.

Lemma write_file_success {Vec Score} (env : Env Vec Score) (ev : Event) (p : string)
    (data : FileData) (w w' : World Vec) :
  write_file env ev p data w = (inr tt, w') ->
  fs w' = <[p := File data]> (fs w)
  ∧ environ w' = environ w
  ∧ trace w' = trace w ++ [ev].
Proof.
  unfold write_file. unfold mbind at 1, M_bind at 1.
  destruct (io env ev w) as [[e|[]] w1] eqn:Hio; [done|].
  apply io_result in Hio as [-> _].
  unfold mbind, M_bind, get_state, raise, mret, M_ret, set_fs, modify. simpl.
  destruct (Path.parent p) as [d|].
  - destruct (fs w !! d) as [[|?]|]; try done;
      destruct (fs w !! p) as [[|?]|]; try done; by intros [= <-].
  - destruct (fs w !! p) as [[|?]|]; try done; by intros [= <-].
Qed.

Lemma index_files_differ (folder : string) :
  Path.join folder "index.faiss" ≠ Path.join folder "index.pkl".
Proof.
  unfold Path.join.
  change (startswith "index.faiss" "/") with false.
  change (startswith "index.pkl" "/") with false. cbv iota.
  destruct folder as [|c folder]; [done|].
  destruct (endswith (String c folder) "/"); intros Heq;
    apply (inj (String.append (String c folder))) in Heq; discriminate.
Qed.

Lemma FAISS_save_local_success {Vec Score} (env : Env Vec Score) (index : Index)
    (folder : string) (w w' : World Vec) :
  FAISS_save_local env index folder w = (inr tt, w') ->
  fs w' !! Path.join folder "index.faiss" = Some (File (FaissIndex (map fst index)))
  ∧ fs w' !! Path.join folder "index.pkl" = Some (File (Pickle (map snd index))).
Proof.
  unfold FAISS_save_local, mbind, M_bind.
  destruct (makedirs env folder w) as [[e|[]] w1]; [done|].
  destruct (write_file env _ _ _ w1) as [[e|[]] w2] eqn:Hfaiss; [done|].
  intros Hpkl.
  apply write_file_success in Hfaiss as (Hfs2 & _ & _).
  apply write_file_success in Hpkl as (Hfs' & _ & _).
  rewrite Hfs', Hfs2. split.
  - rewrite lookup_insert_ne by (intros Heq; by apply (index_files_differ folder)).
    apply lookup_insert_eq.
  - apply lookup_insert_eq.
Qed.

Lemma FAISS_load_local_reads {Vec Score} (env : Env Vec Score) (folder : string)
    (w : World Vec) (vectors : list Vec) (docs : list Document) :
  fs w !! Path.join folder "index.faiss" = Some (File (FaissIndex vectors)) ->
  fs w !! Path.join folder "index.pkl" = Some (File (Pickle docs)) ->
  (forall index w',
     FAISS_load_local env folder w = (inr index, w') -> index = zip vectors docs)
  ∧ (io_fault env (EvReadIndex (Path.join folder "index.faiss")) = None ->
     io_fault env (EvReadFile (Path.join folder "index.pkl")) = None ->
     FAISS_load_local env folder w
     = (inr (zip vectors docs),
        logged w [EvReadIndex (Path.join folder "index.faiss");
                  EvReadFile (Path.join folder "index.pkl")])).
Proof.
  intros Hfaiss Hpkl.
  unfold FAISS_load_local, read_file, io, log, modify,
    mbind, M_bind, get_state, raise, mret, M_ret.
  simpl. split.
  - intros index w'.
    destruct (io_fault env (EvReadIndex _)); [done|]. simpl. rewrite Hfaiss.
    destruct (io_fault env (EvReadFile _)); [done|]. simpl. rewrite Hpkl.
    by intros [= <- _].
  - intros -> ->. simpl. rewrite Hfaiss. simpl. rewrite Hpkl. unfold logged. simpl.
    by rewrite <- app_assoc.
Qed.

(** X8. What [save_vectorstore] wrote, [load_vectorstore] reads back: after
    a successful save of an ingestor's store under a path, loading from
    that path (the disk reads not failing) gives any ingestor that same
    store.  An ingestor that has built no store saves nothing: the call
    succeeds and leaves the world as it was. *)
Theorem save_then_load_vectorstore {Vec Score : Type} (env : Env Vec Score)
    (self other : DocumentIngestor) (path : string) (w w' : World Vec) :
  (ing_vectorstore self = None -> save_vectorstore env self (Some path) w = (inr tt, w))
  ∧ (forall v,
       ing_vectorstore self = Some v ->
       save_vectorstore env self (Some path) w = (inr tt, w') ->
       io_fault env (EvReadIndex (Path.join path "index.faiss")) = None ->
       io_fault env (EvReadFile (Path.join path "index.pkl")) = None ->
       load_vectorstore env other (Some path) w'
       = (inr (set_vectorstore other v),
          logged w' [EvReadIndex (Path.join path "index.faiss");
                     EvReadFile (Path.join path "index.pkl")])).
Proof.
  split.
  - intros Hnone. unfold save_vectorstore. by rewrite Hnone.
  - intros v Hsome Hsave Hfault1 Hfault2.
    unfold save_vectorstore in Hsave. rewrite Hsome in Hsave. simpl in Hsave.
    unfold mbind, M_bind in Hsave.
    destruct (match Path.parent path with
              | Some d => makedirs env d
              | None => mret tt
              end w) as [[e|[]] w1]; [done|].
    apply FAISS_save_local_success in Hsave as [Hfaiss Hpkl].
    destruct (FAISS_load_local_reads env path w' _ _ Hfaiss Hpkl) as [_ Hload].
    unfold load_vectorstore, mbind, M_bind. simpl.
    rewrite (Hload Hfault1 Hfault2). unfold mret, M_ret.
    by rewrite zip_fst_snd.
Qed.

Lemma save_then_load_vectorstore_witness :
  (load_vectorstore (env_double nearest "unused" no_fault)
     (DocumentIngestor_init "HC") (Some "data/vectorstore/hc_faiss_index")
     (save_vectorstore (env_double nearest "unused" no_fault)
        (set_vectorstore (DocumentIngestor_init "HC") [(tt, chunk_leave)])
        (Some "data/vectorstore/hc_faiss_index") empty_world).2).1
  = inr (set_vectorstore (DocumentIngestor_init "HC") [(tt, chunk_leave)]).
Proof.
  assert (Hsave :
    save_vectorstore (env_double nearest "unused" no_fault)
      (set_vectorstore (DocumentIngestor_init "HC") [(tt, chunk_leave)])
      (Some "data/vectorstore/hc_faiss_index") empty_world
    = (inr tt,
       (save_vectorstore (env_double nearest "unused" no_fault)
          (set_vectorstore (DocumentIngestor_init "HC") [(tt, chunk_leave)])
          (Some "data/vectorstore/hc_faiss_index") empty_world).2))
    by (vm_compute; reflexivity).
  destruct (save_then_load_vectorstore (env_double nearest "unused" no_fault)
              (set_vectorstore (DocumentIngestor_init "HC") [(tt, chunk_leave)])
              (DocumentIngestor_init "HC") "data/vectorstore/hc_faiss_index" empty_world
              (save_vectorstore (env_double nearest "unused" no_fault)
                 (set_vectorstore (DocumentIngestor_init "HC") [(tt, chunk_leave)])
                 (Some "data/vectorstore/hc_faiss_index") empty_world).2)
    as [_ Hload].
  by rewrite (Hload [(tt, chunk_leave)] eq_refl Hsave eq_refl eq_refl).
Defined.

(** ** [HCAgent.initialize] and the outcomes of an upload *)

Lemma HC_initialize_outcome {Vec Score} (env : Env Vec Score) (w w' : World Vec)
    (self self' : HCAgent) r :
  HC_initialize env (w, self) = (r, (w', self')) ->
  (r = inr tt ->
   exists v,
     FAISS_load_local env (hc_vectorstore_path self) w = (inr v, w')
     ∧ is_Some (fs w !! hc_vectorstore_path self)
     ∧ self' = hc_ready_on (hc_vectorstore_path self) v)
  ∧ (forall e, r = inl e -> self' = self).
Proof.
  unfold HC_initialize, HC_load_vectorstore, HC_create_qa_chain, on_world, path_exists,
    get_self, set_self, mbind, M_bind, get_state, raise, mret, M_ret.
  simpl. destruct (decide (is_Some (fs w !! hc_vectorstore_path self))) as [Hyes|Hno].
  - rewrite bool_decide_eq_true_2 by done. simpl.
    destruct (FAISS_load_local env (hc_vectorstore_path self) w) as [[e|v] w1] eqn:Hload;
      simpl; intros [= <- <- <-]; (split; [|by intros e0 [= <-]]); [done|].
    intros _. by exists v.
  - rewrite bool_decide_eq_false_2 by done. simpl. intros [= <- <- <-].
    split; [done|]. by intros e [= <-].
Qed.

Lemma bind_success {S A B} (c : M S A) (k : A -> M S B) (s s' : S) (b : B) :
  (c ≫= k) s = (inr b, s') -> exists a s1, c s = (inr a, s1) ∧ k a s1 = (inr b, s').
Proof.
  unfold mbind, M_bind. destruct (c s) as [[e|a] s1]; [done|]. intros Hk. by exists a, s1.
Qed.

Lemma in_app_run {Vec A} (c : M (World Vec) A) (app app' : App Vec) r :
  in_app c app = (r, app') ->
  c (world app) = (r, world app')
  ∧ sop_agent app' = sop_agent app
  ∧ hc_agent app' = hc_agent app.
Proof.
  unfold in_app. destruct (c (world app)) as [r0 w]. by intros [= <- <-].
Qed.

(** *** Building the clients *)

Lemma new_client_outcome {Vec} (fault : Settings -> option exn) (w w' : World Vec) r :
  new_client fault w = (r, w') ->
  w' = w
  ∧ (r = inr tt ∧ fault (Settings_load (environ w)) = None
     ∨ exists e, r = inl e ∧ fault (Settings_load (environ w)) = Some e).
Proof.
  unfold new_client, mbind, M_bind, get_state.
  destruct (fault _) as [e|]; intros [= <- <-]; (split; [done|]);
    [right; by exists e|by left].
Qed.

Lemma BaseAgent_init_outcome {Vec Score} (env : Env Vec Score) (w w' : World Vec) r :
  BaseAgent_init env w = (r, w') ->
  w' = w ∧ (r = inr tt ∧ clients_ok env w ∨ (exists e, r = inl e) ∧ ¬ clients_ok env w).
Proof.
  unfold BaseAgent_init, clients_ok. intros Hrun.
  apply bind_cases in Hrun as [(e & H1 & ->)|([] & w1 & H1 & H2)];
    apply new_client_outcome in H1 as [-> [[? Hchat]|(e1 & ? & Hchat)]]; simplify_eq.
  - split; [done|]. right. split; [by eexists|]. intros [Hok _]. congruence.
  - apply new_client_outcome in H2 as [-> [[-> Hemb]|(e2 & -> & Hemb)]];
      (split; [done|]); [by left|].
    right. split; [by eexists|]. intros [_ Hok]. congruence.
Qed.

Lemma BaseAgent_init_ok {Vec Score} (env : Env Vec Score) (w : World Vec) :
  clients_ok env w -> BaseAgent_init env w = (inr tt, w).
Proof.
  intros [Hchat Hemb].
  unfold BaseAgent_init, new_client, mbind, M_bind, get_state.
  rewrite Hchat. simpl. by rewrite Hemb.
Qed.

Lemma HCAgent_new_outcome {Vec Score} (env : Env Vec Score) (p : option string)
    (w w' : World Vec) r :
  HCAgent_new env p w = (r, w') ->
  w' = w
  ∧ (r = inr (HCAgent_init p) ∧ clients_ok env w
     ∨ (exists e, r = inl e) ∧ ¬ clients_ok env w).
Proof.
  unfold HCAgent_new. intros Hrun.
  apply bind_cases in Hrun as [(e & H1 & ->)|([] & w1 & H1 & H2)];
    apply BaseAgent_init_outcome in H1 as [-> [[? Hok]|[(e1 & ?) Hno]]]; simplify_eq.
  - split; [done|]. right. split; [by eexists|done].
  - injection H2 as <- <-. split; [done|]. by left.
Qed.

Lemma DocumentIngestor_new_outcome {Vec Score} (env : Env Vec Score) (agent_type : string)
    (w w' : World Vec) r :
  DocumentIngestor_new env agent_type w = (r, w') ->
  w' = w
  ∧ (r = inr (DocumentIngestor_init agent_type)
     ∧ AzureOpenAIEmbeddings_new env (Settings_load (environ w)) = None
     ∨ exists e, r = inl e
                 ∧ AzureOpenAIEmbeddings_new env (Settings_load (environ w)) = Some e).
Proof.
  unfold DocumentIngestor_new. intros Hrun.
  apply bind_cases in Hrun as [(e & H1 & ->)|([] & w1 & H1 & H2)];
    apply new_client_outcome in H1 as [-> [[? Hemb]|(e1 & ? & Hemb)]]; simplify_eq.
  - split; [done|]. right. by exists e1.
  - injection H2 as <- <-. split; [done|]. by left.
Qed.

Lemma FAISS_from_documents_success {Vec Score} (env : Env Vec Score)
    (chunks : list Document) (w w' : World Vec) (index : Index) :
  FAISS_from_documents env chunks w = (inr index, w') ->
  exists vectors,
    embed_documents env (map page_content chunks) = inr vectors
    ∧ index = zip vectors chunks.
Proof.
  unfold FAISS_from_documents. intros Hrun.
  apply bind_success in Hrun as ([] & w1 & _ & Hrun).
  apply bind_success in Hrun as (vectors & w2 & Hembed & Hrun).
  unfold lift_result in Hembed. injection Hembed as Hembed _.
  exists vectors. split; [done|].
  destruct vectors; [done|]. by injection Hrun as <- _.
Qed.

Lemma process_document_success {Vec Score} (env : Env Vec Score) (self : DocumentIngestor)
    (file_path save_path : string) (w w' : World Vec) (n : nat) :
  process_document env self file_path (Some save_path) w = (inr n, w') ->
  exists docs vectors w1,
    load_document env self file_path w = (inr docs, w1)
    ∧ embed_documents env (map page_content (chunk_documents env self docs)) = inr vectors
    ∧ n = length (chunk_documents env self docs)
    ∧ fs w' !! Path.join save_path "index.faiss"
      = Some (File (FaissIndex
                      (map fst (zip vectors (chunk_documents env self docs)))))
    ∧ fs w' !! Path.join save_path "index.pkl"
      = Some (File (Pickle (map snd (zip vectors (chunk_documents env self docs))))).
Proof.
  unfold process_document. intros Hrun.
  apply bind_success in Hrun as (docs & w1 & Hload & Hrun). cbv zeta in Hrun.
  apply bind_success in Hrun as (self1 & w2 & Hcreate & Hrun).
  apply bind_success in Hrun as ([] & w3 & Hsave & Hrun).
  injection Hrun as <- <-.
  unfold create_vectorstore in Hcreate.
  apply bind_success in Hcreate as (index & w4 & Hindex & Hcreate).
  injection Hcreate as <- <-.
  apply FAISS_from_documents_success in Hindex as (vectors & Hembed & ->).
  exists docs, vectors, w1. split; [done|]. split; [done|]. split; [done|].
  unfold save_vectorstore in Hsave. simpl in Hsave.
  apply bind_success in Hsave as ([] & w5 & _ & Hsave).
  by apply FAISS_save_local_success in Hsave.
Qed.

Lemma set_hc_agent_run {Vec} (a : HCAgent) (app app' : App Vec) r :
  set_hc_agent a app = (r, app') ->
  r = inr tt ∧ app' = mkApp (world app) (sop_agent app) (Some a).
Proof. by intros [= <- <-]. Qed.



Lemma hc_upload_body_outcome {Vec Score} (env : Env Vec Score) (f : UploadFile)
    (app app' : App Vec) (resp : StatusResponse) :
  hc_upload_body env f app = (inr resp, app') ->
  status resp = "success"
  ∧ exists docs vectors w1 w2,
      fs w1 !! Path.join HC_UPLOAD_DIR (filename f) = Some (File (Bytes (file f)))
      ∧ load_document env (DocumentIngestor_init "HC")
          (Path.join HC_UPLOAD_DIR (filename f)) w1 = (inr docs, w2)
      ∧ embed_documents env
          (map page_content
             (chunk_documents env (DocumentIngestor_init "HC") docs))
        = inr vectors
      ∧ chunks_created resp
        = length (chunk_documents env (DocumentIngestor_init "HC") docs)
      ∧ hc_agent app'
        = Some (hc_ready_on HC_VECTORSTORE_PATH
                  (zip vectors
                     (chunk_documents env (DocumentIngestor_init "HC") docs))).
Proof.
  unfold hc_upload_body. cbv zeta. intros Hrun.
  apply bind_success in Hrun as ([] & a1 & _ & Hrun).
  apply bind_success in Hrun as ([] & a2 & Hwrite & Hrun).
  apply bind_success in Hrun as (ingestor & a3 & Hnew & Hrun).
  apply bind_success in Hrun as (n & a4 & Hprocess & Hrun).
  apply bind_success in Hrun as (a & a5 & Hagent & Hrun).
  apply bind_success in Hrun as ([] & a6 & Hset & Hrun).
  apply bind_success in Hrun as ([] & a7 & Hinit & Hrun).
  injection Hrun as <- <-. simpl. split; [done|].
  (* the file that is loaded is the upload *)
  apply in_app_run in Hwrite as (Hwrite & _ & _).
  apply write_file_success in Hwrite as (Hfs2 & _ & _).
  apply in_app_run in Hnew as (Hnew & _ & _).
  apply DocumentIngestor_new_outcome in Hnew as [Hw3 [[[= ->] _]|(e & [=] & _)]].
  apply in_app_run in Hprocess as (Hprocess & _ & _). rewrite Hw3 in Hprocess.
  apply process_document_success in Hprocess
    as (docs & vectors & w1 & Hload & Hembed & Hn & Hfaiss & Hpkl).
  exists docs, vectors, (world a2), w1. split.
  { rewrite Hfs2. apply lookup_insert_eq. }
  split; [done|]. split; [done|]. split; [done|].
  (* the agent serves what was persisted *)
  apply in_app_run in Hagent as (Hagent & _ & _).
  apply HCAgent_new_outcome in Hagent as [Hw5 [[[= ->] _]|[(e & [=]) _]]].
  apply set_hc_agent_run in Hset as [_ ->].
  unfold on_hc_agent in Hinit. simpl in Hinit.
  destruct (HC_initialize env (world a5, HCAgent_init None)) as [r0 [w7 self7]] eqn:E.
  injection Hinit as -> <-. simpl.
  apply HC_initialize_outcome in E as [Hok _].
  destruct (Hok eq_refl) as (v & Hloaded & _ & ->). simpl in Hloaded.
  rewrite Hw5 in Hloaded.
  destruct (FAISS_load_local_reads env HC_VECTORSTORE_PATH (world a4) _ _ Hfaiss Hpkl)
    as [Hreads _].
  rewrite (Hreads _ _ Hloaded), zip_fst_snd. done.
Qed.

Lemma upload_hc_document_unfold {Vec Score} (env : Env Vec Score) (f : UploadFile) :
  upload_hc_document env f
  = if negb (endswith_any (filename f) [".pdf"; ".docx"; ".doc"]) then
      raise (HTTPException 400 "Only PDF and DOCX files are supported")
    else
      have_endpoint ← getenv_set "AZURE_OPENAI_ENDPOINT";
      if negb have_endpoint then
        raise (HTTPException 400 "Azure credentials not found. Please create a .env file.")
      else
        try_except (hc_upload_body env f)
          (fun e => raise (HTTPException 500 (exn_str e))).
Proof. reflexivity. Qed.

Lemma upload_hc_document_cases {Vec Score} (env : Env Vec Score) (f : UploadFile)
    (app app' : App Vec) r :
  upload_hc_document env f app = (r, app') ->
  (app' = app
   ∧ (endswith_any (filename f) [".pdf"; ".docx"; ".doc"] = false
      ∧ r = inl (HTTPException 400 "Only PDF and DOCX files are supported")
      ∨ endswith_any (filename f) [".pdf"; ".docx"; ".doc"] = true
        ∧ (getenv_set "AZURE_OPENAI_ENDPOINT" app).1 = inr false
        ∧ r = inl (HTTPException 400
                     "Azure credentials not found. Please create a .env file.")))
  ∨ (exists e, r = inl (HTTPException 500 (exn_str e))
               ∧ endswith_any (filename f) [".pdf"; ".docx"; ".doc"] = true
               ∧ hc_upload_body env f app = (inl e, app'))
  ∨ (exists resp, r = inr resp ∧ hc_upload_body env f app = (inr resp, app')).
Proof.
  rewrite upload_hc_document_unfold.
  destruct (endswith_any _ _) eqn:Hext; simpl.
  2: { intros [= <- <-]. left. split; [done|]. by left. }
  unfold mbind, M_bind, getenv_set, get_state, mret, M_ret. simpl.
  destruct (negb _) eqn:Henv.
  { intros [= <- <-]. left. split; [done|]. right. split; [done|].
    apply negb_true_iff in Henv. by rewrite Henv. }
  unfold try_except.
  destruct (hc_upload_body env f app) as [[e|resp] a] eqn:Hbody.
  - intros [= <- <-]. right. left. by exists e.
  - intros [= <- <-]. right. right. by exists resp.
Qed.



(** X10. After a successful upload the HC agent is ready, and what it
    serves is the uploaded file alone: its store holds the chunks of the
    documents loaded from the bytes just saved, paired with the vectors the
    embedding call returned for them, and nothing of any earlier index;
    [chunks_created] is the number of those chunks. *)
Theorem upload_success_serves_the_upload_only {Vec Score : Type} (env : Env Vec Score)
    (f : UploadFile) (app app' : App Vec) (resp : StatusResponse) :
  upload_hc_document env f app = (inr resp, app') ->
  status resp = "success"
  ∧ exists docs vectors w1 w2,
      fs w1 !! Path.join HC_UPLOAD_DIR (filename f) = Some (File (Bytes (file f)))
      ∧ load_document env (DocumentIngestor_init "HC")
          (Path.join HC_UPLOAD_DIR (filename f)) w1 = (inr docs, w2)
      ∧ embed_documents env
          (map page_content (chunk_documents env (DocumentIngestor_init "HC") docs))
        = inr vectors
      ∧ chunks_created resp
        = length (chunk_documents env (DocumentIngestor_init "HC") docs)
      ∧ hc_agent app'
        = Some (hc_ready_on HC_VECTORSTORE_PATH
                  (zip vectors (chunk_documents env (DocumentIngestor_init "HC") docs))).
Proof.
  intros Hrun.
  apply upload_hc_document_cases in Hrun
    as [[_ [[_ [=]]|(_ & _ & [=])]]|[(e & [=] & _)|(resp' & [= <-] & Hbody)]].
  by apply hc_upload_body_outcome in Hbody.
Qed.

Lemma upload_success_serves_the_upload_only_witness :
  exists docs vectors w1 w2,
    fs w1 !! Path.join HC_UPLOAD_DIR (filename travel_upload)
    = Some (File (Bytes (file travel_upload)))
    ∧ load_document (env_double nearest "unused" no_fault) (DocumentIngestor_init "HC")
        (Path.join HC_UPLOAD_DIR (filename travel_upload)) w1 = (inr docs, w2)
    ∧ embed_documents (env_double nearest "unused" no_fault)
        (map page_content
           (chunk_documents (env_double nearest "unused" no_fault)
              (DocumentIngestor_init "HC") docs))
      = inr vectors
    ∧ 1 = length (chunk_documents (env_double nearest "unused" no_fault)
                    (DocumentIngestor_init "HC") docs)
    ∧ hc_agent (upload_hc_document (env_double nearest "unused" no_fault)
                  travel_upload app_ready).2
      = Some (hc_ready_on HC_VECTORSTORE_PATH
                (zip vectors
                   (chunk_documents (env_double nearest "unused" no_fault)
                      (DocumentIngestor_init "HC") docs))).
Proof.
  destruct (upload_success_serves_the_upload_only (env_double nearest "unused" no_fault)
              travel_upload app_ready
              (upload_hc_document (env_double nearest "unused" no_fault)
                 travel_upload app_ready).2
              (mkStatusResponse "success"
                 "Document processed successfully. Created 1 chunks." 1))
    as [_ Hserved].
  - vm_compute. reflexivity.
  - exact Hserved.
Defined.

(** ** Start-up and the status report *)

Lemma FAISS_load_local_reads_only {Vec Score} (env : Env Vec Score) (folder : string)
    (w w' : World Vec) r :
  FAISS_load_local env folder w = (r, w') -> reads_only w w'.
Proof.
  unfold FAISS_load_local, read_file, io, log, modify,
    mbind, M_bind, get_state, raise, mret, M_ret, reads_only.
  simpl. repeat case_match; simplify_eq; by intros [= _ <-].
Qed.

Lemma FAISS_load_local_same_disk {Vec Score} (env : Env Vec Score) (folder : string)
    (w1 w2 : World Vec) :
  fs w1 = fs w2 -> (FAISS_load_local env folder w1).1 = (FAISS_load_local env folder w2).1.
Proof.
  intros Hfs.
  unfold FAISS_load_local, read_file, io, log, modify,
    mbind, M_bind, get_state, raise, mret, M_ret.
  simpl. rewrite Hfs. destruct (io_fault env _); [done|]. simpl.
  destruct (fs w2 !! _) as [[|[]]|]; try done. simpl.
  destruct (io_fault env _); [done|]. simpl.
  destruct (fs w2 !! _) as [[|[]]|]; done.
Qed.

Lemma FAISS_load_local_missing {Vec Score} (env : Env Vec Score) (folder : string)
    (w : World Vec) :
  fs w !! Path.join folder "index.faiss" = None ->
  exists e, (FAISS_load_local env folder w).1 = inl e.
Proof.
  intros Hmissing.
  unfold FAISS_load_local, io, log, modify, mbind, M_bind, get_state, raise, mret, M_ret.
  simpl. destruct (io_fault env _) as [e|]; simpl; [by eexists|].
  rewrite Hmissing. by eexists.
Qed.

Lemma clients_ok_environ {Vec Score} (env : Env Vec Score) (w1 w2 : World Vec) :
  environ w1 = environ w2 -> clients_ok env w1 -> clients_ok env w2.
Proof. unfold clients_ok. by intros ->. Qed.

Lemma startup_sop_outcome {Vec Score} (env : Env Vec Score) (app app' : App Vec) r :
  startup_sop env app = (r, app') ->
  r = inr tt
  ∧ reads_only (world app) (world app')
  ∧ hc_agent app' = hc_agent app
  ∧ (fs (world app) !! SOP_VECTORSTORE_PATH = None ∧ sop_agent app' = sop_agent app
     ∨ is_Some (fs (world app) !! SOP_VECTORSTORE_PATH)
       ∧ (¬ clients_ok env (world app) ∧ sop_agent app' = sop_agent app
          ∨ clients_ok env (world app)
            ∧ ((exists e,
                   (FAISS_load_local env SOP_VECTORSTORE_PATH (world app)).1 = inl e)
               ∧ sop_agent app' = sop_agent app
               ∨ exists v,
                   (FAISS_load_local env SOP_VECTORSTORE_PATH (world app)).1 = inr v
                   ∧ sop_agent app' = Some (mkSOPAgent v)))).
Proof.
  unfold startup_sop, try_except, in_app, path_exists, SOPAgent_init, BaseAgent_init,
    new_client, SOP_load_vectorstore, set_sop_agent, modify, mbind, M_bind, get_state,
    raise, mret, M_ret, clients_ok.
  simpl. destruct (decide (is_Some (fs (world app) !! SOP_VECTORSTORE_PATH))) as [Hyes|Hno].
  - rewrite !bool_decide_eq_true_2 by done. simpl.
    destruct (AzureChatOpenAI_new env _) as [e1|] eqn:Hchat; simpl.
    { intros [= <- <-]. simpl. split; [done|]. split; [done|]. split; [done|].
      right. split; [done|]. left. split; [|done]. by intros [? ?]. }
    destruct (AzureOpenAIEmbeddings_new env _) as [e2|] eqn:Hemb; simpl.
    { intros [= <- <-]. simpl. split; [done|]. split; [done|]. split; [done|].
      right. split; [done|]. left. split; [|done]. by intros [? ?]. }
    rewrite !bool_decide_eq_true_2 by done. simpl.
    destruct (FAISS_load_local env SOP_VECTORSTORE_PATH (world app)) as [[e|v] w1] eqn:Hload;
      pose proof (FAISS_load_local_reads_only _ _ _ _ _ Hload) as Hreads;
      simpl; intros [= <- <-]; simpl; (split; [done|]); (split; [done|]);
      (split; [done|]); right; (split; [done|]); right; (split; [done|]).
    + left. split; [by exists e|done].
    + right. by exists v.
  - rewrite !bool_decide_eq_false_2 by done. simpl. intros [= <- <-]. simpl.
    split; [done|]. split; [done|]. split; [done|]. left. split; [|done].
    destruct (fs (world app) !! SOP_VECTORSTORE_PATH) eqn:Hfs; [|done].
    by destruct Hno; eexists.
Qed.

Lemma HC_initialize_failure {Vec Score} (env : Env Vec Score) (w w' : World Vec)
    (self self' : HCAgent) (e : exn) :
  HC_initialize env (w, self) = (inl e, (w', self')) ->
  self' = self
  ∧ reads_only w w'
  ∧ (fs w !! hc_vectorstore_path self = None
     ∨ is_Some (fs w !! hc_vectorstore_path self)
       ∧ (FAISS_load_local env (hc_vectorstore_path self) w).1 = inl e).
Proof.
  unfold HC_initialize, HC_load_vectorstore, HC_create_qa_chain, on_world, path_exists,
    get_self, set_self, mbind, M_bind, get_state, raise, mret, M_ret.
  simpl. destruct (decide (is_Some (fs w !! hc_vectorstore_path self))) as [Hyes|Hno].
  - rewrite bool_decide_eq_true_2 by done. simpl.
    destruct (FAISS_load_local env (hc_vectorstore_path self) w) as [[e0|v] w1] eqn:Hload;
      pose proof (FAISS_load_local_reads_only _ _ _ _ _ Hload) as Hreads;
      simpl; intros [= <- <- <-].
    split; [done|]. split; [done|]. right. by split.
  - rewrite bool_decide_eq_false_2 by done. simpl. intros [= <- <- <-].
    split; [done|]. split; [done|]. left.
    destruct (fs w !! hc_vectorstore_path self) eqn:Hfs; [|done].
    by destruct Hno; eexists.
Qed.

Lemma startup_hc_outcome {Vec Score} (env : Env Vec Score) (app app' : App Vec) r :
  startup_hc env app = (r, app') ->
  r = inr tt
  ∧ reads_only (world app) (world app')
  ∧ sop_agent app' = sop_agent app
  ∧ (fs (world app) !! HC_VECTORSTORE_PATH = None ∧ hc_agent app' = hc_agent app
     ∨ is_Some (fs (world app) !! HC_VECTORSTORE_PATH)
       ∧ (¬ clients_ok env (world app) ∧ hc_agent app' = hc_agent app
          ∨ clients_ok env (world app)
            ∧ ((exists e,
                   (FAISS_load_local env HC_VECTORSTORE_PATH (world app)).1 = inl e)
               ∧ hc_agent app' = Some (HCAgent_init None)
               ∨ exists v,
                   (FAISS_load_local env HC_VECTORSTORE_PATH (world app)).1 = inr v
                   ∧ hc_agent app' = Some (hc_ready_on HC_VECTORSTORE_PATH v)))).
Proof.
  unfold startup_hc, try_except. intros Hrun.
  destruct ((found ← in_app (path_exists HC_VECTORSTORE_PATH);
             if found : bool then
               a ← in_app (HCAgent_new env None);
               set_hc_agent a;;
               on_hc_agent (HC_initialize env)
             else mret tt) app) as [r1 app1] eqn:Hbody.
  assert (Hr : r = inr tt ∧ app' = app1).
  { destruct r1 as [?|[]]; simpl in Hrun; unfold mret, M_ret in Hrun;
      by injection Hrun as <- <-. }
  destruct Hr as [-> ->]. clear Hrun. split; [done|].
  apply bind_cases in Hbody as [(e & Hfound & _)|(found & a1 & Hfound & Hbody)].
  { unfold in_app, path_exists, mbind, M_bind, get_state, mret, M_ret in Hfound.
    simpl in Hfound. discriminate Hfound. }
  unfold in_app, path_exists, mbind, M_bind, get_state, mret, M_ret in Hfound.
  simpl in Hfound. injection Hfound as <- <-.
  destruct (decide (is_Some (fs (world app) !! HC_VECTORSTORE_PATH))) as [Hyes|Hno].
  2: { rewrite bool_decide_eq_false_2 in Hbody by done. injection Hbody as _ <-.
       simpl. split; [done|]. split; [done|]. left. split; [|done].
       destruct (fs (world app) !! HC_VECTORSTORE_PATH) eqn:Hfs; [|done].
       by destruct Hno; eexists. }
  rewrite bool_decide_eq_true_2 in Hbody by done.
  apply bind_cases in Hbody as [(e & Hnew & _)|(a & a2 & Hnew & Hbody)];
    apply in_app_run in Hnew as (Hnew & Hsop2 & Hhc2); simpl in Hnew, Hsop2, Hhc2;
    apply HCAgent_new_outcome in Hnew as [Hw2 [[Ha Hok]|[(e1 & He1) Hno]]]; simplify_eq.
  - split; [by rewrite Hw2|]. split; [done|]. right. split; [done|]. by left.
  - apply bind_cases in Hbody as [(e & Hset & _)|([] & a3 & Hset & Hinit)];
      apply set_hc_agent_run in Hset as [? ->]; [done|].
    unfold on_hc_agent in Hinit. simpl in Hinit. rewrite Hw2 in Hinit.
    destruct (HC_initialize env (world app, HCAgent_init None)) as [r0 [w1 self1]] eqn:E.
    injection Hinit as _ <-. simpl.
    destruct r0 as [e|[]].
    + apply HC_initialize_failure in E as (-> & Hreads & [Hnone|[_ Hload]]).
      { simpl in Hnone. rewrite Hnone in Hyes. by destruct Hyes. }
      split; [done|]. split; [done|]. right. split; [done|]. right. split; [done|].
      left. split; [by exists e|done].
    + apply HC_initialize_outcome in E as [Hready _].
      destruct (Hready eq_refl) as (v & Hload & _ & ->). simpl in Hload.
      pose proof (FAISS_load_local_reads_only _ _ _ _ _ Hload) as Hreads.
      split; [done|]. split; [done|]. right. split; [done|]. right. split; [done|].
      right. exists v. by rewrite Hload.
Qed.

Lemma startup_event_unfold {Vec Score} (env : Env Vec Score) :
  startup_event env = (startup_sop env;; startup_hc env).
Proof. reflexivity. Qed.

(** X11. Start-up never fails and only reads: whatever is on disk,
    whether or not the clients can be built and whatever the index loading
    does, [startup_event] returns normally with the disk and the
    environment as they were.  An agent variable whose index folder is
    absent is left as it was, and so are both when the clients of
    [BaseAgent.__init__] cannot be built.  With the folder present and
    the clients built, the SOP variable is set exactly when the index
    loads, and the HC variable is always set: to an agent ready on the
    loaded store, or, when loading fails, to an agent that was never
    initialised. *)
Theorem startup_event_outcome {Vec Score : Type} (env : Env Vec Score)
    (app app' : App Vec) (r : exn + unit) :
  startup_event env app = (r, app') ->
  r = inr tt
  ∧ reads_only (world app) (world app')
  ∧ (fs (world app) !! SOP_VECTORSTORE_PATH = None ∧ sop_agent app' = sop_agent app
     ∨ is_Some (fs (world app) !! SOP_VECTORSTORE_PATH)
       ∧ (¬ clients_ok env (world app) ∧ sop_agent app' = sop_agent app
          ∨ clients_ok env (world app)
            ∧ ((exists e,
                   (FAISS_load_local env SOP_VECTORSTORE_PATH (world app)).1 = inl e)
               ∧ sop_agent app' = sop_agent app
               ∨ exists v,
                   (FAISS_load_local env SOP_VECTORSTORE_PATH (world app)).1 = inr v
                   ∧ sop_agent app' = Some (mkSOPAgent v))))
  ∧ (fs (world app) !! HC_VECTORSTORE_PATH = None ∧ hc_agent app' = hc_agent app
     ∨ is_Some (fs (world app) !! HC_VECTORSTORE_PATH)
       ∧ (¬ clients_ok env (world app) ∧ hc_agent app' = hc_agent app
          ∨ clients_ok env (world app)
            ∧ ((exists e,
                   (FAISS_load_local env HC_VECTORSTORE_PATH (world app)).1 = inl e)
               ∧ hc_agent app' = Some (HCAgent_init None)
               ∨ exists v,
                   (FAISS_load_local env HC_VECTORSTORE_PATH (world app)).1 = inr v
                   ∧ hc_agent app' = Some (hc_ready_on HC_VECTORSTORE_PATH v)))).
Proof.
  rewrite startup_event_unfold. unfold mbind, M_bind.
  destruct (startup_sop env app) as [r1 app1] eqn:Hsop.
  apply startup_sop_outcome in Hsop as (-> & [Hfs1 Henv1] & Hhc1 & Hsop).
  intros Hhc. apply startup_hc_outcome in Hhc as (-> & [Hfs2 Henv2] & Hsop2 & Hhc).
  split; [done|]. split; [split; congruence|].
  rewrite Hsop2. split; [exact Hsop|].
  rewrite Hfs1, Hhc1 in Hhc.
  rewrite (FAISS_load_local_same_disk env HC_VECTORSTORE_PATH _ _ Hfs1) in Hhc.
  assert (Hclients : clients_ok env (world app1) ↔ clients_ok env (world app)).
  { split; apply clients_ok_environ; congruence. }
  by rewrite Hclients in Hhc.
Qed.

Lemma startup_event_outcome_witness :
  (startup_event (env_double nearest "unused" no_fault) app_fresh).1 = inr tt
  ∧ hc_agent (startup_event (env_double nearest "unused" no_fault) app_fresh).2 = None.
Proof.
  destruct (startup_event_outcome (env_double nearest "unused" no_fault) app_fresh
              (startup_event (env_double nearest "unused" no_fault) app_fresh).2
              (startup_event (env_double nearest "unused" no_fault) app_fresh).1)
    as (Hr & _ & _ & [[_ Hhc]|[Hsome _]]).
  - by destruct (startup_event _ app_fresh).
  - split; [exact Hr|exact Hhc].
  - exfalso. vm_compute in Hsome. by destruct Hsome.
Defined.

Lemma get_status_reports {Vec} (app : App Vec) :
  exists st,
    get_status app = (inr st, app)
    ∧ hc_agent_ready st = (match hc_agent app with Some _ => true | None => false end)
    ∧ sop_agent_ready st = (match sop_agent app with Some _ => true | None => false end)
    ∧ hc_index_exists st = bool_decide (is_Some (fs (world app) !! HC_VECTORSTORE_PATH))
    ∧ sop_index_exists st = bool_decide (is_Some (fs (world app) !! SOP_VECTORSTORE_PATH)).
Proof.
  destruct app as [[disk vars events] sop hc].
  eexists. split; [reflexivity|]. by repeat split.
Qed.

(** X12. [hc_agent_ready] in the status report says only that the agent
    variable is set.  When the server starts on an index folder whose
    [index.faiss] is missing, and the clients of the agent can be built,
    the report afterwards shows the HC agent and its index as present, and
    every HC question is answered with HTTP 500, the agent never having
    been initialised.  When the clients cannot be built the variable is
    not touched by the start-up. *)
Theorem status_ready_agent_not_initialised {Vec Score : Type} (env : Env Vec Score)
    (app app' : App Vec) (r : exn + unit) (question : string) :
  is_Some (fs (world app) !! HC_VECTORSTORE_PATH) ->
  fs (world app) !! Path.join HC_VECTORSTORE_PATH "index.faiss" = None ->
  startup_event env app = (r, app') ->
  (clients_ok env (world app) ->
   (exists st,
       get_status app' = (inr st, app')
       ∧ hc_agent_ready st = true ∧ hc_index_exists st = true)
   ∧ ask_hc_question env question app'
     = (inl (HTTPException 500 "HC Agent not initialized. Call initialize() first."),
        app'))
  ∧ (¬ clients_ok env (world app) -> hc_agent app' = hc_agent app).
Proof.
  intros Hfolder Hmissing. rewrite startup_event_unfold. unfold mbind, M_bind.
  destruct (startup_sop env app) as [r1 app1] eqn:Hsop.
  apply startup_sop_outcome in Hsop as (-> & [Hfs1 Henv1] & Hhc1 & _).
  intros Hhc. apply startup_hc_outcome in Hhc as (_ & [Hfs2 Henv2] & _ & Hhc).
  rewrite Hfs1, Hhc1 in Hhc.
  assert (Hclients : clients_ok env (world app1) ↔ clients_ok env (world app)).
  { split; apply clients_ok_environ; congruence. }
  rewrite Hclients in Hhc.
  destruct Hhc as [[Hnone _]|[_ Hhc]].
  { rewrite Hnone in Hfolder. by destruct Hfolder. }
  split.
  - intros Hok.
    assert (Hagent : hc_agent app' = Some (HCAgent_init None)).
    { destruct Hhc as [[Hno _]|[_ [[_ Hagent]|(v & Hload & _)]]]; [done|done|].
      rewrite <- Hfs1 in Hmissing.
      destruct (FAISS_load_local_missing env HC_VECTORSTORE_PATH _ Hmissing) as [e He].
      congruence. }
    split.
    + destruct (get_status_reports app') as (st & Hst & Hready & _ & Hindex & _).
      exists st. split; [done|]. rewrite Hready, Hindex, Hagent, Hfs2, Hfs1.
      split; [done|]. by apply bool_decide_eq_true_2.
    + unfold ask_hc_question, mbind, M_bind, get_state, try_except, in_app, raise.
      rewrite Hagent. simpl. by destruct app'.
  - intros Hno. by destruct Hhc as [[_ Hsame]|[Hok _]].
Qed.

Lemma status_ready_agent_not_initialised_witness :
  (ask_hc_question (env_double nearest "unused" no_fault) "How long is annual leave?"
     (startup_event (env_double nearest "unused" no_fault)
        (mkApp (mkWorld {["data/vectorstore/hc_faiss_index" := Dir]} configured [])
           None None)).2).1
  = inl (HTTPException 500 "HC Agent not initialized. Call initialize() first.").
Proof.
  destruct (status_ready_agent_not_initialised (env_double nearest "unused" no_fault)
              (mkApp (mkWorld {["data/vectorstore/hc_faiss_index" := Dir]} configured [])
                 None None)
              (startup_event (env_double nearest "unused" no_fault)
                 (mkApp (mkWorld {["data/vectorstore/hc_faiss_index" := Dir]} configured [])
                    None None)).2
              (startup_event (env_double nearest "unused" no_fault)
                 (mkApp (mkWorld {["data/vectorstore/hc_faiss_index" := Dir]} configured [])
                    None None)).1
              "How long is annual leave?")
    as [Hready _].
  - vm_compute. by eexists.
  - vm_compute. reflexivity.
  - by destruct (startup_event _ _).
  - destruct Hready as [_ Hask]; [by split|]. by rewrite Hask.
Defined.

(** ** The loader's extension test *)

Lemma load_document_unsupported {Vec Score} (env : Env Vec Score) (self : DocumentIngestor)
    (file_path : string) (w : World Vec) :
  loader_extension file_path ∉ [".pdf"; ".docx"; ".doc"; ".md"] ->
  load_document env self file_path w
  = (inl (ValueError ("Unsupported file type: " +:+ loader_extension file_path)), w).
Proof.
  intros Hext. unfold load_document, loader_extension in *. cbv zeta.
  repeat match goal with
         | |- context [String.eqb ?a ?b] =>
             destruct (String.eqb_spec a b) as [Heq|_];
             [exfalso; apply Hext; rewrite Heq; repeat constructor|]
         end.
  reflexivity.
Qed.

(** X13. The endpoint tests the end of the file name, the loader the
    extension [os.path.splitext] finds, which is empty for a name made of
    dots and the extension only ([.pdf]).  Whenever that extension is none
    of [.pdf], [.docx], [.doc], [.md], [load_document] raises [ValueError]
    before any input or output; and an upload of such a name that passed
    the endpoint's test is first saved, then answered with HTTP 500: with
    ["Unsupported file type: ..."] when the embeddings client of the
    ingestor could be built, with the text of the client's exception
    otherwise.  Either way the file stays in the upload directory and the
    HC agent variable is as before. *)
Theorem upload_saves_what_the_loader_refuses {Vec Score : Type} (env : Env Vec Score)
    (f : UploadFile) (app app1 : App Vec) :
  loader_extension (Path.join HC_UPLOAD_DIR (filename f))
    ∉ [".pdf"; ".docx"; ".doc"; ".md"] ->
  (forall (self : DocumentIngestor) (w : World Vec),
     load_document env self (Path.join HC_UPLOAD_DIR (filename f)) w
     = (inl (ValueError
               ("Unsupported file type: "
                +:+ loader_extension (Path.join HC_UPLOAD_DIR (filename f)))), w))
  ∧ (endswith_any (filename f) [".pdf"; ".docx"; ".doc"] = true ->
     (getenv_set "AZURE_OPENAI_ENDPOINT" app).1 = inr true ->
     hc_upload_save env f app = (inr tt, app1) ->
     upload_hc_document env f app
     = (inl (HTTPException 500
               match AzureOpenAIEmbeddings_new env (Settings_load (environ (world app1)))
               with
               | Some e => exn_str e
               | None =>
                   "Unsupported file type: "
                   +:+ loader_extension (Path.join HC_UPLOAD_DIR (filename f))
               end), app1)
     ∧ fs (world app1) !! Path.join HC_UPLOAD_DIR (filename f)
       = Some (File (Bytes (file f)))
     ∧ hc_agent app1 = hc_agent app).
Proof.
  intros Hext. split; [intros self w; by apply load_document_unsupported|].
  intros Hname Henv Hsave.
  unfold hc_upload_save in Hsave. unfold mbind, M_bind in Hsave.
  destruct (in_app (makedirs env HC_UPLOAD_DIR) app) as [[e1|[]] a1] eqn:E1; [done|].
  pose proof (in_app_agents _ _ _ _ E1) as [Hhc1 _].
  pose proof (in_app_agents _ _ _ _ Hsave) as [Hhc2 _].
  split; [|split; [|congruence]].
  - rewrite upload_hc_document_unfold, Hname. simpl.
    unfold mbind at 1, M_bind at 1.
    unfold getenv_set, mbind, M_bind, get_state, mret, M_ret in Henv |- *.
    simpl in Henv |- *. injection Henv as ->. simpl.
    unfold try_except, hc_upload_body. cbv zeta. unfold mbind at 1, M_bind at 1.
    rewrite E1. unfold mbind at 1, M_bind at 1. rewrite Hsave.
    unfold mbind at 1, M_bind at 1.
    unfold in_app at 1, DocumentIngestor_new, new_client.
    unfold mbind at 1 2, M_bind at 1 2, get_state. simpl.
    destruct (AzureOpenAIEmbeddings_new env _) as [e|]; simpl; [by destruct app1|].
    unfold mbind at 1, M_bind at 1, in_app, process_document.
    unfold mbind at 1, M_bind at 1.
    rewrite (load_document_unsupported env _ _ _ Hext). simpl. by destruct app1.
  - unfold in_app in Hsave.
    destruct (write_file env _ _ _ (world a1)) as [r2 w2] eqn:Hwrite.
    injection Hsave as -> <-. apply write_file_success in Hwrite as (Hfs & _ & _).
    simpl. rewrite Hfs. apply lookup_insert_eq.
Qed.

Lemma upload_saves_what_the_loader_refuses_witness :
  upload_hc_document (env_double nearest "unused" no_fault)
    (mkUploadFile ".pdf" "Travel is reimbursed.") app_fresh
  = (inl (HTTPException 500 "Unsupported file type: "),
     (hc_upload_save (env_double nearest "unused" no_fault)
        (mkUploadFile ".pdf" "Travel is reimbursed.") app_fresh).2).
Proof.
  destruct (upload_saves_what_the_loader_refuses (env_double nearest "unused" no_fault)
              (mkUploadFile ".pdf" "Travel is reimbursed.") app_fresh
              (hc_upload_save (env_double nearest "unused" no_fault)
                 (mkUploadFile ".pdf" "Travel is reimbursed.") app_fresh).2)
    as [_ Hupload].
  - assert (Hext : loader_extension
                     (Path.join HC_UPLOAD_DIR
                        (filename (mkUploadFile ".pdf" "Travel is reimbursed.")))
                   = EmptyString) by (vm_compute; reflexivity).
    rewrite Hext. intros Hin.
    repeat (apply elem_of_cons in Hin as [Hin|Hin]; [discriminate Hin|]).
    by apply elem_of_nil in Hin.
  - destruct Hupload as (Hrun & _ & _).
    + vm_compute. reflexivity.
    + vm_compute. reflexivity.
    + vm_compute. reflexivity.
    + exact Hrun.
Defined.

(** ** Loading a folder *)

Lemma reads_only_refl {Vec} (w : World Vec) : reads_only w w.
Proof. by split. Qed.

Lemma reads_only_trans {Vec} (w1 w2 w3 : World Vec) :
  reads_only w1 w2 -> reads_only w2 w3 -> reads_only w1 w3.
Proof. intros [? ?] [? ?]. split; congruence. Qed.

Lemma read_file_reads_only {Vec Score} (env : Env Vec Score) (ev : Event) (p : string)
    (w w' : World Vec) r :
  read_file env ev p w = (r, w') -> reads_only w w'.
Proof.
  unfold read_file, io, log, modify, mbind, M_bind, get_state, raise, mret, M_ret,
    reads_only.
  simpl. repeat case_match; simplify_eq; by intros [= _ <-].
Qed.

Lemma read_bytes_reads_only {Vec Score} (env : Env Vec Score) (ev : Event) (p : string)
    (w w' : World Vec) r :
  (read_file env ev p ≫= file_bytes p) w = (r, w') -> reads_only w w'.
Proof.
  unfold mbind, M_bind.
  destruct (read_file env ev p w) as [[e|d] w1] eqn:Hread;
    apply read_file_reads_only in Hread.
  - by intros [= _ <-].
  - destruct d; by intros [= _ <-].
Qed.

Lemma load_document_reads_only {Vec Score} (env : Env Vec Score) (self : DocumentIngestor)
    (file_path : string) (w w' : World Vec) r :
  load_document env self file_path w = (r, w') -> reads_only w w'.
Proof.
  unfold load_document. cbv zeta.
  repeat match goal with
         | |- context [if ?b then _ else _] => destruct b
         end;
    try (unfold mbind at 1, M_bind at 1;
         destruct ((read_file env _ file_path ≫= file_bytes file_path) w)
           as [[e|b] w1] eqn:Hread;
         apply read_bytes_reads_only in Hread; by intros [= _ <-]).
  by intros [= _ <-].
Qed.

Lemma load_each_outcome {Vec} (load : string -> M (World Vec) (list Document))
    (files : list string) :
  (forall f w r w', load f w = (r, w') -> reads_only w w') ->
  forall documents w r w',
    load_each load files documents w = (r, w') ->
    reads_only w w' ∧ exists extra, r = inr (documents ++ extra).
Proof.
  intros Hload. induction files as [|f files IH]; intros documents w r w'; simpl.
  - intros [= <- <-]. split; [apply reads_only_refl|]. exists []. by rewrite app_nil_r.
  - unfold load_or_skip, try_except, mbind, M_bind, mret, M_ret.
    destruct (load f w) as [[e|docs] w1] eqn:Hf; apply Hload in Hf; simpl; intros Hrest;
      apply IH in Hrest as [Hreads (extra & ->)];
      (split; [by apply (reads_only_trans _ w1)|]).
    + by exists extra.
    + exists (docs ++ extra). by rewrite app_assoc.
Qed.

Lemma load_each_sources {Vec} (load : string -> M (World Vec) (list Document))
    (files : list string) :
  (forall f w docs w', load f w = (inr docs, w') -> sources_of docs = [Some (VStr f)]) ->
  forall documents w r w',
    load_each load files documents w = (r, w') ->
    exists extra,
      r = inr (documents ++ extra)
      ∧ sublist (sources_of extra) (map (fun f => Some (VStr f)) files).
Proof.
  intros Hload. induction files as [|f files IH]; intros documents w r w'; simpl.
  - intros [= <- <-]. exists []. by rewrite app_nil_r.
  - unfold load_or_skip, try_except, mbind, M_bind, mret, M_ret.
    destruct (load f w) as [[e|docs] w1] eqn:Hf; simpl; intros Hrest;
      apply IH in Hrest as (extra & -> & Hsub).
    + exists extra. split; [done|]. by apply sublist_cons.
    + exists (docs ++ extra). split; [by rewrite app_assoc|].
      unfold sources_of in *. rewrite map_app, (Hload _ _ _ _ Hf). simpl.
      by apply sublist_skip.
Qed.

Lemma read_bytes_result {Vec Score} (env : Env Vec Score) (ev : Event) (p : string)
    (w : World Vec) :
  ((read_file env ev p ≫= file_bytes p) w).1
  = match io_fault env ev with
    | Some e => inl e
    | None =>
        match fs w !! p with
        | Some (File (Bytes b)) => inr b
        | Some (File _) => inl (UpstreamError ("cannot read as a document: " +:+ p))
        | Some Dir => inl (OSError ("Is a directory: " +:+ p))
        | None => inl (FileNotFoundError ("No such file or directory: " +:+ p))
        end
    end.
Proof.
  unfold read_file, file_bytes, io, log, modify, mbind, M_bind, get_state, raise, mret,
    M_ret.
  simpl. destruct (io_fault env ev); [done|]. simpl.
  destruct (fs w !! p) as [[|[]]|]; done.
Qed.

Lemma read_bytes_same_disk {Vec Score} (env : Env Vec Score) (ev : Event) (p : string)
    (w1 w2 : World Vec) :
  fs w1 = fs w2 ->
  ((read_file env ev p ≫= file_bytes p) w1).1 = ((read_file env ev p ≫= file_bytes p) w2).1.
Proof. intros Hfs. by rewrite !read_bytes_result, Hfs. Qed.

Lemma bind_result_same {S A B} (c : M S A) (k : A -> M S B) (s1 s2 : S) :
  (c s1).1 = (c s2).1 ->
  (forall a t1 t2, (k a t1).1 = (k a t2).1) ->
  ((c ≫= k) s1).1 = ((c ≫= k) s2).1.
Proof.
  unfold mbind, M_bind. destruct (c s1) as [[e1|a1] t1], (c s2) as [[e2|a2] t2]; simpl;
    intros [= <-] Hk; first [done | apply Hk].
Qed.

Lemma load_document_same_disk {Vec Score} (env : Env Vec Score) (self : DocumentIngestor)
    (file_path : string) (w1 w2 : World Vec) :
  fs w1 = fs w2 ->
  (load_document env self file_path w1).1 = (load_document env self file_path w2).1.
Proof.
  intros Hfs. unfold load_document. cbv zeta.
  repeat match goal with
         | |- context [if ?b then _ else _] => destruct b
         end;
    try (apply bind_result_same; [by apply read_bytes_same_disk|done]).
  done.
Qed.

Lemma load_each_exact {Vec} (load : string -> M (World Vec) (list Document))
    (files : list string) :
  (forall f w r w', load f w = (r, w') -> reads_only w w') ->
  (forall f w1 w2, fs w1 = fs w2 -> (load f w1).1 = (load f w2).1) ->
  forall documents w r w',
    load_each load files documents w = (r, w') ->
    r = inr (documents
             ++ flat_map (fun f => match (load f w).1 with
                                   | inr docs => docs
                                   | inl _ => []
                                   end) files).
Proof.
  intros Hreads Hsame. induction files as [|f files IH]; intros documents w r w'; simpl.
  - intros [= <- <-]. by rewrite app_nil_r.
  - unfold load_or_skip, try_except, mbind, M_bind, mret, M_ret.
    destruct (load f w) as [[e|docs] w1] eqn:Hf; pose proof (Hreads _ _ _ _ Hf) as [Hfs _];
      simpl; intros Hrest; apply IH in Hrest as ->;
      (erewrite flat_map_ext; [|intros f'; rewrite (Hsame f' w1 w Hfs); reflexivity]);
      by rewrite <- ?app_assoc.
Qed.

Lemma folder_loading_reads_only {Vec Score} (env : Env Vec Score)
    (self : DocumentIngestor) (w w' : World Vec) r :
  load_documents_from_folder env self w = (r, w') -> reads_only w w'.
Proof.
  unfold load_documents_from_folder. unfold mbind at 1, M_bind at 1, get_state.
  destruct (String.eqb (ing_agent_type self) "SOP"); intros Hrun;
    apply load_each_outcome in Hrun as [Hreads _]; try done.
  - intros f w0 r0 w0' Hf. unfold mbind at 1, M_bind at 1 in Hf.
    destruct ((read_file env (EvReadFile f) f ≫= file_bytes f) w0) as [[e|c] w1] eqn:Hread;
      apply read_bytes_reads_only in Hread; by injection Hf as _ <-.
  - intros f w0 r0 w0'. apply load_document_reads_only.
Qed.

(** X14. Loading the documents folder never fails and only reads: a file
    that cannot be read or parsed is skipped, whatever the error, and the
    disk and the environment are as before.  The result is exactly what
    the files of the listing give, in the order of the listing: a file
    whose loading fails on the disk as it was gives nothing, every other
    file gives its documents.  For the SOP agent a [.md] file that can be
    read, that is one that is a file holding text and whose [open] does
    not fail, gives the one document of its content, with the metadata
    extracted from it, which names the file in [source]. *)
Theorem folder_loading_skips_failures {Vec Score : Type} (env : Env Vec Score)
    (self : DocumentIngestor) (w w' : World Vec) (r : exn + list Document) :
  load_documents_from_folder env self w = (r, w') ->
  reads_only w w'
  ∧ (exists docs,
      r = inr docs
      ∧ (ing_agent_type self = "SOP" ->
         sublist (sources_of docs)
           (map (fun f => Some (VStr f))
              (glob env (fs w) (ing_documents_path self) "*.md"))))
  ∧ (ing_agent_type self = "SOP" ->
     r = inr (flat_map
                (fun f =>
                   match io_fault env (EvReadFile f), fs w !! f with
                   | None, Some (File (Bytes content)) =>
                       [mkDocument content (_extract_metadata content f)]
                   | _, _ => []
                   end)
                (glob env (fs w) (ing_documents_path self) "*.md")))
  ∧ (ing_agent_type self ≠ "SOP" ->
     r = inr (flat_map
                (fun f =>
                   match (load_document env self f w).1 with
                   | inr docs => docs
                   | inl _ => []
                   end)
                (flat_map (glob env (fs w) (ing_documents_path self))
                   ["*.pdf"; "*.docx"; "*.doc"]))).
Proof.
  unfold load_documents_from_folder. unfold mbind at 1, M_bind at 1, get_state.
  destruct (String.eqb_spec (ing_agent_type self) "SOP") as [Hsop|Hhc]; intros Hrun.
  - assert (Hreads : forall f (w0 : World Vec) r0 w0',
               (content ← read_file env (EvReadFile f) f ≫= file_bytes f;
                mret [mkDocument content (_extract_metadata content f)]) w0 = (r0, w0') ->
               reads_only w0 w0').
    { intros f w0 r0 w0' Hf. unfold mbind at 1, M_bind at 1 in Hf.
      destruct ((read_file env (EvReadFile f) f ≫= file_bytes f) w0) as [[e|c] w2] eqn:Hread;
        apply read_bytes_reads_only in Hread; by injection Hf as _ <-. }
    split; [by apply load_each_outcome in Hrun as [? _]|]. split; [|split; [|done]].
    + apply load_each_sources in Hrun as (extra & -> & Hsub); [by exists extra|].
      intros f w0 docs w0' Hf. apply bind_success in Hf as (content & w1 & _ & Hf).
      injection Hf as <- _. unfold sources_of. simpl.
      by destruct (extract_metadata_lookups content f) as [-> _].
    + intros _. apply load_each_exact in Hrun as ->; [|done|].
      * simpl. f_equal. apply flat_map_ext. intros f.
        unfold mbind at 1, M_bind at 1.
        pose proof (read_bytes_result env (EvReadFile f) f w) as Hres.
        destruct ((read_file env (EvReadFile f) f ≫= file_bytes f) w) as [[e|c] w1];
          simpl in Hres |- *; destruct (io_fault env (EvReadFile f)); try done;
          destruct (fs w !! f) as [[|[]]|]; by simplify_eq.
      * intros f w1 w2 Hfs. apply bind_result_same; [by apply read_bytes_same_disk|done].
  - assert (Hreads : forall f (w0 : World Vec) r0 w0',
               load_document env self f w0 = (r0, w0') -> reads_only w0 w0').
    { intros f w0 r0 w0'. apply load_document_reads_only. }
    split; [by apply load_each_outcome in Hrun as [? _]|]. split; [|split; [done|]].
    + apply load_each_outcome in Hrun as [_ (extra & ->)]; [|done]. by exists extra.
    + intros _. apply load_each_exact in Hrun as ->; [done|done|].
      intros f w1 w2. apply load_document_same_disk.
Qed.

Lemma folder_loading_skips_failures_witness :
  reads_only
    (mkWorld {["Data/Documents" := Dir;
               "Data/Documents/capping.md" := File (Bytes sample_head);
               "Data/Documents/notes.md" := Dir]} configured [])
    (load_documents_from_folder (env_double nearest "unused" no_fault)
       (DocumentIngestor_init "SOP")
       (mkWorld {["Data/Documents" := Dir;
                  "Data/Documents/capping.md" := File (Bytes sample_head);
                  "Data/Documents/notes.md" := Dir]} configured [])).2
  ∧ exists docs,
      (load_documents_from_folder (env_double nearest "unused" no_fault)
         (DocumentIngestor_init "SOP")
         (mkWorld {["Data/Documents" := Dir;
                    "Data/Documents/capping.md" := File (Bytes sample_head);
                    "Data/Documents/notes.md" := Dir]} configured [])).1
      = inr docs.
Proof.
  destruct (folder_loading_skips_failures (env_double nearest "unused" no_fault)
              (DocumentIngestor_init "SOP")
              (mkWorld {["Data/Documents" := Dir;
                         "Data/Documents/capping.md" := File (Bytes sample_head);
                         "Data/Documents/notes.md" := Dir]} configured [])
              (load_documents_from_folder (env_double nearest "unused" no_fault)
                 (DocumentIngestor_init "SOP")
                 (mkWorld {["Data/Documents" := Dir;
                            "Data/Documents/capping.md" := File (Bytes sample_head);
                            "Data/Documents/notes.md" := Dir]} configured [])).2
              (load_documents_from_folder (env_double nearest "unused" no_fault)
                 (DocumentIngestor_init "SOP")
                 (mkWorld {["Data/Documents" := Dir;
                            "Data/Documents/capping.md" := File (Bytes sample_head);
                            "Data/Documents/notes.md" := Dir]} configured [])).1)
    as (Hreads & (docs & Hdocs & _) & _).
  - by destruct (load_documents_from_folder _ _ _).
  - split; [exact Hreads|]. by exists docs.
Defined.

(** ** Rebuilding an index from the folder *)

Lemma startswith_length (s p : string) :
  startswith s p = true -> String.length p <= String.length s.
Proof.
  revert s. induction p as [|a p IH]; intros [|b s]; simpl; try done; [lia|].
  destruct (Ascii.eqb a b); [|done]. intros Hrest. apply IH in Hrest. lia.
Qed.

Lemma rev_string_length (s acc : string) :
  String.length (rev_string s acc) = String.length s + String.length acc.
Proof.
  revert acc. induction s as [|c s IH]; intros acc; simpl; [done|].
  rewrite IH. simpl. lia.
Qed.

Lemma parents_from_shorter (p seen x : string) :
  x ∈ Path.parents_from seen p -> String.length x < String.length seen + String.length p.
Proof.
  revert seen. induction p as [|c p IH]; intros seen; simpl.
  - intros Hin. by apply elem_of_nil in Hin.
  - destruct (Ascii.eqb c Path.slash).
    + intros Hin. apply elem_of_app in Hin as [Hin|Hin].
      * destruct seen as [|c0 seen]; [by apply elem_of_nil in Hin|].
        apply list_elem_of_singleton in Hin as ->.
        rewrite rev_string_length. simpl. lia.
      * apply IH in Hin. simpl in Hin. lia.
    + intros Hin. apply IH in Hin. simpl in Hin. lia.
Qed.

Lemma parents_shorter (p x : string) :
  x ∈ Path.parents p -> String.length x < String.length p.
Proof. intros Hin. by apply parents_from_shorter in Hin. Qed.

Lemma inside_longer (d q : string) :
  inside d q = true -> q = d ∨ String.length d < String.length q.
Proof.
  unfold inside. intros Hin. apply orb_true_iff in Hin as [Heq|Hpre].
  - left. by apply String.eqb_eq.
  - right. apply startswith_length in Hpre. rewrite str_length_app in Hpre.
    simpl in Hpre. lia.
Qed.

(** A path strictly inside a folder is neither the folder nor one of the
    directories above it, nor above its parent. *)
Lemma inside_not_made (d q : string) :
  inside d q = true -> q ≠ d ->
  (q ∉ Path.parents d ++ [d])
  ∧ forall up, Path.parent d = Some up -> q ∉ Path.parents up ++ [up].
Proof.
  intros Hin Hne. apply inside_longer in Hin as [->|Hlen]; [done|].
  split.
  - intros Hq. apply elem_of_app in Hq as [Hq|Hq].
    + apply parents_shorter in Hq. lia.
    + by apply list_elem_of_singleton in Hq.
  - intros up Hup. apply last_Some_elem_of, parents_shorter in Hup.
    intros Hq. apply elem_of_app in Hq as [Hq|Hq].
    + apply parents_shorter in Hq. lia.
    + apply list_elem_of_singleton in Hq as ->. lia.
Qed.

Lemma mkdir_one_fs {Vec} (p q : string) (w w' : World Vec) r :
  mkdir_one p w = (r, w') -> q ≠ p -> fs w' !! q = fs w !! q.
Proof.
  unfold mkdir_one, set_fs, modify, mbind, M_bind, get_state, raise, mret, M_ret.
  simpl. destruct (fs w !! p) as [[|d]|]; intros [= _ <-] Hne; try done.
  simpl. by apply lookup_insert_ne.
Qed.

Lemma mkdir_each_fs {Vec} (l : list string) (q : string) (w w' : World Vec) r :
  foldr (fun d rest => mkdir_one d;; rest) (mret tt) l w = (r, w') ->
  q ∉ l -> fs w' !! q = fs w !! q.
Proof.
  revert w. induction l as [|d l IH]; intros w; simpl.
  - by intros [= _ <-].
  - unfold mbind at 1, M_bind at 1.
    destruct (mkdir_one d w) as [[e|[]] w1] eqn:Hone; intros Hrest Hq;
      apply not_elem_of_cons in Hq as [Hne Hq];
      apply (mkdir_one_fs d q) in Hone; try done.
    + injection Hrest as _ <-. done.
    + rewrite (IH _ Hrest Hq). done.
Qed.

Lemma makedirs_fs {Vec Score} (env : Env Vec Score) (p q : string) (w w' : World Vec) r :
  makedirs env p w = (r, w') -> q ∉ Path.parents p ++ [p] -> fs w' !! q = fs w !! q.
Proof.
  unfold makedirs. unfold mbind at 1, M_bind at 1.
  destruct (io env (EvMakedirs p) w) as [[e|[]] w1] eqn:Hio;
    apply io_result in Hio as [-> _].
  - by intros [= _ <-].
  - intros Hrest Hq. by rewrite (mkdir_each_fs _ q _ _ _ Hrest Hq).
Qed.

Lemma mkdir_one_made {Vec} (p : string) (w w' : World Vec) :
  mkdir_one p w = (inr tt, w') -> fs w' !! p = Some Dir.
Proof.
  unfold mkdir_one, set_fs, modify, mbind, M_bind, get_state, raise, mret, M_ret.
  simpl. destruct (fs w !! p) as [[|d]|] eqn:Hp; intros [= <-]; try done.
  simpl. apply lookup_insert_eq.
Qed.

Lemma mkdir_one_keeps {Vec} (p q : string) (node : Node) (w w' : World Vec) r :
  mkdir_one p w = (r, w') -> fs w !! q = Some node -> fs w' !! q = Some node.
Proof.
  unfold mkdir_one, set_fs, modify, mbind, M_bind, get_state, raise, mret, M_ret.
  simpl. destruct (fs w !! p) as [[|d]|] eqn:Hp; intros [= _ <-] Hq; try done.
  simpl. rewrite lookup_insert_ne; [done|]. intros ->. congruence.
Qed.

Lemma mkdir_each_made {Vec} (l : list string) (w w' : World Vec) :
  foldr (fun d rest => mkdir_one d;; rest) (mret tt) l w = (inr tt, w') ->
  (forall q node, fs w !! q = Some node -> fs w' !! q = Some node)
  ∧ forall d, d ∈ l -> fs w' !! d = Some Dir.
Proof.
  revert w. induction l as [|d l IH]; intros w; simpl.
  - intros [= <-]. split; [done|]. intros d Hd. by apply elem_of_nil in Hd.
  - unfold mbind at 1, M_bind at 1.
    destruct (mkdir_one d w) as [[e|[]] w1] eqn:Hone; [done|]. intros Hrest.
    destruct (IH _ Hrest) as [Hkeeps Hmade]. split.
    + intros q node Hq. by apply Hkeeps, (mkdir_one_keeps d q node w w1 (inr tt)).
    + intros d0 Hd0. apply elem_of_cons in Hd0 as [->|Hd0]; [|by apply Hmade].
      by apply Hkeeps, (mkdir_one_made d w).
Qed.

Lemma makedirs_made {Vec Score} (env : Env Vec Score) (p : string) (w w' : World Vec) :
  makedirs env p w = (inr tt, w') ->
  (forall q node, fs w !! q = Some node -> fs w' !! q = Some node)
  ∧ fs w' !! p = Some Dir.
Proof.
  unfold makedirs. unfold mbind at 1, M_bind at 1.
  destruct (io env (EvMakedirs p) w) as [[e|[]] w1] eqn:Hio; [done|].
  apply io_result in Hio as [-> _]. intros Hrest.
  apply mkdir_each_made in Hrest as [Hkeeps Hmade]. split; [done|].
  apply Hmade, elem_of_app. right. by apply list_elem_of_singleton.
Qed.

Lemma rmtree_outcome {Vec Score} (env : Env Vec Score) (p : string) (w w' : World Vec) r :
  rmtree env p w = (r, w') ->
  environ w' = environ w
  ∧ ((exists e,
         r = inl e
         ∧ fs w' !! p = fs w !! p
         ∧ forall q, fs w' !! q = fs w !! q ∨ inside p q = true ∧ fs w' !! q = None)
     ∨ r = inr tt
       ∧ forall q, fs w' !! q = if inside p q then None else fs w !! q).
Proof.
  unfold rmtree. unfold mbind at 1, M_bind at 1.
  destruct (io env (EvRmtree p) w) as [[e|[]] w1] eqn:Hio;
    apply io_result in Hio as [-> _].
  - intros [= <- <-]. split; [done|]. left. exists e. split; [done|]. split; [done|].
    intros q. by left.
  - unfold mbind at 1, M_bind at 1, get_state. simpl.
    destruct (fs w !! p) as [[|d]|] eqn:Hp.
    + destruct (rmtree_stops env (fs w) p) as [[e gone]|].
      * unfold set_fs, modify, mbind, M_bind, raise. simpl. intros [= <- <-]. simpl.
        split; [done|]. left. exists e. split; [done|]. split.
        { apply map_lookup_filter_Some. split; [done|]. simpl.
          rewrite String.eqb_refl. simpl. apply andb_false_r. }
        intros q. destruct (fs w !! q) as [node|] eqn:Hq.
        -- destruct (inside p q && gone q && negb (String.eqb q p)) eqn:Hgone.
           ++ right. pose proof Hgone as Hall.
              apply andb_true_iff in Hgone as [Hgone _].
              apply andb_true_iff in Hgone as [Hin _]. split; [done|].
              apply map_lookup_filter_None. right. intros node' _. simpl.
              by rewrite Hall.
           ++ left. apply map_lookup_filter_Some. by split.
        -- left. apply map_lookup_filter_None. by left.
      * unfold set_fs, modify. intros [= <- <-]. simpl. split; [done|]. right.
        split; [done|]. intros q. destruct (inside p q) eqn:Hin.
        -- apply map_lookup_filter_None. right. intros node _. simpl. by rewrite Hin.
        -- destruct (fs w !! q) as [node|] eqn:Hq.
           ++ apply map_lookup_filter_Some. by split.
           ++ apply map_lookup_filter_None. by left.
    + unfold raise. intros [= <- <-]. simpl. split; [done|]. left. eexists.
      split; [done|]. split; [done|]. intros q. by left.
    + unfold raise. intros [= <- <-]. simpl. split; [done|]. left. eexists.
      split; [done|]. split; [done|]. intros q. by left.
Qed.

Lemma write_file_fs {Vec Score} (env : Env Vec Score) (ev : Event) (p q : string)
    (data : FileData) (w w' : World Vec) r :
  write_file env ev p data w = (r, w') -> q ≠ p -> fs w' !! q = fs w !! q.
Proof.
  unfold write_file. unfold mbind at 1, M_bind at 1.
  destruct (io env ev w) as [[e|[]] w1] eqn:Hio; apply io_result in Hio as [-> _].
  - by intros [= _ <-].
  - unfold mbind, M_bind, get_state, raise, mret, M_ret, set_fs, modify. simpl.
    intros Hrun Hne. repeat case_match; simplify_eq; simpl; try done;
      by rewrite lookup_insert_ne.
Qed.

Lemma FAISS_save_local_fs {Vec Score} (env : Env Vec Score) (index : Index)
    (folder q : string) (w w' : World Vec) r :
  FAISS_save_local env index folder w = (r, w') ->
  q ∉ Path.parents folder ++ [folder] ->
  q ≠ Path.join folder "index.faiss" -> q ≠ Path.join folder "index.pkl" ->
  fs w' !! q = fs w !! q.
Proof.
  unfold FAISS_save_local. intros Hrun Hq Hfaiss Hpkl.
  unfold mbind at 1, M_bind at 1 in Hrun.
  destruct (makedirs env folder w) as [[e|[]] w1] eqn:Hmk;
    apply (makedirs_fs env folder q) in Hmk; try done.
  { by injection Hrun as _ <-. }
  unfold mbind at 1, M_bind at 1 in Hrun.
  destruct (write_file env _ _ _ w1) as [[e|[]] w2] eqn:Hw1;
    apply (write_file_fs env _ _ q) in Hw1; try done.
  { injection Hrun as _ <-. congruence. }
  apply (write_file_fs env _ _ q) in Hrun; [|done]. congruence.
Qed.

Lemma FAISS_save_local_folder {Vec Score} (env : Env Vec Score) (index : Index)
    (folder : string) (w w' : World Vec) :
  FAISS_save_local env index folder w = (inr tt, w') -> is_Some (fs w' !! folder).
Proof.
  unfold FAISS_save_local. intros Hrun.
  apply bind_success in Hrun as ([] & w1 & Hmk & Hrun).
  apply bind_success in Hrun as ([] & w2 & Hw1 & Hw2).
  apply makedirs_made in Hmk as [_ Hdir].
  apply write_file_success in Hw1 as (Hfs1 & _ & _).
  apply write_file_success in Hw2 as (Hfs2 & _ & _).
  rewrite Hfs2, Hfs1, !lookup_insert_is_Some'. right. right. by eexists.
Qed.

(** What [process_folder] does once the documents are loaded and the old
    folder is out of the way. *)
Lemma rebuild_outcome {Vec Score} (env : Env Vec Score) (self : DocumentIngestor)
    (chunks : list Document) (w w' : World Vec) r :
  (create_vectorstore env self chunks ≫= fun self => save_vectorstore env self None) w
  = (r, w') ->
  (forall q,
     inside (ing_vectorstore_path self) q = true ->
     q ≠ ing_vectorstore_path self ->
     q ≠ Path.join (ing_vectorstore_path self) "index.faiss" ->
     q ≠ Path.join (ing_vectorstore_path self) "index.pkl" ->
     fs w' !! q = fs w !! q)
  ∧ (forall e,
       embed_documents env (map page_content chunks) = inl e ->
       r = inl e ∧ fs w' = fs w)
  ∧ (r = inr tt ->
     exists vectors,
       embed_documents env (map page_content chunks) = inr vectors
       ∧ is_Some (fs w' !! ing_vectorstore_path self)
       ∧ fs w' !! Path.join (ing_vectorstore_path self) "index.faiss"
         = Some (File (FaissIndex (map fst (zip vectors chunks))))
       ∧ fs w' !! Path.join (ing_vectorstore_path self) "index.pkl"
         = Some (File (Pickle (map snd (zip vectors chunks))))).
Proof.
  unfold create_vectorstore, FAISS_from_documents, log, modify, lift_result.
  unfold mbind at 1 2 3 4, M_bind at 1 2 3 4. simpl.
  destruct (embed_documents env (map page_content chunks)) as [e|[|v vectors]] eqn:Hembed;
    simpl.
  - intros [= <- <-]. split; [done|]. split; [by intros e0 [= <-]|done].
  - intros [= <- <-]. split; [done|]. split; [by intros e0|done].
  - unfold save_vectorstore. simpl. unfold mbind at 1, M_bind at 1.
    destruct (match Path.parent (ing_vectorstore_path self) with
              | Some d => makedirs env d
              | None => mret tt
              end _) as [[e|[]] w2] eqn:Hup.
    + intros [= <- <-]. split; [|split; [by intros e0|done]].
      intros q Hin Hne _ _.
      destruct (inside_not_made _ _ Hin Hne) as [_ Habove].
      destruct (Path.parent (ing_vectorstore_path self)) as [up|] eqn:Hparent;
        [|by injection Hup as _ <-].
      apply (makedirs_fs env up q) in Hup; [by rewrite Hup|by apply Habove].
    + intros Hsave. split; [|split; [by intros e0|]].
      * intros q Hin Hne Hfaiss Hpkl.
        destruct (inside_not_made _ _ Hin Hne) as [Hfolder Habove].
        rewrite (FAISS_save_local_fs env _ _ q _ _ _ Hsave) by done.
        destruct (Path.parent (ing_vectorstore_path self)) as [up|] eqn:Hparent;
          [|by injection Hup as <-].
        apply (makedirs_fs env up q) in Hup; [by rewrite Hup|by apply Habove].
      * intros ->. exists (v :: vectors). split; [done|].
        split; [by apply FAISS_save_local_folder in Hsave|].
        by apply FAISS_save_local_success in Hsave.
Qed.

(** X15. What [process_folder] leaves of an index that is already there.
    With nothing loaded from the folder it returns at once and the index
    is untouched.  With documents it removes the index folder before it
    embeds.  When that removal fails, the call fails with the removal's
    error, without embedding: the environment, the index folder itself
    and every path outside it are as before, and each path inside it is
    either as before or gone, the removal having stopped part of the way.
    When the removal succeeds, no file of the old index survives the call,
    whatever its outcome; and when the embedding call then fails the error
    is raised with nothing left under the index path, the folder
    included. *)
Theorem rebuild_removes_the_old_index {Vec Score : Type} (env : Env Vec Score)
    (self : DocumentIngestor) (docs : list Document) (w w1 : World Vec) :
  load_documents_from_folder env self w = (inr docs, w1) ->
  (docs = [] -> process_folder env self w = (inr tt, w1) ∧ reads_only w w1)
  ∧ (docs ≠ [] ->
     is_Some (fs w !! ing_vectorstore_path self) ->
     forall r w',
       process_folder env self w = (r, w') ->
       (forall e,
          (rmtree env (ing_vectorstore_path self) w1).1 = inl e ->
          r = inl e
          ∧ environ w' = environ w
          ∧ fs w' !! ing_vectorstore_path self = fs w !! ing_vectorstore_path self
          ∧ forall q,
              fs w' !! q = fs w !! q
              ∨ inside (ing_vectorstore_path self) q = true ∧ fs w' !! q = None)
       ∧ ((rmtree env (ing_vectorstore_path self) w1).1 = inr tt ->
          (forall q,
             inside (ing_vectorstore_path self) q = true ->
             q ≠ ing_vectorstore_path self ->
             q ≠ Path.join (ing_vectorstore_path self) "index.faiss" ->
             q ≠ Path.join (ing_vectorstore_path self) "index.pkl" ->
             fs w' !! q = None)
          ∧ (forall e,
               embed_documents env (map page_content (chunk_documents env self docs))
               = inl e ->
               r = inl e
               ∧ forall q, inside (ing_vectorstore_path self) q = true ->
                           fs w' !! q = None))).
Proof.
  intros Hload.
  destruct (folder_loading_reads_only env self w w1 (inr docs) Hload) as [Hfs1 Henv1].
  split.
  - intros ->. unfold process_folder, mbind, M_bind. rewrite Hload. by split.
  - intros Hdocs Hfolder r w'. unfold process_folder. unfold mbind at 1, M_bind at 1.
    rewrite Hload. destruct docs as [|d docs]; [done|]. cbv zeta.
    unfold mbind at 1, M_bind at 1, path_exists, get_state, mret, M_ret. simpl.
    rewrite Hfs1, bool_decide_eq_true_2 by done.
    unfold mbind at 1, M_bind at 1.
    destruct (rmtree env (ing_vectorstore_path self) w1) as [r2 w2] eqn:Hrm.
    apply rmtree_outcome in Hrm as [Henv2 [(e & -> & Hkept & Hfs2)|(-> & Hfs2)]]; simpl.
    + intros [= <- <-]. split; [|done]. intros e0 [= <-]. split; [done|].
      split; [congruence|]. split; [congruence|]. intros q. rewrite <- Hfs1. apply Hfs2.
    + intros Hrebuild. split; [done|]. intros _.
      apply rebuild_outcome in Hrebuild as (Hother & Hfail & _). split.
      * intros q Hin Hne Hfaiss Hpkl. by rewrite Hother, Hfs2, Hin.
      * intros e Hembed. destruct (Hfail e Hembed) as [-> Hfs']. split; [done|].
        intros q Hin. by rewrite Hfs', Hfs2, Hin.
Qed.

Lemma rebuild_removes_the_old_index_witness :
  (process_folder (env_double nearest "unused" embedding_fails)
     (DocumentIngestor_init "HC") (world app_ready)).1
  = inl (UpstreamError "embedding request failed")
  ∧ fs (process_folder (env_double nearest "unused" embedding_fails)
          (DocumentIngestor_init "HC") (world app_ready)).2
      !! "data/vectorstore/hc_faiss_index/archive.faiss"
    = None.
Proof.
  destruct (rebuild_removes_the_old_index (env_double nearest "unused" embedding_fails)
              (DocumentIngestor_init "HC")
              [mkDocument "Travel is reimbursed."
                 {["source" := VStr "data/HR_Doc/travel.pdf"]}]
              (world app_ready)
              (load_documents_from_folder (env_double nearest "unused" embedding_fails)
                 (DocumentIngestor_init "HC") (world app_ready)).2)
    as [_ Hrebuild].
  - vm_compute. reflexivity.
  - assert (Hfolder : is_Some (fs (world app_ready)
                                 !! ing_vectorstore_path
                                      (@DocumentIngestor_init unit "HC")))
      by (vm_compute; by eexists).
    destruct (Hrebuild ltac:(done) Hfolder
                (process_folder (env_double nearest "unused" embedding_fails)
                   (DocumentIngestor_init "HC") (world app_ready)).1
                (process_folder (env_double nearest "unused" embedding_fails)
                   (DocumentIngestor_init "HC") (world app_ready)).2)
      as [_ Hremoved].
    + by destruct (process_folder _ _ _).
    + destruct Hremoved as [_ Hfail]; [vm_compute; reflexivity|].
      destruct (Hfail (UpstreamError "embedding request failed")) as [Hr Hgone].
      * vm_compute. reflexivity.
      * split; [exact Hr|]. apply Hgone. vm_compute. reflexivity.
Defined.

(** X16. Ingest, then start: after [process_folder] succeeded on a folder
    with documents, the index folder exists and holds the chunks of those
    documents, numbered, with the vectors of the one embedding call; what
    [FAISS.load_local] reads back from it (the reads not failing) is that
    store, so, the clients of the agent being built, [SOPAgent()] on the
    SOP path, and [HCAgent().initialize()] on the HC path, start on
    exactly the chunks just ingested. *)
Theorem rebuild_then_start_agent {Vec Score : Type} (env : Env Vec Score)
    (self : DocumentIngestor) (docs : list Document) (w w1 w' : World Vec) :
  load_documents_from_folder env self w = (inr docs, w1) ->
  docs ≠ [] ->
  process_folder env self w = (inr tt, w') ->
  exists vectors,
    embed_documents env (map page_content (chunk_documents env self docs)) = inr vectors
    ∧ is_Some (fs w' !! ing_vectorstore_path self)
    ∧ (io_fault env (EvReadIndex (Path.join (ing_vectorstore_path self) "index.faiss"))
       = None ->
       io_fault env (EvReadFile (Path.join (ing_vectorstore_path self) "index.pkl"))
       = None ->
       FAISS_load_local env (ing_vectorstore_path self) w'
       = (inr (zip vectors (chunk_documents env self docs)),
          logged w' [EvReadIndex (Path.join (ing_vectorstore_path self) "index.faiss");
                     EvReadFile (Path.join (ing_vectorstore_path self) "index.pkl")])
       ∧ (ing_vectorstore_path self = SOP_VECTORSTORE_PATH ->
          clients_ok env w' ->
          (SOPAgent_init env w').1
          = inr (mkSOPAgent (zip vectors (chunk_documents env self docs))))
       ∧ (ing_vectorstore_path self = HC_VECTORSTORE_PATH ->
          clients_ok env w' ->
          HCAgent_new env None w' = (inr (HCAgent_init None), w')
          ∧ (HC_initialize env (w', HCAgent_init None)).1 = inr tt
          ∧ (HC_initialize env (w', HCAgent_init None)).2.2
            = hc_ready_on HC_VECTORSTORE_PATH
                (zip vectors (chunk_documents env self docs)))).
Proof.
  intros Hload Hdocs Hrun. unfold process_folder in Hrun.
  apply bind_success in Hrun as (docs0 & w0 & Hload0 & Hrun).
  rewrite Hload in Hload0. injection Hload0 as <- <-.
  destruct docs as [|d docs]; [done|]. cbv zeta in Hrun.
  apply bind_success in Hrun as (found & w2 & _ & Hrun).
  apply bind_success in Hrun as ([] & w3 & _ & Hrun).
  apply rebuild_outcome in Hrun as (_ & _ & Hok).
  destruct (Hok eq_refl) as (vectors & Hembed & Hfolder & Hfaiss & Hpkl).
  exists vectors. split; [done|]. split; [done|]. intros Hread1 Hread2.
  destruct (FAISS_load_local_reads env _ w' _ _ Hfaiss Hpkl) as [_ Hreads].
  specialize (Hreads Hread1 Hread2). rewrite zip_fst_snd in Hreads.
  split; [done|]. split.
  - intros Hpath Hclients. rewrite Hpath in Hreads, Hfolder.
    unfold SOPAgent_init. unfold mbind at 1, M_bind at 1.
    rewrite (BaseAgent_init_ok env w' Hclients).
    unfold SOP_load_vectorstore, path_exists, mbind, M_bind, get_state, mret, M_ret.
    simpl. rewrite bool_decide_eq_true_2 by done. by rewrite Hreads.
  - intros Hpath Hclients. rewrite Hpath in Hreads, Hfolder.
    split.
    { unfold HCAgent_new, mbind, M_bind. by rewrite (BaseAgent_init_ok env w' Hclients). }
    unfold HC_initialize, HC_load_vectorstore, HC_create_qa_chain, on_world, path_exists,
      get_self, set_self, mbind, M_bind, get_state, raise, mret, M_ret.
    simpl. rewrite bool_decide_eq_true_2 by done. simpl. by rewrite Hreads.
Qed.

Lemma rebuild_then_start_agent_witness :
  exists vectors,
    (HC_initialize (env_double nearest "unused" no_fault)
       ((process_folder (env_double nearest "unused" no_fault)
           (DocumentIngestor_init "HC") (world app_ready)).2,
        HCAgent_init None)).2.2
    = hc_ready_on HC_VECTORSTORE_PATH
        (zip vectors
           (chunk_documents (env_double nearest "unused" no_fault)
              (DocumentIngestor_init "HC")
              [mkDocument "Travel is reimbursed."
                 {["source" := VStr "data/HR_Doc/travel.pdf"]}])).
Proof.
  destruct (rebuild_then_start_agent (env_double nearest "unused" no_fault)
              (DocumentIngestor_init "HC")
              [mkDocument "Travel is reimbursed."
                 {["source" := VStr "data/HR_Doc/travel.pdf"]}]
              (world app_ready)
              (load_documents_from_folder (env_double nearest "unused" no_fault)
                 (DocumentIngestor_init "HC") (world app_ready)).2
              (process_folder (env_double nearest "unused" no_fault)
                 (DocumentIngestor_init "HC") (world app_ready)).2)
    as (vectors & _ & _ & Hstart).
  - vm_compute. reflexivity.
  - done.
  - vm_compute. reflexivity.
  - destruct (Hstart eq_refl eq_refl) as (_ & _ & Hhc).
    destruct (Hhc eq_refl) as (_ & _ & Hready); [by split|]. by exists vectors.
Defined.

(** ** [config.py]: validation and the working directories *)

(** X17. [Settings.validate] accepts exactly when the endpoint and the
    key are set to something, and neither deployment name is set to the
    empty text: a deployment name that is not set at all passes, because
    the class body falls back on a default.  Every rejection is a
    [ValueError] that names a variable which is unset or empty. *)
Theorem validate_accepts_iff (vars : gmap string string) :
  (validate (Settings_load vars) = inr tt
   ↔ (exists v, vars !! "AZURE_OPENAI_ENDPOINT" = Some v ∧ v ≠ EmptyString)
     ∧ (exists v, vars !! "AZURE_OPENAI_KEY" = Some v ∧ v ≠ EmptyString)
     ∧ vars !! "AZURE_EMBEDDING_DEPLOYMENT" ≠ Some EmptyString
     ∧ vars !! "AZURE_CHAT_DEPLOYMENT" ≠ Some EmptyString)
  ∧ (forall e,
       validate (Settings_load vars) = inl e ->
       exists name,
         e = ValueError (name +:+ " not set in .env file")
         ∧ (vars !! name = None ∨ vars !! name = Some EmptyString)).
Proof.
  unfold validate, Settings_load. simpl.
  destruct (vars !! "AZURE_OPENAI_ENDPOINT") as [[|c1 s1]|] eqn:H1;
    destruct (vars !! "AZURE_OPENAI_KEY") as [[|c2 s2]|] eqn:H2;
    destruct (vars !! "AZURE_EMBEDDING_DEPLOYMENT") as [[|c3 s3]|] eqn:H3;
    destruct (vars !! "AZURE_CHAT_DEPLOYMENT") as [[|c4 s4]|] eqn:H4;
    simpl;
    (split;
     [split;
      [intros Hok; try discriminate Hok;
       repeat split; first [discriminate | eexists; split; [reflexivity|discriminate]]
      |intros [(v1 & Hv1 & Hn1) [(v2 & Hv2 & Hn2) [Hn3 Hn4]]];
       try discriminate Hv1; try discriminate Hv2;
       try (injection Hv1 as <-); try (injection Hv2 as <-); done]
     |]);
    intros e [= <-];
    first [ exists "AZURE_OPENAI_ENDPOINT"; split; [reflexivity|]; rewrite H1; by auto
          | exists "AZURE_OPENAI_KEY"; split; [reflexivity|]; rewrite H2; by auto
          | exists "AZURE_EMBEDDING_DEPLOYMENT"; split; [reflexivity|]; rewrite H3; by auto
          | exists "AZURE_CHAT_DEPLOYMENT"; split; [reflexivity|]; rewrite H4; by auto ].
Qed.

Lemma validate_accepts_iff_witness :
  validate (Settings_load
              {["AZURE_OPENAI_ENDPOINT" := "https://example.openai.azure.com";
                "AZURE_OPENAI_KEY" := "secret"]})
  = inr tt.
Proof.
  destruct (validate_accepts_iff
              {["AZURE_OPENAI_ENDPOINT" := "https://example.openai.azure.com";
                "AZURE_OPENAI_KEY" := "secret"]}) as [[_ Haccepts] _].
  apply Haccepts. repeat split.
  - eexists. split; [vm_compute; reflexivity|discriminate].
  - eexists. split; [vm_compute; reflexivity|discriminate].
  - vm_compute. discriminate.
  - vm_compute. discriminate.
Defined.

Lemma mkdir_each_keeps {Vec} (l : list string) (w w' : World Vec) r :
  foldr (fun d rest => mkdir_one d;; rest) (mret tt) l w = (r, w') ->
  forall q node, fs w !! q = Some node -> fs w' !! q = Some node.
Proof.
  revert w. induction l as [|d l IH]; intros w; simpl.
  - by intros [= _ <-].
  - unfold mbind at 1, M_bind at 1.
    destruct (mkdir_one d w) as [[e|[]] w1] eqn:Hone; intros Hrest q node Hq;
      apply (mkdir_one_keeps d q node) in Hone; try done.
    + by injection Hrest as _ <-.
    + by apply (IH _ Hrest).
Qed.

Lemma makedirs_keeps {Vec Score} (env : Env Vec Score) (p : string) (w w' : World Vec) r :
  makedirs env p w = (r, w') ->
  forall q node, fs w !! q = Some node -> fs w' !! q = Some node.
Proof.
  unfold makedirs. unfold mbind at 1, M_bind at 1.
  destruct (io env (EvMakedirs p) w) as [[e|[]] w1] eqn:Hio;
    apply io_result in Hio as [-> _].
  - by intros [= _ <-].
  - intros Hrest. by apply (mkdir_each_keeps _ _ _ _ Hrest).
Qed.

Lemma make_parent_keeps {Vec Score} (env : Env Vec Score) (p : string) (w w' : World Vec) r :
  make_parent env p w = (r, w') ->
  forall q node, fs w !! q = Some node -> fs w' !! q = Some node.
Proof.
  unfold make_parent. destruct (Path.parent p) as [d|].
  - apply makedirs_keeps.
  - by intros [= _ <-].
Qed.

(** A computation that keeps every node of the disk. *)
Lemma keeps_nodes_bind {Vec A B} (c : M (World Vec) A) (k : A -> M (World Vec) B) :
  (forall w r w', c w = (r, w') ->
     forall q node, fs w !! q = Some node -> fs w' !! q = Some node) ->
  (forall a w r w', k a w = (r, w') ->
     forall q node, fs w !! q = Some node -> fs w' !! q = Some node) ->
  forall w r w', (c ≫= k) w = (r, w') ->
    forall q node, fs w !! q = Some node -> fs w' !! q = Some node.
Proof.
  intros Hc Hk w r w'. unfold mbind, M_bind.
  destruct (c w) as [[e|a] w1] eqn:Hrun.
  - intros [= _ <-]. by apply (Hc _ _ _ Hrun).
  - intros Hrest q node Hq. apply (Hk _ _ _ _ Hrest), (Hc _ _ _ Hrun), Hq.
Qed.

(** X18. [Settings.create_directories] never overwrites or removes
    anything: whatever its outcome, every file and directory that was on
    disk is still there, unchanged.  When it succeeds, the two document
    folders, the folder above the two index folders and the upload
    folder exist as directories. *)
Theorem create_directories_outcome {Vec Score : Type} (env : Env Vec Score)
    (w w' : World Vec) (r : exn + unit) :
  create_directories env w = (r, w') ->
  (forall q node, fs w !! q = Some node -> fs w' !! q = Some node)
  ∧ (r = inr tt ->
     Forall (fun d => fs w' !! d = Some Dir)
       [SOP_DOCUMENTS_PATH; HC_DOCUMENTS_PATH; "data/vectorstore"; HC_UPLOAD_DIR]).
Proof.
  intros Hrun. split.
  - revert w r w' Hrun. unfold create_directories.
    apply keeps_nodes_bind; [intros ? ? ?; apply makedirs_keeps|intros _].
    apply keeps_nodes_bind; [intros ? ? ?; apply makedirs_keeps|intros _].
    apply keeps_nodes_bind; [intros ? ? ?; apply make_parent_keeps|intros _].
    apply keeps_nodes_bind; [intros ? ? ?; apply make_parent_keeps|intros _].
    intros ? ? ?. apply makedirs_keeps.
  - intros ->. unfold create_directories in Hrun.
    apply bind_success in Hrun as ([] & w1 & H1 & Hrun).
    apply bind_success in Hrun as ([] & w2 & H2 & Hrun).
    apply bind_success in Hrun as ([] & w3 & H3 & Hrun).
    apply bind_success in Hrun as ([] & w4 & H4 & H5).
    change (make_parent env SOP_VECTORSTORE_PATH) with (makedirs env "data/vectorstore") in H3.
    change (make_parent env HC_VECTORSTORE_PATH) with (makedirs env "data/vectorstore") in H4.
    apply makedirs_made in H1 as [_ D1]. apply makedirs_made in H2 as [K2 D2].
    apply makedirs_made in H3 as [K3 D3]. apply makedirs_made in H4 as [K4 D4].
    apply makedirs_made in H5 as [K5 D5].
    repeat constructor; auto.
Qed.

Lemma create_directories_outcome_witness :
  fs (create_directories (env_double nearest "unused" no_fault) (world app_ready)).2
    !! "data/vectorstore/hc_faiss_index/index.pkl"
  = Some (File (Pickle [chunk_leave])).
Proof.
  destruct (create_directories_outcome (env_double nearest "unused" no_fault)
              (world app_ready)
              (create_directories (env_double nearest "unused" no_fault)
                 (world app_ready)).2
              (create_directories (env_double nearest "unused" no_fault)
                 (world app_ready)).1)
    as [Hkeeps _].
  - by destruct (create_directories _ _).
  - apply Hkeeps. vm_compute. reflexivity.
Defined.
